(** * LumoGen Voice Studio (app4.py): a shallow embedding of the request
    handlers and the properties of their specification.

    The Flask application keeps three module-level tables (VOICE_DATA,
    LANGUAGE_VOICES, TEMP_FILES).  Handlers are embedded as functions that
    take the tables they read and return the response together with the
    tables they write.  The outside world (the temp-file facility, the
    speech provider, the outcome of os.unlink) enters as explicit
    arguments. *)

From Stdlib Require Import ZArith String Ascii List Lia Bool.
From Stdlib Require Import PrimFloat SpecFloat FloatOps DecimalString.
From Stdlib Require DecimalPos DecimalZ.
From stdpp Require Import gmap strings list.

Open Scope string_scope.
Open Scope Z_scope.

(** ** Python results: a value, or a raised exception carrying [str(e)]. *)

Inductive py (A : Type) : Type :=
| Returns (a : A)
| Raises (exc : string).
Arguments Returns {A} a.
Arguments Raises {A} exc.

Definition py_bind {A B : Type} (c : py A) (k : A -> py B) : py B :=
  match c with
  | Returns a => k a
  | Raises e => Raises e
  end.

Notation "'let*' x ':=' c 'in' k" := (py_bind c (fun x => k))
  (at level 10, x name, c at level 100, k at level 200).

(** ** Unicode data behind [str.lower()], [str.upper()] and [str.strip()]
    (Unicode 14.0, as in CPython 3.11).  A run [(first, last, stride,
    target)] maps [first], [first + stride], ..., [last] to [target],
    [target + stride], ... *)

Module UnicodeData.

Definition lower_runs : list (N * N * N * N) :=
  [
    (0x41, 0x5A, 1, 0x61); (0xC0, 0xD6, 1, 0xE0); (0xD8, 0xDE, 1, 0xF8);
    (0x100, 0x12E, 2, 0x101); (0x132, 0x136, 2, 0x133); (0x139, 0x147, 2, 0x13A);
    (0x14A, 0x176, 2, 0x14B); (0x178, 0x178, 1, 0xFF); (0x179, 0x17D, 2, 0x17A);
    (0x181, 0x181, 1, 0x253); (0x182, 0x184, 2, 0x183); (0x186, 0x186, 1, 0x254);
    (0x187, 0x187, 1, 0x188); (0x189, 0x18A, 1, 0x256); (0x18B, 0x18B, 1, 0x18C);
    (0x18E, 0x18E, 1, 0x1DD); (0x18F, 0x18F, 1, 0x259); (0x190, 0x190, 1, 0x25B);
    (0x191, 0x191, 1, 0x192); (0x193, 0x193, 1, 0x260); (0x194, 0x194, 1, 0x263);
    (0x196, 0x196, 1, 0x269); (0x197, 0x197, 1, 0x268); (0x198, 0x198, 1, 0x199);
    (0x19C, 0x19C, 1, 0x26F); (0x19D, 0x19D, 1, 0x272); (0x19F, 0x19F, 1, 0x275);
    (0x1A0, 0x1A4, 2, 0x1A1); (0x1A6, 0x1A6, 1, 0x280); (0x1A7, 0x1A7, 1, 0x1A8);
    (0x1A9, 0x1A9, 1, 0x283); (0x1AC, 0x1AC, 1, 0x1AD); (0x1AE, 0x1AE, 1, 0x288);
    (0x1AF, 0x1AF, 1, 0x1B0); (0x1B1, 0x1B2, 1, 0x28A); (0x1B3, 0x1B5, 2, 0x1B4);
    (0x1B7, 0x1B7, 1, 0x292); (0x1B8, 0x1B8, 1, 0x1B9); (0x1BC, 0x1BC, 1, 0x1BD);
    (0x1C4, 0x1C4, 1, 0x1C6); (0x1C5, 0x1C5, 1, 0x1C6); (0x1C7, 0x1C7, 1, 0x1C9);
    (0x1C8, 0x1C8, 1, 0x1C9); (0x1CA, 0x1CA, 1, 0x1CC); (0x1CB, 0x1DB, 2, 0x1CC);
    (0x1DE, 0x1EE, 2, 0x1DF); (0x1F1, 0x1F1, 1, 0x1F3); (0x1F2, 0x1F4, 2, 0x1F3);
    (0x1F6, 0x1F6, 1, 0x195); (0x1F7, 0x1F7, 1, 0x1BF); (0x1F8, 0x21E, 2, 0x1F9);
    (0x220, 0x220, 1, 0x19E); (0x222, 0x232, 2, 0x223); (0x23A, 0x23A, 1, 0x2C65);
    (0x23B, 0x23B, 1, 0x23C); (0x23D, 0x23D, 1, 0x19A); (0x23E, 0x23E, 1, 0x2C66);
    (0x241, 0x241, 1, 0x242); (0x243, 0x243, 1, 0x180); (0x244, 0x244, 1, 0x289);
    (0x245, 0x245, 1, 0x28C); (0x246, 0x24E, 2, 0x247); (0x370, 0x372, 2, 0x371);
    (0x376, 0x376, 1, 0x377); (0x37F, 0x37F, 1, 0x3F3); (0x386, 0x386, 1, 0x3AC);
    (0x388, 0x38A, 1, 0x3AD); (0x38C, 0x38C, 1, 0x3CC); (0x38E, 0x38F, 1, 0x3CD);
    (0x391, 0x3A1, 1, 0x3B1); (0x3A3, 0x3AB, 1, 0x3C3); (0x3CF, 0x3CF, 1, 0x3D7);
    (0x3D8, 0x3EE, 2, 0x3D9); (0x3F4, 0x3F4, 1, 0x3B8); (0x3F7, 0x3F7, 1, 0x3F8);
    (0x3F9, 0x3F9, 1, 0x3F2); (0x3FA, 0x3FA, 1, 0x3FB); (0x3FD, 0x3FF, 1, 0x37B);
    (0x400, 0x40F, 1, 0x450); (0x410, 0x42F, 1, 0x430); (0x460, 0x480, 2, 0x461);
    (0x48A, 0x4BE, 2, 0x48B); (0x4C0, 0x4C0, 1, 0x4CF); (0x4C1, 0x4CD, 2, 0x4C2);
    (0x4D0, 0x52E, 2, 0x4D1); (0x531, 0x556, 1, 0x561); (0x10A0, 0x10C5, 1, 0x2D00);
    (0x10C7, 0x10C7, 1, 0x2D27); (0x10CD, 0x10CD, 1, 0x2D2D); (0x13A0, 0x13EF, 1, 0xAB70);
    (0x13F0, 0x13F5, 1, 0x13F8); (0x1C90, 0x1CBA, 1, 0x10D0); (0x1CBD, 0x1CBF, 1, 0x10FD);
    (0x1E00, 0x1E94, 2, 0x1E01); (0x1E9E, 0x1E9E, 1, 0xDF); (0x1EA0, 0x1EFE, 2, 0x1EA1);
    (0x1F08, 0x1F0F, 1, 0x1F00); (0x1F18, 0x1F1D, 1, 0x1F10); (0x1F28, 0x1F2F, 1, 0x1F20);
    (0x1F38, 0x1F3F, 1, 0x1F30); (0x1F48, 0x1F4D, 1, 0x1F40); (0x1F59, 0x1F5F, 2, 0x1F51);
    (0x1F68, 0x1F6F, 1, 0x1F60); (0x1F88, 0x1F8F, 1, 0x1F80); (0x1F98, 0x1F9F, 1, 0x1F90);
    (0x1FA8, 0x1FAF, 1, 0x1FA0); (0x1FB8, 0x1FB9, 1, 0x1FB0); (0x1FBA, 0x1FBB, 1, 0x1F70);
    (0x1FBC, 0x1FBC, 1, 0x1FB3); (0x1FC8, 0x1FCB, 1, 0x1F72); (0x1FCC, 0x1FCC, 1, 0x1FC3);
    (0x1FD8, 0x1FD9, 1, 0x1FD0); (0x1FDA, 0x1FDB, 1, 0x1F76); (0x1FE8, 0x1FE9, 1, 0x1FE0);
    (0x1FEA, 0x1FEB, 1, 0x1F7A); (0x1FEC, 0x1FEC, 1, 0x1FE5); (0x1FF8, 0x1FF9, 1, 0x1F78);
    (0x1FFA, 0x1FFB, 1, 0x1F7C); (0x1FFC, 0x1FFC, 1, 0x1FF3); (0x2126, 0x2126, 1, 0x3C9);
    (0x212A, 0x212A, 1, 0x6B); (0x212B, 0x212B, 1, 0xE5); (0x2132, 0x2132, 1, 0x214E);
    (0x2160, 0x216F, 1, 0x2170); (0x2183, 0x2183, 1, 0x2184); (0x24B6, 0x24CF, 1, 0x24D0);
    (0x2C00, 0x2C2F, 1, 0x2C30); (0x2C60, 0x2C60, 1, 0x2C61); (0x2C62, 0x2C62, 1, 0x26B);
    (0x2C63, 0x2C63, 1, 0x1D7D); (0x2C64, 0x2C64, 1, 0x27D); (0x2C67, 0x2C6B, 2, 0x2C68);
    (0x2C6D, 0x2C6D, 1, 0x251); (0x2C6E, 0x2C6E, 1, 0x271); (0x2C6F, 0x2C6F, 1, 0x250);
    (0x2C70, 0x2C70, 1, 0x252); (0x2C72, 0x2C72, 1, 0x2C73); (0x2C75, 0x2C75, 1, 0x2C76);
    (0x2C7E, 0x2C7F, 1, 0x23F); (0x2C80, 0x2CE2, 2, 0x2C81); (0x2CEB, 0x2CED, 2, 0x2CEC);
    (0x2CF2, 0x2CF2, 1, 0x2CF3); (0xA640, 0xA66C, 2, 0xA641); (0xA680, 0xA69A, 2, 0xA681);
    (0xA722, 0xA72E, 2, 0xA723); (0xA732, 0xA76E, 2, 0xA733); (0xA779, 0xA77B, 2, 0xA77A);
    (0xA77D, 0xA77D, 1, 0x1D79); (0xA77E, 0xA786, 2, 0xA77F); (0xA78B, 0xA78B, 1, 0xA78C);
    (0xA78D, 0xA78D, 1, 0x265); (0xA790, 0xA792, 2, 0xA791); (0xA796, 0xA7A8, 2, 0xA797);
    (0xA7AA, 0xA7AA, 1, 0x266); (0xA7AB, 0xA7AB, 1, 0x25C); (0xA7AC, 0xA7AC, 1, 0x261);
    (0xA7AD, 0xA7AD, 1, 0x26C); (0xA7AE, 0xA7AE, 1, 0x26A); (0xA7B0, 0xA7B0, 1, 0x29E);
    (0xA7B1, 0xA7B1, 1, 0x287); (0xA7B2, 0xA7B2, 1, 0x29D); (0xA7B3, 0xA7B3, 1, 0xAB53);
    (0xA7B4, 0xA7C2, 2, 0xA7B5); (0xA7C4, 0xA7C4, 1, 0xA794); (0xA7C5, 0xA7C5, 1, 0x282);
    (0xA7C6, 0xA7C6, 1, 0x1D8E); (0xA7C7, 0xA7C9, 2, 0xA7C8); (0xA7D0, 0xA7D0, 1, 0xA7D1);
    (0xA7D6, 0xA7D8, 2, 0xA7D7); (0xA7F5, 0xA7F5, 1, 0xA7F6); (0xFF21, 0xFF3A, 1, 0xFF41);
    (0x10400, 0x10427, 1, 0x10428); (0x104B0, 0x104D3, 1, 0x104D8); (0x10570, 0x1057A, 1, 0x10597);
    (0x1057C, 0x1058A, 1, 0x105A3); (0x1058C, 0x10592, 1, 0x105B3); (0x10594, 0x10595, 1, 0x105BB);
    (0x10C80, 0x10CB2, 1, 0x10CC0); (0x118A0, 0x118BF, 1, 0x118C0); (0x16E40, 0x16E5F, 1, 0x16E60);
    (0x1E900, 0x1E921, 1, 0x1E922) ]%N.

Definition lower_special : list (N * list N) :=
  [
    (0x130, [0x69; 0x307]) ]%N.

Definition upper_runs : list (N * N * N * N) :=
  [
    (0x61, 0x7A, 1, 0x41); (0xB5, 0xB5, 1, 0x39C); (0xE0, 0xF6, 1, 0xC0);
    (0xF8, 0xFE, 1, 0xD8); (0xFF, 0xFF, 1, 0x178); (0x101, 0x12F, 2, 0x100);
    (0x131, 0x131, 1, 0x49); (0x133, 0x137, 2, 0x132); (0x13A, 0x148, 2, 0x139);
    (0x14B, 0x177, 2, 0x14A); (0x17A, 0x17E, 2, 0x179); (0x17F, 0x17F, 1, 0x53);
    (0x180, 0x180, 1, 0x243); (0x183, 0x185, 2, 0x182); (0x188, 0x188, 1, 0x187);
    (0x18C, 0x18C, 1, 0x18B); (0x192, 0x192, 1, 0x191); (0x195, 0x195, 1, 0x1F6);
    (0x199, 0x199, 1, 0x198); (0x19A, 0x19A, 1, 0x23D); (0x19E, 0x19E, 1, 0x220);
    (0x1A1, 0x1A5, 2, 0x1A0); (0x1A8, 0x1A8, 1, 0x1A7); (0x1AD, 0x1AD, 1, 0x1AC);
    (0x1B0, 0x1B0, 1, 0x1AF); (0x1B4, 0x1B6, 2, 0x1B3); (0x1B9, 0x1B9, 1, 0x1B8);
    (0x1BD, 0x1BD, 1, 0x1BC); (0x1BF, 0x1BF, 1, 0x1F7); (0x1C5, 0x1C5, 1, 0x1C4);
    (0x1C6, 0x1C6, 1, 0x1C4); (0x1C8, 0x1C8, 1, 0x1C7); (0x1C9, 0x1C9, 1, 0x1C7);
    (0x1CB, 0x1CB, 1, 0x1CA); (0x1CC, 0x1CC, 1, 0x1CA); (0x1CE, 0x1DC, 2, 0x1CD);
    (0x1DD, 0x1DD, 1, 0x18E); (0x1DF, 0x1EF, 2, 0x1DE); (0x1F2, 0x1F2, 1, 0x1F1);
    (0x1F3, 0x1F3, 1, 0x1F1); (0x1F5, 0x1F5, 1, 0x1F4); (0x1F9, 0x21F, 2, 0x1F8);
    (0x223, 0x233, 2, 0x222); (0x23C, 0x23C, 1, 0x23B); (0x23F, 0x240, 1, 0x2C7E);
    (0x242, 0x242, 1, 0x241); (0x247, 0x24F, 2, 0x246); (0x250, 0x250, 1, 0x2C6F);
    (0x251, 0x251, 1, 0x2C6D); (0x252, 0x252, 1, 0x2C70); (0x253, 0x253, 1, 0x181);
    (0x254, 0x254, 1, 0x186); (0x256, 0x257, 1, 0x189); (0x259, 0x259, 1, 0x18F);
    (0x25B, 0x25B, 1, 0x190); (0x25C, 0x25C, 1, 0xA7AB); (0x260, 0x260, 1, 0x193);
    (0x261, 0x261, 1, 0xA7AC); (0x263, 0x263, 1, 0x194); (0x265, 0x265, 1, 0xA78D);
    (0x266, 0x266, 1, 0xA7AA); (0x268, 0x268, 1, 0x197); (0x269, 0x269, 1, 0x196);
    (0x26A, 0x26A, 1, 0xA7AE); (0x26B, 0x26B, 1, 0x2C62); (0x26C, 0x26C, 1, 0xA7AD);
    (0x26F, 0x26F, 1, 0x19C); (0x271, 0x271, 1, 0x2C6E); (0x272, 0x272, 1, 0x19D);
    (0x275, 0x275, 1, 0x19F); (0x27D, 0x27D, 1, 0x2C64); (0x280, 0x280, 1, 0x1A6);
    (0x282, 0x282, 1, 0xA7C5); (0x283, 0x283, 1, 0x1A9); (0x287, 0x287, 1, 0xA7B1);
    (0x288, 0x288, 1, 0x1AE); (0x289, 0x289, 1, 0x244); (0x28A, 0x28B, 1, 0x1B1);
    (0x28C, 0x28C, 1, 0x245); (0x292, 0x292, 1, 0x1B7); (0x29D, 0x29D, 1, 0xA7B2);
    (0x29E, 0x29E, 1, 0xA7B0); (0x345, 0x345, 1, 0x399); (0x371, 0x373, 2, 0x370);
    (0x377, 0x377, 1, 0x376); (0x37B, 0x37D, 1, 0x3FD); (0x3AC, 0x3AC, 1, 0x386);
    (0x3AD, 0x3AF, 1, 0x388); (0x3B1, 0x3C1, 1, 0x391); (0x3C2, 0x3C2, 1, 0x3A3);
    (0x3C3, 0x3CB, 1, 0x3A3); (0x3CC, 0x3CC, 1, 0x38C); (0x3CD, 0x3CE, 1, 0x38E);
    (0x3D0, 0x3D0, 1, 0x392); (0x3D1, 0x3D1, 1, 0x398); (0x3D5, 0x3D5, 1, 0x3A6);
    (0x3D6, 0x3D6, 1, 0x3A0); (0x3D7, 0x3D7, 1, 0x3CF); (0x3D9, 0x3EF, 2, 0x3D8);
    (0x3F0, 0x3F0, 1, 0x39A); (0x3F1, 0x3F1, 1, 0x3A1); (0x3F2, 0x3F2, 1, 0x3F9);
    (0x3F3, 0x3F3, 1, 0x37F); (0x3F5, 0x3F5, 1, 0x395); (0x3F8, 0x3F8, 1, 0x3F7);
    (0x3FB, 0x3FB, 1, 0x3FA); (0x430, 0x44F, 1, 0x410); (0x450, 0x45F, 1, 0x400);
    (0x461, 0x481, 2, 0x460); (0x48B, 0x4BF, 2, 0x48A); (0x4C2, 0x4CE, 2, 0x4C1);
    (0x4CF, 0x4CF, 1, 0x4C0); (0x4D1, 0x52F, 2, 0x4D0); (0x561, 0x586, 1, 0x531);
    (0x10D0, 0x10FA, 1, 0x1C90); (0x10FD, 0x10FF, 1, 0x1CBD); (0x13F8, 0x13FD, 1, 0x13F0);
    (0x1C80, 0x1C80, 1, 0x412); (0x1C81, 0x1C81, 1, 0x414); (0x1C82, 0x1C82, 1, 0x41E);
    (0x1C83, 0x1C84, 1, 0x421); (0x1C85, 0x1C85, 1, 0x422); (0x1C86, 0x1C86, 1, 0x42A);
    (0x1C87, 0x1C87, 1, 0x462); (0x1C88, 0x1C88, 1, 0xA64A); (0x1D79, 0x1D79, 1, 0xA77D);
    (0x1D7D, 0x1D7D, 1, 0x2C63); (0x1D8E, 0x1D8E, 1, 0xA7C6); (0x1E01, 0x1E95, 2, 0x1E00);
    (0x1E9B, 0x1E9B, 1, 0x1E60); (0x1EA1, 0x1EFF, 2, 0x1EA0); (0x1F00, 0x1F07, 1, 0x1F08);
    (0x1F10, 0x1F15, 1, 0x1F18); (0x1F20, 0x1F27, 1, 0x1F28); (0x1F30, 0x1F37, 1, 0x1F38);
    (0x1F40, 0x1F45, 1, 0x1F48); (0x1F51, 0x1F57, 2, 0x1F59); (0x1F60, 0x1F67, 1, 0x1F68);
    (0x1F70, 0x1F71, 1, 0x1FBA); (0x1F72, 0x1F75, 1, 0x1FC8); (0x1F76, 0x1F77, 1, 0x1FDA);
    (0x1F78, 0x1F79, 1, 0x1FF8); (0x1F7A, 0x1F7B, 1, 0x1FEA); (0x1F7C, 0x1F7D, 1, 0x1FFA);
    (0x1FB0, 0x1FB1, 1, 0x1FB8); (0x1FBE, 0x1FBE, 1, 0x399); (0x1FD0, 0x1FD1, 1, 0x1FD8);
    (0x1FE0, 0x1FE1, 1, 0x1FE8); (0x1FE5, 0x1FE5, 1, 0x1FEC); (0x214E, 0x214E, 1, 0x2132);
    (0x2170, 0x217F, 1, 0x2160); (0x2184, 0x2184, 1, 0x2183); (0x24D0, 0x24E9, 1, 0x24B6);
    (0x2C30, 0x2C5F, 1, 0x2C00); (0x2C61, 0x2C61, 1, 0x2C60); (0x2C65, 0x2C65, 1, 0x23A);
    (0x2C66, 0x2C66, 1, 0x23E); (0x2C68, 0x2C6C, 2, 0x2C67); (0x2C73, 0x2C73, 1, 0x2C72);
    (0x2C76, 0x2C76, 1, 0x2C75); (0x2C81, 0x2CE3, 2, 0x2C80); (0x2CEC, 0x2CEE, 2, 0x2CEB);
    (0x2CF3, 0x2CF3, 1, 0x2CF2); (0x2D00, 0x2D25, 1, 0x10A0); (0x2D27, 0x2D27, 1, 0x10C7);
    (0x2D2D, 0x2D2D, 1, 0x10CD); (0xA641, 0xA66D, 2, 0xA640); (0xA681, 0xA69B, 2, 0xA680);
    (0xA723, 0xA72F, 2, 0xA722); (0xA733, 0xA76F, 2, 0xA732); (0xA77A, 0xA77C, 2, 0xA779);
    (0xA77F, 0xA787, 2, 0xA77E); (0xA78C, 0xA78C, 1, 0xA78B); (0xA791, 0xA793, 2, 0xA790);
    (0xA794, 0xA794, 1, 0xA7C4); (0xA797, 0xA7A9, 2, 0xA796); (0xA7B5, 0xA7C3, 2, 0xA7B4);
    (0xA7C8, 0xA7CA, 2, 0xA7C7); (0xA7D1, 0xA7D1, 1, 0xA7D0); (0xA7D7, 0xA7D9, 2, 0xA7D6);
    (0xA7F6, 0xA7F6, 1, 0xA7F5); (0xAB53, 0xAB53, 1, 0xA7B3); (0xAB70, 0xABBF, 1, 0x13A0);
    (0xFF41, 0xFF5A, 1, 0xFF21); (0x10428, 0x1044F, 1, 0x10400); (0x104D8, 0x104FB, 1, 0x104B0);
    (0x10597, 0x105A1, 1, 0x10570); (0x105A3, 0x105B1, 1, 0x1057C); (0x105B3, 0x105B9, 1, 0x1058C);
    (0x105BB, 0x105BC, 1, 0x10594); (0x10CC0, 0x10CF2, 1, 0x10C80); (0x118C0, 0x118DF, 1, 0x118A0);
    (0x16E60, 0x16E7F, 1, 0x16E40); (0x1E922, 0x1E943, 1, 0x1E900) ]%N.

Definition upper_special : list (N * list N) :=
  [
    (0xDF, [0x53; 0x53]); (0x149, [0x2BC; 0x4E]);
    (0x1F0, [0x4A; 0x30C]); (0x390, [0x399; 0x308; 0x301]);
    (0x3B0, [0x3A5; 0x308; 0x301]); (0x587, [0x535; 0x552]);
    (0x1E96, [0x48; 0x331]); (0x1E97, [0x54; 0x308]);
    (0x1E98, [0x57; 0x30A]); (0x1E99, [0x59; 0x30A]);
    (0x1E9A, [0x41; 0x2BE]); (0x1F50, [0x3A5; 0x313]);
    (0x1F52, [0x3A5; 0x313; 0x300]); (0x1F54, [0x3A5; 0x313; 0x301]);
    (0x1F56, [0x3A5; 0x313; 0x342]); (0x1F80, [0x1F08; 0x399]);
    (0x1F81, [0x1F09; 0x399]); (0x1F82, [0x1F0A; 0x399]);
    (0x1F83, [0x1F0B; 0x399]); (0x1F84, [0x1F0C; 0x399]);
    (0x1F85, [0x1F0D; 0x399]); (0x1F86, [0x1F0E; 0x399]);
    (0x1F87, [0x1F0F; 0x399]); (0x1F88, [0x1F08; 0x399]);
    (0x1F89, [0x1F09; 0x399]); (0x1F8A, [0x1F0A; 0x399]);
    (0x1F8B, [0x1F0B; 0x399]); (0x1F8C, [0x1F0C; 0x399]);
    (0x1F8D, [0x1F0D; 0x399]); (0x1F8E, [0x1F0E; 0x399]);
    (0x1F8F, [0x1F0F; 0x399]); (0x1F90, [0x1F28; 0x399]);
    (0x1F91, [0x1F29; 0x399]); (0x1F92, [0x1F2A; 0x399]);
    (0x1F93, [0x1F2B; 0x399]); (0x1F94, [0x1F2C; 0x399]);
    (0x1F95, [0x1F2D; 0x399]); (0x1F96, [0x1F2E; 0x399]);
    (0x1F97, [0x1F2F; 0x399]); (0x1F98, [0x1F28; 0x399]);
    (0x1F99, [0x1F29; 0x399]); (0x1F9A, [0x1F2A; 0x399]);
    (0x1F9B, [0x1F2B; 0x399]); (0x1F9C, [0x1F2C; 0x399]);
    (0x1F9D, [0x1F2D; 0x399]); (0x1F9E, [0x1F2E; 0x399]);
    (0x1F9F, [0x1F2F; 0x399]); (0x1FA0, [0x1F68; 0x399]);
    (0x1FA1, [0x1F69; 0x399]); (0x1FA2, [0x1F6A; 0x399]);
    (0x1FA3, [0x1F6B; 0x399]); (0x1FA4, [0x1F6C; 0x399]);
    (0x1FA5, [0x1F6D; 0x399]); (0x1FA6, [0x1F6E; 0x399]);
    (0x1FA7, [0x1F6F; 0x399]); (0x1FA8, [0x1F68; 0x399]);
    (0x1FA9, [0x1F69; 0x399]); (0x1FAA, [0x1F6A; 0x399]);
    (0x1FAB, [0x1F6B; 0x399]); (0x1FAC, [0x1F6C; 0x399]);
    (0x1FAD, [0x1F6D; 0x399]); (0x1FAE, [0x1F6E; 0x399]);
    (0x1FAF, [0x1F6F; 0x399]); (0x1FB2, [0x1FBA; 0x399]);
    (0x1FB3, [0x391; 0x399]); (0x1FB4, [0x386; 0x399]);
    (0x1FB6, [0x391; 0x342]); (0x1FB7, [0x391; 0x342; 0x399]);
    (0x1FBC, [0x391; 0x399]); (0x1FC2, [0x1FCA; 0x399]);
    (0x1FC3, [0x397; 0x399]); (0x1FC4, [0x389; 0x399]);
    (0x1FC6, [0x397; 0x342]); (0x1FC7, [0x397; 0x342; 0x399]);
    (0x1FCC, [0x397; 0x399]); (0x1FD2, [0x399; 0x308; 0x300]);
    (0x1FD3, [0x399; 0x308; 0x301]); (0x1FD6, [0x399; 0x342]);
    (0x1FD7, [0x399; 0x308; 0x342]); (0x1FE2, [0x3A5; 0x308; 0x300]);
    (0x1FE3, [0x3A5; 0x308; 0x301]); (0x1FE4, [0x3A1; 0x313]);
    (0x1FE6, [0x3A5; 0x342]); (0x1FE7, [0x3A5; 0x308; 0x342]);
    (0x1FF2, [0x1FFA; 0x399]); (0x1FF3, [0x3A9; 0x399]);
    (0x1FF4, [0x38F; 0x399]); (0x1FF6, [0x3A9; 0x342]);
    (0x1FF7, [0x3A9; 0x342; 0x399]); (0x1FFC, [0x3A9; 0x399]);
    (0xFB00, [0x46; 0x46]); (0xFB01, [0x46; 0x49]);
    (0xFB02, [0x46; 0x4C]); (0xFB03, [0x46; 0x46; 0x49]);
    (0xFB04, [0x46; 0x46; 0x4C]); (0xFB05, [0x53; 0x54]);
    (0xFB06, [0x53; 0x54]); (0xFB13, [0x544; 0x546]);
    (0xFB14, [0x544; 0x535]); (0xFB15, [0x544; 0x53B]);
    (0xFB16, [0x54E; 0x546]); (0xFB17, [0x544; 0x53D]) ]%N.

Definition space_ranges : list (N * N) :=
  [
    (0x9, 0xD); (0x1C, 0x20); (0x85, 0x85); (0xA0, 0xA0); (0x1680, 0x1680);
    (0x2000, 0x200A); (0x2028, 0x2029); (0x202F, 0x202F); (0x205F, 0x205F); (0x3000, 0x3000) ]%N.

Definition cased_ranges : list (N * N) :=
  [
    (0x41, 0x5A); (0x61, 0x7A); (0xAA, 0xAA); (0xB5, 0xB5); (0xBA, 0xBA);
    (0xC0, 0xD6); (0xD8, 0xF6); (0xF8, 0x1BA); (0x1BC, 0x1BF); (0x1C4, 0x293);
    (0x295, 0x2AF); (0x370, 0x373); (0x376, 0x377); (0x37B, 0x37D); (0x37F, 0x37F);
    (0x386, 0x386); (0x388, 0x38A); (0x38C, 0x38C); (0x38E, 0x3A1); (0x3A3, 0x3F5);
    (0x3F7, 0x481); (0x48A, 0x52F); (0x531, 0x556); (0x560, 0x588); (0x10A0, 0x10C5);
    (0x10C7, 0x10C7); (0x10CD, 0x10CD); (0x10D0, 0x10FA); (0x10FD, 0x10FF); (0x13A0, 0x13F5);
    (0x13F8, 0x13FD); (0x1C80, 0x1C88); (0x1C90, 0x1CBA); (0x1CBD, 0x1CBF); (0x1D00, 0x1D2B);
    (0x1D6B, 0x1D77); (0x1D79, 0x1D9A); (0x1E00, 0x1F15); (0x1F18, 0x1F1D); (0x1F20, 0x1F45);
    (0x1F48, 0x1F4D); (0x1F50, 0x1F57); (0x1F59, 0x1F59); (0x1F5B, 0x1F5B); (0x1F5D, 0x1F5D);
    (0x1F5F, 0x1F7D); (0x1F80, 0x1FB4); (0x1FB6, 0x1FBC); (0x1FBE, 0x1FBE); (0x1FC2, 0x1FC4);
    (0x1FC6, 0x1FCC); (0x1FD0, 0x1FD3); (0x1FD6, 0x1FDB); (0x1FE0, 0x1FEC); (0x1FF2, 0x1FF4);
    (0x1FF6, 0x1FFC); (0x2102, 0x2102); (0x2107, 0x2107); (0x210A, 0x2113); (0x2115, 0x2115);
    (0x2119, 0x211D); (0x2124, 0x2124); (0x2126, 0x2126); (0x2128, 0x2128); (0x212A, 0x212D);
    (0x212F, 0x2134); (0x2139, 0x2139); (0x213C, 0x213F); (0x2145, 0x2149); (0x214E, 0x214E);
    (0x2160, 0x217F); (0x2183, 0x2184); (0x24B6, 0x24E9); (0x2C00, 0x2C7B); (0x2C7E, 0x2CE4);
    (0x2CEB, 0x2CEE); (0x2CF2, 0x2CF3); (0x2D00, 0x2D25); (0x2D27, 0x2D27); (0x2D2D, 0x2D2D);
    (0xA640, 0xA66D); (0xA680, 0xA69B); (0xA722, 0xA76F); (0xA771, 0xA787); (0xA78B, 0xA78E);
    (0xA790, 0xA7CA); (0xA7D0, 0xA7D1); (0xA7D3, 0xA7D3); (0xA7D5, 0xA7D9); (0xA7F5, 0xA7F6);
    (0xA7FA, 0xA7FA); (0xAB30, 0xAB5A); (0xAB60, 0xAB68); (0xAB70, 0xABBF); (0xFB00, 0xFB06);
    (0xFB13, 0xFB17); (0xFF21, 0xFF3A); (0xFF41, 0xFF5A); (0x10400, 0x1044F); (0x104B0, 0x104D3);
    (0x104D8, 0x104FB); (0x10570, 0x1057A); (0x1057C, 0x1058A); (0x1058C, 0x10592); (0x10594, 0x10595);
    (0x10597, 0x105A1); (0x105A3, 0x105B1); (0x105B3, 0x105B9); (0x105BB, 0x105BC); (0x10C80, 0x10CB2);
    (0x10CC0, 0x10CF2); (0x118A0, 0x118DF); (0x16E40, 0x16E7F); (0x1D400, 0x1D454); (0x1D456, 0x1D49C);
    (0x1D49E, 0x1D49F); (0x1D4A2, 0x1D4A2); (0x1D4A5, 0x1D4A6); (0x1D4A9, 0x1D4AC); (0x1D4AE, 0x1D4B9);
    (0x1D4BB, 0x1D4BB); (0x1D4BD, 0x1D4C3); (0x1D4C5, 0x1D505); (0x1D507, 0x1D50A); (0x1D50D, 0x1D514);
    (0x1D516, 0x1D51C); (0x1D51E, 0x1D539); (0x1D53B, 0x1D53E); (0x1D540, 0x1D544); (0x1D546, 0x1D546);
    (0x1D54A, 0x1D550); (0x1D552, 0x1D6A5); (0x1D6A8, 0x1D6C0); (0x1D6C2, 0x1D6DA); (0x1D6DC, 0x1D6FA);
    (0x1D6FC, 0x1D714); (0x1D716, 0x1D734); (0x1D736, 0x1D74E); (0x1D750, 0x1D76E); (0x1D770, 0x1D788);
    (0x1D78A, 0x1D7A8); (0x1D7AA, 0x1D7C2); (0x1D7C4, 0x1D7CB); (0x1DF00, 0x1DF09); (0x1DF0B, 0x1DF1E);
    (0x1E900, 0x1E943); (0x1F130, 0x1F149); (0x1F150, 0x1F169); (0x1F170, 0x1F189) ]%N.

Definition case_ignorable_ranges : list (N * N) :=
  [
    (0x27, 0x27); (0x2E, 0x2E); (0x3A, 0x3A); (0x5E, 0x5E); (0x60, 0x60);
    (0xA8, 0xA8); (0xAD, 0xAD); (0xAF, 0xAF); (0xB4, 0xB4); (0xB7, 0xB8);
    (0x2B0, 0x36F); (0x374, 0x375); (0x37A, 0x37A); (0x384, 0x385); (0x387, 0x387);
    (0x483, 0x489); (0x559, 0x559); (0x55F, 0x55F); (0x591, 0x5BD); (0x5BF, 0x5BF);
    (0x5C1, 0x5C2); (0x5C4, 0x5C5); (0x5C7, 0x5C7); (0x5F4, 0x5F4); (0x600, 0x605);
    (0x610, 0x61A); (0x61C, 0x61C); (0x640, 0x640); (0x64B, 0x65F); (0x670, 0x670);
    (0x6D6, 0x6DD); (0x6DF, 0x6E8); (0x6EA, 0x6ED); (0x70F, 0x70F); (0x711, 0x711);
    (0x730, 0x74A); (0x7A6, 0x7B0); (0x7EB, 0x7F5); (0x7FA, 0x7FA); (0x7FD, 0x7FD);
    (0x816, 0x82D); (0x859, 0x85B); (0x888, 0x888); (0x890, 0x891); (0x898, 0x89F);
    (0x8C9, 0x902); (0x93A, 0x93A); (0x93C, 0x93C); (0x941, 0x948); (0x94D, 0x94D);
    (0x951, 0x957); (0x962, 0x963); (0x971, 0x971); (0x981, 0x981); (0x9BC, 0x9BC);
    (0x9C1, 0x9C4); (0x9CD, 0x9CD); (0x9E2, 0x9E3); (0x9FE, 0x9FE); (0xA01, 0xA02);
    (0xA3C, 0xA3C); (0xA41, 0xA42); (0xA47, 0xA48); (0xA4B, 0xA4D); (0xA51, 0xA51);
    (0xA70, 0xA71); (0xA75, 0xA75); (0xA81, 0xA82); (0xABC, 0xABC); (0xAC1, 0xAC5);
    (0xAC7, 0xAC8); (0xACD, 0xACD); (0xAE2, 0xAE3); (0xAFA, 0xAFF); (0xB01, 0xB01);
    (0xB3C, 0xB3C); (0xB3F, 0xB3F); (0xB41, 0xB44); (0xB4D, 0xB4D); (0xB55, 0xB56);
    (0xB62, 0xB63); (0xB82, 0xB82); (0xBC0, 0xBC0); (0xBCD, 0xBCD); (0xC00, 0xC00);
    (0xC04, 0xC04); (0xC3C, 0xC3C); (0xC3E, 0xC40); (0xC46, 0xC48); (0xC4A, 0xC4D);
    (0xC55, 0xC56); (0xC62, 0xC63); (0xC81, 0xC81); (0xCBC, 0xCBC); (0xCBF, 0xCBF);
    (0xCC6, 0xCC6); (0xCCC, 0xCCD); (0xCE2, 0xCE3); (0xD00, 0xD01); (0xD3B, 0xD3C);
    (0xD41, 0xD44); (0xD4D, 0xD4D); (0xD62, 0xD63); (0xD81, 0xD81); (0xDCA, 0xDCA);
    (0xDD2, 0xDD4); (0xDD6, 0xDD6); (0xE31, 0xE31); (0xE34, 0xE3A); (0xE46, 0xE4E);
    (0xEB1, 0xEB1); (0xEB4, 0xEBC); (0xEC6, 0xEC6); (0xEC8, 0xECD); (0xF18, 0xF19);
    (0xF35, 0xF35); (0xF37, 0xF37); (0xF39, 0xF39); (0xF71, 0xF7E); (0xF80, 0xF84);
    (0xF86, 0xF87); (0xF8D, 0xF97); (0xF99, 0xFBC); (0xFC6, 0xFC6); (0x102D, 0x1030);
    (0x1032, 0x1037); (0x1039, 0x103A); (0x103D, 0x103E); (0x1058, 0x1059); (0x105E, 0x1060);
    (0x1071, 0x1074); (0x1082, 0x1082); (0x1085, 0x1086); (0x108D, 0x108D); (0x109D, 0x109D);
    (0x10FC, 0x10FC); (0x135D, 0x135F); (0x1712, 0x1714); (0x1732, 0x1733); (0x1752, 0x1753);
    (0x1772, 0x1773); (0x17B4, 0x17B5); (0x17B7, 0x17BD); (0x17C6, 0x17C6); (0x17C9, 0x17D3);
    (0x17D7, 0x17D7); (0x17DD, 0x17DD); (0x180B, 0x180F); (0x1843, 0x1843); (0x1885, 0x1886);
    (0x18A9, 0x18A9); (0x1920, 0x1922); (0x1927, 0x1928); (0x1932, 0x1932); (0x1939, 0x193B);
    (0x1A17, 0x1A18); (0x1A1B, 0x1A1B); (0x1A56, 0x1A56); (0x1A58, 0x1A5E); (0x1A60, 0x1A60);
    (0x1A62, 0x1A62); (0x1A65, 0x1A6C); (0x1A73, 0x1A7C); (0x1A7F, 0x1A7F); (0x1AA7, 0x1AA7);
    (0x1AB0, 0x1ACE); (0x1B00, 0x1B03); (0x1B34, 0x1B34); (0x1B36, 0x1B3A); (0x1B3C, 0x1B3C);
    (0x1B42, 0x1B42); (0x1B6B, 0x1B73); (0x1B80, 0x1B81); (0x1BA2, 0x1BA5); (0x1BA8, 0x1BA9);
    (0x1BAB, 0x1BAD); (0x1BE6, 0x1BE6); (0x1BE8, 0x1BE9); (0x1BED, 0x1BED); (0x1BEF, 0x1BF1);
    (0x1C2C, 0x1C33); (0x1C36, 0x1C37); (0x1C78, 0x1C7D); (0x1CD0, 0x1CD2); (0x1CD4, 0x1CE0);
    (0x1CE2, 0x1CE8); (0x1CED, 0x1CED); (0x1CF4, 0x1CF4); (0x1CF8, 0x1CF9); (0x1D2C, 0x1D6A);
    (0x1D78, 0x1D78); (0x1D9B, 0x1DFF); (0x1FBD, 0x1FBD); (0x1FBF, 0x1FC1); (0x1FCD, 0x1FCF);
    (0x1FDD, 0x1FDF); (0x1FED, 0x1FEF); (0x1FFD, 0x1FFE); (0x200B, 0x200F); (0x2018, 0x2019);
    (0x2024, 0x2024); (0x2027, 0x2027); (0x202A, 0x202E); (0x2060, 0x2064); (0x2066, 0x206F);
    (0x2071, 0x2071); (0x207F, 0x207F); (0x2090, 0x209C); (0x20D0, 0x20F0); (0x2C7C, 0x2C7D);
    (0x2CEF, 0x2CF1); (0x2D6F, 0x2D6F); (0x2D7F, 0x2D7F); (0x2DE0, 0x2DFF); (0x2E2F, 0x2E2F);
    (0x3005, 0x3005); (0x302A, 0x302D); (0x3031, 0x3035); (0x303B, 0x303B); (0x3099, 0x309E);
    (0x30FC, 0x30FE); (0xA015, 0xA015); (0xA4F8, 0xA4FD); (0xA60C, 0xA60C); (0xA66F, 0xA672);
    (0xA674, 0xA67D); (0xA67F, 0xA67F); (0xA69C, 0xA69F); (0xA6F0, 0xA6F1); (0xA700, 0xA721);
    (0xA770, 0xA770); (0xA788, 0xA78A); (0xA7F2, 0xA7F4); (0xA7F8, 0xA7F9); (0xA802, 0xA802);
    (0xA806, 0xA806); (0xA80B, 0xA80B); (0xA825, 0xA826); (0xA82C, 0xA82C); (0xA8C4, 0xA8C5);
    (0xA8E0, 0xA8F1); (0xA8FF, 0xA8FF); (0xA926, 0xA92D); (0xA947, 0xA951); (0xA980, 0xA982);
    (0xA9B3, 0xA9B3); (0xA9B6, 0xA9B9); (0xA9BC, 0xA9BD); (0xA9CF, 0xA9CF); (0xA9E5, 0xA9E6);
    (0xAA29, 0xAA2E); (0xAA31, 0xAA32); (0xAA35, 0xAA36); (0xAA43, 0xAA43); (0xAA4C, 0xAA4C);
    (0xAA70, 0xAA70); (0xAA7C, 0xAA7C); (0xAAB0, 0xAAB0); (0xAAB2, 0xAAB4); (0xAAB7, 0xAAB8);
    (0xAABE, 0xAABF); (0xAAC1, 0xAAC1); (0xAADD, 0xAADD); (0xAAEC, 0xAAED); (0xAAF3, 0xAAF4);
    (0xAAF6, 0xAAF6); (0xAB5B, 0xAB5F); (0xAB69, 0xAB6B); (0xABE5, 0xABE5); (0xABE8, 0xABE8);
    (0xABED, 0xABED); (0xFB1E, 0xFB1E); (0xFBB2, 0xFBC2); (0xFE00, 0xFE0F); (0xFE13, 0xFE13);
    (0xFE20, 0xFE2F); (0xFE52, 0xFE52); (0xFE55, 0xFE55); (0xFEFF, 0xFEFF); (0xFF07, 0xFF07);
    (0xFF0E, 0xFF0E); (0xFF1A, 0xFF1A); (0xFF3E, 0xFF3E); (0xFF40, 0xFF40); (0xFF70, 0xFF70);
    (0xFF9E, 0xFF9F); (0xFFE3, 0xFFE3); (0xFFF9, 0xFFFB); (0x101FD, 0x101FD); (0x102E0, 0x102E0);
    (0x10376, 0x1037A); (0x10780, 0x10785); (0x10787, 0x107B0); (0x107B2, 0x107BA); (0x10A01, 0x10A03);
    (0x10A05, 0x10A06); (0x10A0C, 0x10A0F); (0x10A38, 0x10A3A); (0x10A3F, 0x10A3F); (0x10AE5, 0x10AE6);
    (0x10D24, 0x10D27); (0x10EAB, 0x10EAC); (0x10F46, 0x10F50); (0x10F82, 0x10F85); (0x11001, 0x11001);
    (0x11038, 0x11046); (0x11070, 0x11070); (0x11073, 0x11074); (0x1107F, 0x11081); (0x110B3, 0x110B6);
    (0x110B9, 0x110BA); (0x110BD, 0x110BD); (0x110C2, 0x110C2); (0x110CD, 0x110CD); (0x11100, 0x11102);
    (0x11127, 0x1112B); (0x1112D, 0x11134); (0x11173, 0x11173); (0x11180, 0x11181); (0x111B6, 0x111BE);
    (0x111C9, 0x111CC); (0x111CF, 0x111CF); (0x1122F, 0x11231); (0x11234, 0x11234); (0x11236, 0x11237);
    (0x1123E, 0x1123E); (0x112DF, 0x112DF); (0x112E3, 0x112EA); (0x11300, 0x11301); (0x1133B, 0x1133C);
    (0x11340, 0x11340); (0x11366, 0x1136C); (0x11370, 0x11374); (0x11438, 0x1143F); (0x11442, 0x11444);
    (0x11446, 0x11446); (0x1145E, 0x1145E); (0x114B3, 0x114B8); (0x114BA, 0x114BA); (0x114BF, 0x114C0);
    (0x114C2, 0x114C3); (0x115B2, 0x115B5); (0x115BC, 0x115BD); (0x115BF, 0x115C0); (0x115DC, 0x115DD);
    (0x11633, 0x1163A); (0x1163D, 0x1163D); (0x1163F, 0x11640); (0x116AB, 0x116AB); (0x116AD, 0x116AD);
    (0x116B0, 0x116B5); (0x116B7, 0x116B7); (0x1171D, 0x1171F); (0x11722, 0x11725); (0x11727, 0x1172B);
    (0x1182F, 0x11837); (0x11839, 0x1183A); (0x1193B, 0x1193C); (0x1193E, 0x1193E); (0x11943, 0x11943);
    (0x119D4, 0x119D7); (0x119DA, 0x119DB); (0x119E0, 0x119E0); (0x11A01, 0x11A0A); (0x11A33, 0x11A38);
    (0x11A3B, 0x11A3E); (0x11A47, 0x11A47); (0x11A51, 0x11A56); (0x11A59, 0x11A5B); (0x11A8A, 0x11A96);
    (0x11A98, 0x11A99); (0x11C30, 0x11C36); (0x11C38, 0x11C3D); (0x11C3F, 0x11C3F); (0x11C92, 0x11CA7);
    (0x11CAA, 0x11CB0); (0x11CB2, 0x11CB3); (0x11CB5, 0x11CB6); (0x11D31, 0x11D36); (0x11D3A, 0x11D3A);
    (0x11D3C, 0x11D3D); (0x11D3F, 0x11D45); (0x11D47, 0x11D47); (0x11D90, 0x11D91); (0x11D95, 0x11D95);
    (0x11D97, 0x11D97); (0x11EF3, 0x11EF4); (0x13430, 0x13438); (0x16AF0, 0x16AF4); (0x16B30, 0x16B36);
    (0x16B40, 0x16B43); (0x16F4F, 0x16F4F); (0x16F8F, 0x16F9F); (0x16FE0, 0x16FE1); (0x16FE3, 0x16FE4);
    (0x1AFF0, 0x1AFF3); (0x1AFF5, 0x1AFFB); (0x1AFFD, 0x1AFFE); (0x1BC9D, 0x1BC9E); (0x1BCA0, 0x1BCA3);
    (0x1CF00, 0x1CF2D); (0x1CF30, 0x1CF46); (0x1D167, 0x1D169); (0x1D173, 0x1D182); (0x1D185, 0x1D18B);
    (0x1D1AA, 0x1D1AD); (0x1D242, 0x1D244); (0x1DA00, 0x1DA36); (0x1DA3B, 0x1DA6C); (0x1DA75, 0x1DA75);
    (0x1DA84, 0x1DA84); (0x1DA9B, 0x1DA9F); (0x1DAA1, 0x1DAAF); (0x1E000, 0x1E006); (0x1E008, 0x1E018);
    (0x1E01B, 0x1E021); (0x1E023, 0x1E024); (0x1E026, 0x1E02A); (0x1E130, 0x1E13D); (0x1E2AE, 0x1E2AE);
    (0x1E2EC, 0x1E2EF); (0x1E8D0, 0x1E8D6); (0x1E944, 0x1E94B); (0x1F3FB, 0x1F3FF); (0xE0001, 0xE0001);
    (0xE0020, 0xE007F); (0xE0100, 0xE01EF) ]%N.

Definition capital_sigma : N := 0x3A3%N.
Definition small_sigma : N := 0x3C3%N.
Definition final_sigma : N := 0x3C2%N.

Definition in_run (n : N) (run : N * N * N * N) : bool :=
  let '(first, last, stride, _) := run in
  ((first <=? n) && (n <=? last) && ((n - first) mod stride =? 0))%N.

(** The mapping of one code point, [None] when it maps to itself. *)
Definition map_point (runs : list (N * N * N * N))
    (special : list (N * list N)) (n : N) : option (list N) :=
  match List.find (fun entry => N.eqb (fst entry) n) special with
  | Some entry => Some (snd entry)
  | None =>
      match List.find (in_run n) runs with
      | Some (first, _, _, target) => Some [(target + (n - first))%N]
      | None => None
      end
  end.

Definition in_ranges (n : N) (ranges : list (N * N)) : bool :=
  existsb (fun range => (fst range <=? n) && (n <=? snd range))%N ranges.

End UnicodeData.

(** ** Python string operations used by the handlers.  A [str] is held as
    its UTF-8 bytes; paths are POSIX paths. *)

Module PyStr.
Import UnicodeData.

(** The case of one ASCII letter. *)
Definition lower_char (c : ascii) : ascii :=
  if Ascii.leb "A" c && Ascii.leb c "Z"
  then ascii_of_N (N_of_ascii c + 32) else c.

Definition upper_char (c : ascii) : ascii :=
  if Ascii.leb "a" c && Ascii.leb c "z"
  then ascii_of_N (N_of_ascii c - 32) else c.

(** *** Characters of a UTF-8 string *)

Definition is_ascii (b : ascii) : bool := (N_of_ascii b <? 128)%N.

Definition is_continuation (b : ascii) : bool :=
  ((128 <=? N_of_ascii b) && (N_of_ascii b <? 192))%N.

Definition starts_with_continuation (s : string) : bool :=
  match s with
  | String b _ => is_continuation b
  | EmptyString => false
  end.

(** The characters of a string: each byte with the continuation bytes that
    follow it. *)
Fixpoint chars (s : string) : list string :=
  match s with
  | EmptyString => []
  | String b rest =>
      match chars rest with
      | ch :: more =>
          if starts_with_continuation ch then String b ch :: more
          else String b EmptyString :: ch :: more
      | [] => [String b EmptyString]
      end
  end.

(** [''.join(parts)] *)
Fixpoint join (parts : list string) : string :=
  match parts with
  | [] => EmptyString
  | part :: rest => part +:+ join rest
  end.

Definition continuation_bits (b : ascii) : option N :=
  if is_continuation b then Some (N_of_ascii b - 128)%N else None.

(** The code point of one character; [None] when the bytes are not the
    UTF-8 form of one. *)
Definition code_point (ch : string) : option N :=
  match ch with
  | String b0 EmptyString =>
      if is_ascii b0 then Some (N_of_ascii b0) else None
  | String b0 (String b1 EmptyString) =>
      let n0 := N_of_ascii b0 in
      match continuation_bits b1 with
      | Some n1 =>
          if ((192 <=? n0) && (n0 <? 224))%N
          then Some ((n0 - 192) * 64 + n1)%N else None
      | None => None
      end
  | String b0 (String b1 (String b2 EmptyString)) =>
      let n0 := N_of_ascii b0 in
      match continuation_bits b1, continuation_bits b2 with
      | Some n1, Some n2 =>
          if ((224 <=? n0) && (n0 <? 240))%N
          then Some ((n0 - 224) * 4096 + n1 * 64 + n2)%N else None
      | _, _ => None
      end
  | String b0 (String b1 (String b2 (String b3 EmptyString))) =>
      let n0 := N_of_ascii b0 in
      match continuation_bits b1, continuation_bits b2, continuation_bits b3 with
      | Some n1, Some n2, Some n3 =>
          if ((240 <=? n0) && (n0 <? 248))%N
          then Some ((n0 - 240) * 262144 + n1 * 4096 + n2 * 64 + n3)%N
          else None
      | _, _, _ => None
      end
  | _ => None
  end.

Definition byte (n : N) : ascii := ascii_of_N n.

(** The UTF-8 form of a code point. *)
Definition encode (n : N) : string :=
  if (n <? 128)%N then String (byte n) EmptyString
  else if (n <? 2048)%N then
    String (byte (192 + n / 64)) (String (byte (128 + n mod 64)) EmptyString)
  else if (n <? 65536)%N then
    String (byte (224 + n / 4096))
      (String (byte (128 + (n / 64) mod 64))
         (String (byte (128 + n mod 64)) EmptyString))
  else
    String (byte (240 + n / 262144))
      (String (byte (128 + (n / 4096) mod 64))
         (String (byte (128 + (n / 64) mod 64))
            (String (byte (128 + n mod 64)) EmptyString))).

Definition encode_all (points : list N) : string := join (map encode points).

(** Bytes that are no character: kept, ASCII letters among them folded. *)
Fixpoint fold_ascii (f : ascii -> ascii) (s : string) : string :=
  match s with
  | EmptyString => EmptyString
  | String c s' => String (f c) (fold_ascii f s')
  end.

(** *** Case *)

Definition has_property (ranges : list (N * N)) (ch : string) : bool :=
  match code_point ch with
  | Some n => in_ranges n ranges
  | None => false
  end.

Definition cased : string -> bool := has_property cased_ranges.
Definition case_ignorable : string -> bool := has_property case_ignorable_ranges.

(** [ch.isspace()] for one character. *)
Definition isspace : string -> bool := has_property space_ranges.

Definition lower_chunk (ch : string) : string :=
  match code_point ch with
  | Some n =>
      match map_point lower_runs lower_special n with
      | Some points => encode_all points
      | None => ch
      end
  | None => fold_ascii lower_char ch
  end.

Definition upper_chunk (ch : string) : string :=
  match code_point ch with
  | Some n =>
      match map_point upper_runs upper_special n with
      | Some points => encode_all points
      | None => ch
      end
  | None => fold_ascii upper_char ch
  end.

(** Skipping case-ignorable characters, the next one is cased. *)
Fixpoint followed_by_cased (l : list string) : bool :=
  match l with
  | [] => false
  | ch :: rest =>
      if case_ignorable ch then followed_by_cased rest else cased ch
  end.

(** Lowercasing character by character; [after_cased] tells whether,
    skipping case-ignorable characters backwards, the previous one is
    cased.  A capital sigma becomes the final sigma when it ends a word. *)
Fixpoint lower_chunks (after_cased : bool) (l : list string) : list string :=
  match l with
  | [] => []
  | ch :: rest =>
      (if String.eqb ch (encode capital_sigma) then
         if after_cased && negb (followed_by_cased rest)
         then encode final_sigma else encode small_sigma
       else lower_chunk ch)
      :: lower_chunks (if case_ignorable ch then after_cased else cased ch) rest
  end.

(** [s.lower()] *)
Definition lower (s : string) : string := join (lower_chunks false (chars s)).

(** [s.upper()] *)
Definition upper (s : string) : string := join (map upper_chunk (chars s)).

(** *** White space *)

Fixpoint ltrim (l : list string) : list string :=
  match l with
  | [] => []
  | ch :: rest => if isspace ch then ltrim rest else l
  end.

Definition rtrim (l : list string) : list string := rev (ltrim (rev l)).

Definition lstrip (s : string) : string := join (ltrim (chars s)).
Definition rstrip (s : string) : string := join (rtrim (chars s)).

(** [s.strip()] *)
Definition strip (s : string) : string := join (rtrim (ltrim (chars s))).

(** [needle in hay] *)
Fixpoint contains (needle hay : string) : bool :=
  String.prefix needle hay ||
  match hay with
  | EmptyString => false
  | String _ hay' => contains needle hay'
  end.

(** [c in s] for one character. *)
Fixpoint has_char (c : ascii) (s : string) : bool :=
  match s with
  | EmptyString => false
  | String d s' => Ascii.eqb c d || has_char c s'
  end.

(** [s.split(sep)[0]]: the text before the first [sep]. *)
Fixpoint split_first (sep : ascii) (s : string) : string :=
  match s with
  | EmptyString => EmptyString
  | String c s' => if Ascii.eqb c sep then EmptyString
                   else String c (split_first sep s')
  end.

(** [posixpath.basename(p)]: [p[p.rfind('/') + 1:]]. *)
Fixpoint basename (p : string) : string :=
  match p with
  | EmptyString => EmptyString
  | String c p' =>
      if has_char "/" p' then basename p'
      else if Ascii.eqb c "/" then p' else p
  end.

(** [s.endswith('/')] *)
Fixpoint ends_with_slash (s : string) : bool :=
  match s with
  | EmptyString => false
  | String c EmptyString => Ascii.eqb c "/"
  | String _ s' => ends_with_slash s'
  end.

(** [posixpath.join(a, b)] *)
Definition path_join (a b : string) : string :=
  match b with
  | String "/" _ => b
  | _ => match a with
         | EmptyString => b
         | _ => if ends_with_slash a then a +:+ b else a +:+ "/" +:+ b
         end
  end.

(** Truthiness of a string: [if s:]. *)
Definition truthy (s : string) : bool :=
  match s with EmptyString => false | _ => true end.

End PyStr.

(** ** Speed to rate string: [calculate_rate_parameter] (app4.py 136-141) *)

Module Rate.

(** [str(n)] for a Python int. *)
Definition str_int (n : Z) : string := NilZero.string_of_int (Z.to_int n).

(** [round(x)] without [ndigits] on a finite binary64 of sign [neg],
    mantissa [m] and exponent [e] (value [m * 2^e]): the nearest integer,
    a tie going to the even one. *)
Definition round_half_even (neg : bool) (m : positive) (e : Z) : Z :=
  let mag :=
    if 0 <=? e then Z.pos m * 2 ^ e
    else
      let d := 2 ^ (- e) in
      let q := Z.pos m / d in
      let r := Z.pos m mod d in
      match 2 * r ?= d with
      | Lt => q
      | Gt => q + 1
      | Eq => if Z.even q then q else q + 1
      end in
  if neg then - mag else mag.

(** [float.__round__]: NaN raises ValueError, an infinity OverflowError. *)
Definition py_round (x : float) : py Z :=
  match Prim2SF x with
  | S754_zero _ => Returns 0
  | S754_finite s m e => Returns (round_half_even s m e)
  | S754_infinity _ => Raises "cannot convert float infinity to integer"
  | S754_nan => Raises "cannot convert float NaN to integer"
  end.

(** [(speed - 1.0) * 100] in binary64. *)
Definition deviation (speed : float) : float :=
  PrimFloat.mul (PrimFloat.sub speed 1%float) 100%float.

(** [f"+{percent}%" if percent > 0 else f"{percent}%"] *)
Definition signed_percent (percent : Z) : string :=
  if 0 <? percent then "+" +:+ str_int percent +:+ "%"
  else str_int percent +:+ "%".

Definition calculate_rate_parameter (speed : float) : py string :=
  if PrimFloat.eqb speed 1%float then Returns "+0%"
  else
    let* percent := py_round (deviation speed) in
    Returns (signed_percent percent).

(** [n] is an integer nearest to the binary64 value [x]: with [x = num/den],
    [|n - num/den| <= 1/2], written without division. *)
Definition sf_num (neg : bool) (m : positive) (e : Z) : Z :=
  (if neg then -1 else 1) * (Z.pos m * 2 ^ Z.max 0 e).
Definition sf_den (e : Z) : Z := 2 ^ Z.max 0 (- e).

Definition nearest_integer (n : Z) (x : spec_float) : Prop :=
  match x with
  | S754_zero _ => n = 0
  | S754_finite s m e => 2 * Z.abs (n * sf_den e - sf_num s m e) <= sf_den e
  | _ => False
  end.

(** The binary64 arguments of the specification's table. *)
Definition speed_1_25 : float := 0x1.4p+0%float.
Definition speed_0_9 : float := 0x1.ccccccccccccdp-1%float.
Definition speed_1_2 : float := 0x1.3333333333333p+0%float.
Definition speed_0_8 : float := 0x1.999999999999ap-1%float.

End Rate.

(** ** Python dicts with string keys: insertion-ordered, keys unique.
    Assigning to a key that is present replaces the value in place;
    a new key goes to the end. *)

Module PyDict.
Section Dict.
Context {V : Type}.

Definition dict := list (string * V).

(** [d.get(k)] *)
Fixpoint dget (d : dict) (k : string) : option V :=
  match d with
  | [] => None
  | (k', v) :: d' => if String.eqb k k' then Some v else dget d' k
  end.

(** [d[k] = v] *)
Fixpoint dset (d : dict) (k : string) (v : V) : dict :=
  match d with
  | [] => [(k, v)]
  | (k', v') :: d' =>
      if String.eqb k k' then (k', v) :: d' else (k', v') :: dset d' k v
  end.

Definition dkeys (d : dict) : list string := map fst d.
Definition dvalues (d : dict) : list V := map snd d.

(** [{k: v for (k, v) in pairs}] *)
Definition of_pairs (pairs : list (string * V)) : dict :=
  fold_left (fun d kv => dset d (fst kv) (snd kv)) pairs [].

End Dict.
Arguments dict V : clear implicits.
End PyDict.

(** ** The voice directory (app4.py 27-29, 51-134, 160-172, 1668-1699) *)

Module Catalog.
Import PyStr PyDict.

(** One entry of [edge_tts.list_voices()]: the keys the loader reads;
    [None] is an absent key. *)
Record provider_voice := {
  Locale : option string;
  ShortName : option string;
  FriendlyName : option string;
  Gender : option string
}.

(** A voice descriptor, the dict built by the loader. *)
Record voice := {
  display_name : string;
  short_name : string;
  info : provider_voice;
  language : string;
  locale : string;
  gender : string
}.

#[global] Instance provider_voice_eq_dec : EqDecision provider_voice.
Proof. solve_decision. Defined.
#[global] Instance voice_eq_dec : EqDecision voice.
Proof. solve_decision. Defined.

(** The two module-level tables of the voice directory. *)
Record catalog := {
  VOICE_DATA : dict voice;
  LANGUAGE_VOICES : dict (list voice)
}.

Definition get_fallback_voices : dict (list voice) :=
  [("English",
    [ {| display_name := "English Female - Jenny";
         short_name := "en-US-JennyNeural";
         info := {| Locale := Some "en-US"; ShortName := None;
                    FriendlyName := None; Gender := Some "Female" |};
         language := "English"; locale := "en-US"; gender := "Female" |};
      {| display_name := "English Male - Guy";
         short_name := "en-US-GuyNeural";
         info := {| Locale := Some "en-US"; ShortName := None;
                    FriendlyName := None; Gender := Some "Male" |};
         language := "English"; locale := "en-US"; gender := "Male" |} ])].

(** [{v['display_name']: v for v in voices}] *)
Definition by_display_name (voices : list voice) : dict voice :=
  of_pairs (map (fun v => (display_name v, v)) voices).

Definition fallback_catalog : catalog :=
  let fallback := get_fallback_voices in
  {| LANGUAGE_VOICES := fallback;
     VOICE_DATA := by_display_name (concat (dvalues fallback)) |}.

Definition lang_names : dict string :=
  [("en", "English"); ("es", "Spanish"); ("fr", "French"); ("de", "German")].

(** The body of the loader's loop for one provider entry: [None] is the
    [continue] taken when the short name is empty. *)
Definition voice_of_provider (v : provider_voice) : option voice :=
  let locale := strip (default "" (Locale v)) in
  let short_name := default "" (ShortName v) in
  let friendly := default short_name (FriendlyName v) in
  let gender := default "Unknown" (Gender v) in
  if negb (truthy short_name) then None
  else
    let lang_code := if truthy locale then split_first "-" locale else "en" in
    let language_name :=
      default (upper lang_code +:+ " Language") (dget lang_names lang_code) in
    Some {| display_name := friendly +:+ " - " +:+ gender;
            short_name := short_name;
            info := v;
            language := language_name;
            locale := locale;
            gender := gender |}.

(** One iteration: [language_groups] and [all_voices] after the entry. *)
Definition load_step (acc : dict (list voice) * list voice)
    (v : provider_voice) : dict (list voice) * list voice :=
  match voice_of_provider v with
  | None => acc
  | Some voice_data =>
      let language_groups := fst acc in
      let language_name := language voice_data in
      let language_groups :=
        match dget language_groups language_name with
        | None => dset language_groups language_name []
        | Some _ => language_groups
        end in
      (dset language_groups language_name
         (default [] (dget language_groups language_name) ++ [voice_data])%list,
       (snd acc ++ [voice_data])%list)
  end.

(** [load_voices]: [online] is the result of [check_internet_connection()],
    [listed] the outcome of [edge_tts.list_voices()]. *)
Definition load_voices (online : bool) (listed : py (list provider_voice))
  : catalog :=
  if negb online then fallback_catalog
  else
    match listed with
    | Returns voices =>
        let acc := fold_left load_step voices ([], []) in
        {| LANGUAGE_VOICES := fst acc;
           VOICE_DATA := by_display_name (snd acc) |}
    | Raises _ => fallback_catalog
    end.

(** What the loader's loop collected in [all_voices]. *)
Definition all_voices (voices : list provider_voice) : list voice :=
  snd (fold_left load_step voices ([], [])).

(** The dict returned by [find_voice_by_input]: a catalog descriptor, or
    [{'short_name': name}] alone. *)
Inductive voice_obj :=
| Descriptor (v : voice)
| ShortNameOnly (name : string).

(** [voice_obj['short_name']] *)
Definition obj_short_name (o : voice_obj) : string :=
  match o with
  | Descriptor v => short_name v
  | ShortNameOnly name => name
  end.

(** [find_voice_by_input(name)]; the argument is [data.get('voice')],
    [None] when the key is absent. The outer [None] is Python's. *)
Definition find_voice_by_input (VOICE_DATA : dict voice)
    (name : option string) : option voice_obj :=
  match name with
  | None => None
  | Some name =>
      if negb (truthy name) then None
      else
        match dget VOICE_DATA name with
        | Some v => Some (Descriptor v)
        | None =>
            match List.find (fun v => String.eqb (short_name v) name)
                    (dvalues VOICE_DATA) with
            | Some v => Some (Descriptor v)
            | None => Some (ShortNameOnly name)
            end
        end
  end.

(** The JSON object of GET /api/voices. *)
Record voices_response := {
  languages : list string;
  voices : dict (list voice);
  total_voices : nat;
  offline_mode : bool
}.

Definition get_voices (c : catalog) : voices_response :=
  let offline_mode := (length (LANGUAGE_VOICES c) <=? 3)%nat in
  {| languages := dkeys (LANGUAGE_VOICES c);
     voices := LANGUAGE_VOICES c;
     total_voices := length (VOICE_DATA c);
     offline_mode := offline_mode |}.

(** The test of the filter loop: [true] when the voice is appended. *)
Definition keeps (gender search : string) (v : voice) : bool :=
  if negb (String.eqb gender "All") && negb (String.eqb (Catalog.gender v) gender)
  then false
  else if truthy search && negb (contains search (lower (display_name v)))
  then false
  else true.

(** GET /api/filter_voices: the list under ["voices"]. Each argument is a
    query parameter, [None] when absent. *)
Definition filter_voices (c : catalog) (language gender search : option string)
  : list voice :=
  let language := default "All" language in
  let gender := default "All" gender in
  let search := strip (lower (default "" search)) in
  let source_voices :=
    if String.eqb language "All" then dvalues (VOICE_DATA c)
    else default [] (dget (LANGUAGE_VOICES c) language) in
  List.filter (keeps gender search) source_voices.

End Catalog.

(** ** Responses *)

Inductive jvalue :=
| JStr (s : string)
| JBool (b : bool).

(** What a view function returns: [jsonify(obj), status],
    [send_file(path, mimetype='audio/mpeg')], or a plain body with a status. *)
Inductive response :=
| Json (status : nat) (obj : list (string * jvalue))
| SendFile (path : string)
| Plain (status : nat) (text : string).

Definition status_of (r : response) : nat :=
  match r with
  | Json status _ => status
  | SendFile _ => 200%nat
  | Plain status _ => status
  end.

(** An error result: a JSON object with an ["error"] field. *)
Definition is_error (r : response) : bool :=
  match r with
  | Json _ obj => existsb (fun kv => String.eqb (fst kv) "error") obj
  | _ => false
  end.

(** ** Session artifacts: preview, generate, serve, cleanup
    (app4.py 143-158, 1701-1787, 1873-1878) *)

Module Studio.
Import PyStr PyDict Catalog Rate.

(** The temp directory's files and the registry [TEMP_FILES]. *)
Record state := {
  fs : gset string;
  TEMP_FILES : gmap string (list string)
}.

(** At import: [TEMP_FILES = {}]; the directory holds whatever it holds. *)
Definition init_state (fs0 : gset string) : state :=
  {| fs := fs0; TEMP_FILES := ∅ |}.

(** The paths registered under a session. *)
Definition owned (st : state) (session_id : string) : list string :=
  default [] (TEMP_FILES st !! session_id).

(** The JSON body of a POST to /api/preview or /api/generate; [None] is an
    absent key. *)
Record body := {
  b_voice : option string;
  b_speed : option float;
  b_text : option string
}.

(** What a request meets outside the program: the client's session cookie,
    the identifier [uuid.uuid4()] would give, and the outcome of
    [NamedTemporaryFile]: the random part of the created name, or the
    exception it raised. *)
Record world := {
  w_session : option string;
  w_uuid : string;
  w_tempfile : py string
}.

(** The arguments of one [edge_tts.Communicate(text, voice, rate=rate)]
    followed by [save(path)]. *)
Record tts_call := {
  c_text : string;
  c_voice : string;
  c_rate : string;
  c_path : string
}.

(** The result of a handler: the response, the state and cookie it leaves,
    the provider calls it made, and the registration it performed
    ([TEMP_FILES[session_id].append(path)]) if any. *)
Record outcome := {
  resp : response;
  out_state : state;
  out_session : option string;
  tts_calls : list tts_call;
  registered : option (string * string)
}.

(** [get_session_id()]: the identifier and the cookie afterwards. *)
Definition get_session_id (session : option string) (uuid : string)
  : string * option string :=
  match session with
  | Some session_id => (session_id, session)
  | None => (uuid, Some uuid)
  end.

(** The characters of [tempfile]'s random names. *)
Definition random_chars : string := "abcdefghijklmnopqrstuvwxyz0123456789_".

Fixpoint random_ok (r : string) : bool :=
  match r with
  | EmptyString => true
  | String c r' => has_char c random_chars && random_ok r'
  end.

(** [prefix + random + suffix] with the default prefix and [suffix='.mp3']. *)
Definition temp_name (r : string) : string := "tmp" +:+ r +:+ ".mp3".

(** [serve_audio(session_id, filename)] *)
Definition serve_audio (TEMP_FILES : gmap string (list string))
    (session_id filename : string) : response :=
  match TEMP_FILES !! session_id with
  | Some files =>
      match List.find (fun temp_file => String.eqb (basename temp_file) filename)
              files with
      | Some temp_file => SendFile temp_file
      | None => Plain 404 "File not found"
      end
  | None => Plain 404 "File not found"
  end.

(** The body of the cleanup loop for one path; [unlink_fails] tells where
    [os.unlink] raises (the exception is swallowed). *)
Definition unlink_step (unlink_fails : string -> bool) (files : gset string)
    (temp_file : string) : gset string :=
  if bool_decide (temp_file ∈ files) then
    if unlink_fails temp_file then files else files ∖ {[temp_file]}
  else files.

(** [cleanup_temp_files(session_id)] *)
Definition cleanup_temp_files (unlink_fails : string -> bool) (st : state)
    (session_id : string) : state :=
  match TEMP_FILES st !! session_id with
  | Some files =>
      {| fs := fold_left (unlink_step unlink_fails) files (fs st);
         TEMP_FILES := delete session_id (TEMP_FILES st) |}
  | None => st
  end.

(** POST /api/cleanup *)
Definition cleanup_session (st : state) (session : option string)
    (uuid : string) (unlink_fails : string -> bool) : outcome :=
  let '(session_id, session') := get_session_id session uuid in
  {| resp := Json 200 [("success", JBool true)];
     out_state := cleanup_temp_files unlink_fails st session_id;
     out_session := session';
     tts_calls := [];
     registered := None |}.

Section Handlers.

(** [tempfile.gettempdir()], fixed for the life of the process. *)
Variable tempdir : string.
(** The speech provider: the outcome of constructing the communicator and
    saving to the path. *)
Variable Communicate_save : tts_call -> py unit.
(** The display-name table, loaded once at start. *)
Variable VOICE_DATA : dict voice.

Definition temp_path (r : string) : string := path_join tempdir (temp_name r).

Definition failed (status : nat) (msg : string) (st : state)
    (session : option string) : outcome :=
  {| resp := Json status [("error", JStr msg)];
     out_state := st; out_session := session;
     tts_calls := []; registered := None |}.

(** The [try] block shared by the two synthesis handlers, from
    [voice_short = voice_obj['short_name']] to the provider call;
    [reply] builds the success response from the session id and path. *)
Definition synthesize (reply : string -> string -> response) (st : state)
    (w : world) (text : string) (speed : float) (voice_obj : voice_obj)
  : outcome :=
  let voice_short := obj_short_name voice_obj in
  match calculate_rate_parameter speed with
  | Raises e => failed 500 e st (w_session w)
  | Returns rate =>
      match w_tempfile w with
      | Raises e => failed 500 e st (w_session w)
      | Returns r =>
          let temp_file := temp_path r in
          let '(session_id, session') := get_session_id (w_session w) (w_uuid w) in
          let files := default [] (TEMP_FILES st !! session_id) in
          let st' :=
            {| fs := fs st ∪ {[temp_file]};
               TEMP_FILES :=
                 <[session_id := (files ++ [temp_file])%list]> (TEMP_FILES st) |} in
          let call := {| c_text := text; c_voice := voice_short;
                         c_rate := rate; c_path := temp_file |} in
          {| resp := match Communicate_save call with
                     | Returns _ => reply session_id temp_file
                     | Raises e => Json 500 [("error", JStr e)]
                     end;
             out_state := st';
             out_session := session';
             tts_calls := [call];
             registered := Some (session_id, temp_file) |}
      end
  end.

Definition audio_url (session_id temp_file : string) : string :=
  "/audio/" +:+ session_id +:+ "/" +:+ basename temp_file.

(** POST /api/preview *)
Definition preview_voice (st : state) (w : world) (data : body) : outcome :=
  let voice_input := b_voice data in
  let speed := default 1%float (b_speed data) in
  let text := default "Hello! This is a preview." (b_text data) in
  match find_voice_by_input VOICE_DATA voice_input with
  | None => failed 400 "Invalid voice" st (w_session w)
  | Some voice_obj =>
      synthesize
        (fun session_id temp_file =>
           Json 200 [("audio_url", JStr (audio_url session_id temp_file))])
        st w text speed voice_obj
  end.

(** POST /api/generate *)
Definition generate_speech (st : state) (w : world) (data : body) : outcome :=
  let text := strip (default "" (b_text data)) in
  let voice_input := b_voice data in
  let speed := default 1%float (b_speed data) in
  if negb (truthy text) then failed 400 "No text provided" st (w_session w)
  else
    match find_voice_by_input VOICE_DATA voice_input with
    | None => failed 400 "Invalid voice" st (w_session w)
    | Some voice_obj =>
        synthesize
          (fun session_id temp_file =>
             Json 200 [("audio_url", JStr (audio_url session_id temp_file));
                       ("filename", JStr (basename temp_file))])
          st w text speed voice_obj
    end.

(** *** Runs of the server: one event per request served. *)

Inductive event :=
| Preview (w : world) (data : body)
| Generate (w : world) (data : body)
| Serve (session_id filename : string)
| Cleanup (session : option string) (uuid : string)
    (unlink_fails : string -> bool).

Definition handle (st : state) (ev : event) : outcome :=
  match ev with
  | Preview w data => preview_voice st w data
  | Generate w data => generate_speech st w data
  | Serve session_id filename =>
      {| resp := serve_audio (TEMP_FILES st) session_id filename;
         out_state := st; out_session := None;
         tts_calls := []; registered := None |}
  | Cleanup session uuid unlink_fails =>
      cleanup_session st session uuid unlink_fails
  end.

(** The temp-file facility keeps its contract at this event: the name it
    created is drawn from its alphabet and did not exist before. *)
Definition tempfile_ok (st : state) (w : world) : bool :=
  match w_tempfile w with
  | Returns r => random_ok r && bool_decide (temp_path r ∉ fs st)
  | Raises _ => true
  end.

Definition event_ok (st : state) (ev : event) : bool :=
  match ev with
  | Preview w _ | Generate w _ => tempfile_ok st w
  | _ => true
  end.

(** The event calls [cleanup_temp_files(session_id)]. *)
Definition purges (session_id : string) (ev : event) : bool :=
  match ev with
  | Cleanup session uuid _ =>
      String.eqb (fst (get_session_id session uuid)) session_id
  | _ => false
  end.

Fixpoint run (st : state) (evs : list event) : state :=
  match evs with
  | [] => st
  | ev :: evs' => run (out_state (handle st ev)) evs'
  end.

Fixpoint valid_run (st : state) (evs : list event) : bool :=
  match evs with
  | [] => true
  | ev :: evs' => event_ok st ev && valid_run (out_state (handle st ev)) evs'
  end.

End Handlers.
End Studio.

(** ** Transcription of an upload (app4.py 174-179, 1789-1829) *)

Module Transcribe.
Import PyStr PyDict.

(** One part of [request.files]. *)
Record upload := {
  filename : string;
  content : string
}.

(** A segment of the engine's result: [int(segment.start)] and
    [segment.text]. *)
Definition segment : Type := Z * string.

(** [WHISPER_MODEL.transcribe(path, beam_size=5)] on the saved upload, the
    segments fully iterated. *)
Definition whisper : Type := upload -> py (list segment).

Definition two_digits (n : Z) : string :=
  if n <? 10 then "0" +:+ Rate.str_int n else Rate.str_int n.

(** [str(timedelta(seconds=n))]; the day count is first converted to a C
    int, then checked against the range of [timedelta]. *)
Definition str_timedelta (n : Z) : py string :=
  let days := n / 86400 in
  let seconds := n mod 86400 in
  if (days <? -2147483648) || (2147483647 <? days) then
    Raises "Python int too large to convert to C int"
  else if 999999999 <? Z.abs days then
    Raises ("days=" +:+ Rate.str_int days +:+ "; must have magnitude <= 999999999")
  else
    let hh := seconds / 3600 in
    let mm := (seconds / 60) mod 60 in
    let ss := seconds mod 60 in
    let s := Rate.str_int hh +:+ ":" +:+ two_digits mm +:+ ":" +:+ two_digits ss in
    Returns (if days =? 0 then s
             else Rate.str_int days +:+ " day"
                  +:+ (if Z.abs days =? 1 then "" else "s") +:+ ", " +:+ s).

Definition newline : string := String (ascii_of_N 10) EmptyString.

(** ['\n'.join(parts)] *)
Fixpoint join_lines (parts : list string) : string :=
  match parts with
  | [] => EmptyString
  | [part] => part
  | part :: rest => part +:+ newline +:+ join_lines rest
  end.

(** The loop building [transcript_parts]. *)
Fixpoint transcript_parts (segments : list segment) : py (list string) :=
  match segments with
  | [] => Returns []
  | (start, text) :: rest =>
      let* start_time := str_timedelta start in
      let* parts := transcript_parts rest in
      Returns (("[" +:+ start_time +:+ "] " +:+ strip text) :: parts)
  end.

(** What the file system answers inside the [try] block, in the order the
    handler asks: [tempfile.NamedTemporaryFile(delete=False, suffix='.mp3')]
    with its [close()], [audio_file.save(temp_audio.name)] and
    [os.unlink(temp_audio.name)]. *)
Record disk := {
  named_temporary_file : py string;
  save : py unit;
  unlink : py unit
}.

(** POST /api/transcribe_upload *)
Definition transcribe_upload (WHISPER_MODEL : option whisper)
    (io : disk) (files : dict upload) : response :=
  match dget files "audio" with
  | None => Json 400 [("error", JStr "No audio file provided")]
  | Some audio_file =>
      if String.eqb (filename audio_file) "" then
        Json 400 [("error", JStr "No file selected")]
      else
        match WHISPER_MODEL with
        | None =>
            Json 200
              [("success", JBool true);
               ("engine", JStr "Mock Engine");
               ("transcript",
                JStr "This is a mock transcription. Install whisper engines for real transcription.");
               ("full_text", JStr "Mock transcription text")]
        | Some model =>
            let result :=
              let* temp_audio := named_temporary_file io in
              let* _ := save io in
              let* segments := model audio_file in
              let* parts := transcript_parts segments in
              let transcript := join_lines parts in
              let* _ := unlink io in
              Returns transcript in
            match result with
            | Returns transcript =>
                Json 200
                  [("success", JBool true);
                   ("engine", JStr "Faster Whisper");
                   ("transcript", JStr transcript);
                   ("full_text", JStr transcript)]
            | Raises e => Json 500 [("error", JStr e)]
            end
        end
  end.

End Transcribe.

(** ** Notions used to state the properties *)

Module Props.
Import PyStr PyDict Catalog.

(** Two bytes that differ at most in the case of an ASCII letter. *)
Definition same_letter (c c' : ascii) : bool :=
  Ascii.eqb c' c || Ascii.eqb c' (upper_char c) || Ascii.eqb c' (lower_char c).

(** [s'] is [s] with the case of some ASCII letters changed. *)
Fixpoint case_variant (s s' : string) : bool :=
  match s, s' with
  | EmptyString, EmptyString => true
  | String c r, String c' r' => same_letter c c' && case_variant r r'
  | _, _ => false
  end.

(** A character as [chars] cuts it: a byte and continuation bytes. *)
Fixpoint all_continuation (s : string) : bool :=
  match s with
  | EmptyString => true
  | String b rest => is_continuation b && all_continuation rest
  end.

Definition is_chunk (ch : string) : bool :=
  match ch with
  | String _ rest => all_continuation rest
  | EmptyString => false
  end.

(** A string that does not begin inside a character. *)
Definition clean (s : string) : bool := negb (starts_with_continuation s).

(** A list of characters that does not begin with white space. *)
Definition starts_unspaced (l : list string) : bool :=
  match l with
  | ch :: _ => negb (isspace ch)
  | [] => true
  end.

(** No white space at either end. *)
Definition trimmed (l : list string) : bool :=
  starts_unspaced l && starts_unspaced (rev l).

(** What lowercasing may put in place of one character. *)
Definition lower_output (ch o : string) : Prop :=
  starts_with_continuation o = starts_with_continuation ch /\
  (isspace ch = true -> o = ch) /\
  (isspace ch = false -> chars o <> [] /\ trimmed (chars o) = true).

(** The code points of a range, one by one. *)
Definition range_points (range : N * N) : list N :=
  map (fun k => (fst range + N.of_nat k)%N)
      (seq 0 (N.to_nat (snd range - fst range + 1))).

(** What lowercasing relies on for a white-space code point: it has no
    case and no mapping. *)
Definition space_ok (n : N) : bool :=
  match UnicodeData.map_point UnicodeData.lower_runs
          UnicodeData.lower_special n with
  | None => true
  | Some _ => false
  end &&
  negb (UnicodeData.in_ranges n UnicodeData.cased_ranges) &&
  negb (UnicodeData.in_ranges n UnicodeData.case_ignorable_ranges) &&
  negb (n =? UnicodeData.capital_sigma)%N.

(** The targets of a table entry are code points and no white space. *)
Definition point_ok (p : N) : bool :=
  (p <? 0x110000)%N && negb (UnicodeData.in_ranges p UnicodeData.space_ranges).

Definition run_ok (run : N * N * N * N) : bool :=
  let '(first, last, _, target) := run in
  ((first <=? last) && (target + (last - first) <? 0x110000))%N &&
  forallb (fun range => (snd range <? target) ||
                        (target + (last - first) <? fst range))%N
    UnicodeData.space_ranges.

Definition special_ok (entry : N * list N) : bool :=
  match snd entry with
  | [] => false
  | points => forallb point_ok points
  end.

(** What the case operations read of one character. *)
Definition case_profile (ch : string)
  : string * string * bool * bool * bool * bool :=
  (lower_chunk ch, upper_chunk ch, cased ch, case_ignorable ch, isspace ch,
   String.eqb ch (encode UnicodeData.capital_sigma)).

(** Size of a catalog, counted in language groups and in voices. *)
Definition language_count (c : catalog) : nat := length (LANGUAGE_VOICES c).
Definition voice_count (c : catalog) : nat := length (VOICE_DATA c).

(** Every descriptor the loader grouped under some language. *)
Definition grouped_voices (c : catalog) : list voice :=
  concat (dvalues (LANGUAGE_VOICES c)).

Definition listed (l s f g : string) : provider_voice :=
  {| Locale := Some l; ShortName := Some s;
     FriendlyName := Some f; Gender := Some g |}.

(** A provider listing with one voice in each of three languages. *)
Definition three_languages : list provider_voice :=
  [ listed "en-US" "en-US-AvaNeural" "Ava" "Female";
    listed "es-ES" "es-ES-AlvaroNeural" "Alvaro" "Male";
    listed "fr-FR" "fr-FR-DeniseNeural" "Denise" "Female" ].

(** A provider listing in which two voices share friendly name and gender. *)
Definition ava_us : provider_voice :=
  listed "en-US" "en-US-AvaNeural" "Ava" "Female".
Definition ava_gb : provider_voice :=
  listed "en-GB" "en-GB-AvaNeural" "Ava" "Female".
Definition same_display_name : list provider_voice := [ava_us; ava_gb].

(** A provider listing with a voice whose friendly name has letters
    outside ASCII. *)
Definition isik : provider_voice :=
  listed "tr-TR" "tr-TR-IsikNeural" "Işık" "Female".

Definition descriptor_ava_us : voice :=
  {| display_name := "Ava - Female"; short_name := "en-US-AvaNeural";
     info := ava_us; language := "English"; locale := "en-US";
     gender := "Female" |}.

(** The identifier names a catalog descriptor, by display name or by short
    name. *)
Definition resolvable (VOICE_DATA : dict voice) (name : string) : bool :=
  match dget VOICE_DATA name with
  | Some _ => true
  | None => existsb (fun v => String.eqb (short_name v) name) (dvalues VOICE_DATA)
  end.

(** A path made by the temp-file facility: a name without separator joined
    to the temp directory. *)
Definition temp_named (tempdir f : string) : Prop :=
  exists n, has_char "/" n = false /\ f = path_join tempdir n.

(** The registry and the directory agree: every registered path exists and
    was made by the temp-file facility, and no path is registered under two
    sessions. *)
Definition registry_inv (tempdir : string) (st : Studio.state) : Prop :=
  (forall session_id files f,
      Studio.TEMP_FILES st !! session_id = Some files -> In f files ->
      f ∈ Studio.fs st /\ temp_named tempdir f) /\
  (forall a b files_a files_b f,
      Studio.TEMP_FILES st !! a = Some files_a ->
      Studio.TEMP_FILES st !! b = Some files_b ->
      In f files_a -> In f files_b -> a = b).

(** The state after [TEMP_FILES[session_id].append(temp_file)] on a file
    just created. *)
Definition with_artifact (st : Studio.state) (session_id temp_file : string)
  : Studio.state :=
  {| Studio.fs := Studio.fs st ∪ {[temp_file]};
     Studio.TEMP_FILES :=
       <[session_id := (Studio.owned st session_id ++ [temp_file])%list]>
         (Studio.TEMP_FILES st) |}.

(** Concrete requests used as instances. *)
Definition say_hi (voice : string) : Studio.body :=
  {| Studio.b_voice := Some voice; Studio.b_speed := None;
     Studio.b_text := Some "Hi" |}.

Definition no_text (voice : string) : Studio.body :=
  {| Studio.b_voice := Some voice; Studio.b_speed := None;
     Studio.b_text := None |}.

Definition client (session : option string) (uuid r : string) : Studio.world :=
  {| Studio.w_session := session; Studio.w_uuid := uuid;
     Studio.w_tempfile := Returns r |}.

Definition provider_ok (call : Studio.tts_call) : py unit := Returns tt.

(** A small deployment: temp directory /tmp, the fallback catalog loaded,
    a provider that accepts every call. *)
Definition fallback_table : dict voice := VOICE_DATA fallback_catalog.

Definition first_preview : Studio.event :=
  Studio.Preview (client None "s1" "abcd1234") (say_hi "en-US-JennyNeural").
Definition second_generate : Studio.event :=
  Studio.Generate (client (Some "s1") "u2" "efgh5678")
    (say_hi "English Male - Guy").
Definition other_preview : Studio.event :=
  Studio.Preview (client None "s2" "ijkl9012") (say_hi "en-US-GuyNeural").
(** A cleanup of session s2 in which every [os.unlink] raises. *)
Definition other_cleanup : Studio.event :=
  Studio.Cleanup (Some "s2") "u3" (fun _ => true).

Definition sample_upload : Transcribe.upload :=
  {| Transcribe.filename := "memo.mp3"; Transcribe.content := "RIFF" |}.
Definition unnamed_upload : Transcribe.upload :=
  {| Transcribe.filename := ""; Transcribe.content := "" |}.

(** A file system on which every step of the transcription succeeds. *)
Definition working_disk : Transcribe.disk :=
  {| Transcribe.named_temporary_file := Returns "/tmp/tmpwxyz0123.mp3";
     Transcribe.save := Returns tt;
     Transcribe.unlink := Returns tt |}.

End Props.

(** ** Shutdown and the second transcription endpoint
    (app4.py 1831-1871, 1894-1898) *)

Module Shutdown.
Import Studio.

(** [cleanup_all()]: [keys] is the snapshot [list(TEMP_FILES.keys())], in
    the order the dict gives it. *)
Definition cleanup_all (unlink_fails : string -> bool) (keys : list string)
    (st : state) : state :=
  fold_left (fun st session_id => cleanup_temp_files unlink_fails st session_id)
    keys st.

End Shutdown.

Module TranscribeGenerated.
Import PyDict Transcribe.

(** POST /api/transcribe_generated *)
Definition transcribe_generated (WHISPER_MODEL : option whisper)
    (io : disk) (files : dict upload) : response :=
  match dget files "audio" with
  | None => Json 400 [("error", JStr "No audio file provided")]
  | Some audio_file =>
      if String.eqb (filename audio_file) "" then
        Json 400 [("error", JStr "No file selected")]
      else
        match WHISPER_MODEL with
        | None =>
            Json 200
              [("success", JBool true);
               ("engine", JStr "Mock Engine");
               ("transcript",
                JStr "This is a mock transcription of your generated audio. Install whisper engines for real transcription.");
               ("full_text", JStr "Mock transcription of generated audio")]
        | Some model =>
            let result :=
              let* temp_audio := named_temporary_file io in
              let* _ := save io in
              let* segments := model audio_file in
              let* parts := transcript_parts segments in
              let transcript := join_lines parts in
              let* _ := unlink io in
              Returns transcript in
            match result with
            | Returns transcript =>
                Json 200
                  [("success", JBool true);
                   ("engine", JStr "Faster Whisper");
                   ("transcript", JStr transcript);
                   ("full_text", JStr transcript)]
            | Raises e => Json 500 [("error", JStr e)]
            end
        end
  end.

End TranscribeGenerated.

(** ** Further notions used to state properties *)

Module Notions.
Import PyStr PyDict Catalog.

(** The last descriptor of a list that bears a display name. *)
Definition last_named (name : string) (l : list voice) : option voice :=
  List.find (fun v => String.eqb (display_name v) name) (rev l).

(** The session an event acts on: the one [get_session_id()] yields for a
    POST, the one in the URL for a GET of an audio file. *)
Definition event_session (ev : Studio.event) : string :=
  match ev with
  | Studio.Preview w _ | Studio.Generate w _ =>
      fst (Studio.get_session_id (Studio.w_session w) (Studio.w_uuid w))
  | Studio.Serve session_id _ => session_id
  | Studio.Cleanup session uuid _ =>
      fst (Studio.get_session_id session uuid)
  end.

(** The value stored under a key of a JSON object. *)
Definition field (key : string) (r : response) : option jvalue :=
  match r with
  | Json _ obj => dget obj key
  | _ => None
  end.

(** A provider that raises on every call. *)
Definition provider_down (call : Studio.tts_call) : py unit :=
  Raises "No audio was received".

(** A listing with an entry that has no short name and one without
    friendly name, gender or locale. *)
Definition ragged_listing : list provider_voice :=
  [ {| Locale := Some "en-US"; ShortName := None;
       FriendlyName := Some "Ghost"; Gender := Some "Female" |};
    {| Locale := None; ShortName := Some "xx-Plain";
       FriendlyName := None; Gender := None |};
    Props.ava_us; Props.ava_gb ].

(** The shape of the language groups: keys distinct, each group non-empty
    and made of descriptors of its language. *)
Definition group_ok (groups : dict (list voice)) : Prop :=
  NoDup (dkeys groups) /\
  forall L vs, dget groups L = Some vs ->
    vs <> [] /\
    forall v, In v vs ->
      language v = L /\ short_name v <> "" /\ display_name v <> "".

(** The shape of the display-name table: keys distinct, each descriptor
    stored under its own display name, names non-empty. *)
Definition table_ok (table : dict voice) : Prop :=
  NoDup (dkeys table) /\
  forall k v, In (k, v) table ->
    k = display_name v /\ display_name v <> "" /\ short_name v <> "".

(** The shape of the registry lists: no entry is empty and no path occurs
    twice in one. *)
Definition lists_ok (st : Studio.state) : Prop :=
  forall session_id files,
    Studio.TEMP_FILES st !! session_id = Some files ->
    files <> [] /\ NoDup files.

(** The event is a POST to one of the two synthesis endpoints, with these
    surroundings. *)
Definition synthesis_event (ev : Studio.event) (w : Studio.world) : Prop :=
  exists data, ev = Studio.Preview w data \/ ev = Studio.Generate w data.

(** The request allocated an artifact, as seen from outside: it answered
    with success, called the provider, or changed the temp directory. *)
Definition allocates (st : Studio.state) (o : Studio.outcome) : Prop :=
  is_error (Studio.resp o) = false \/ Studio.tts_calls o <> [] \/
  Studio.fs (Studio.out_state o) <> Studio.fs st.

(** A start offset whose day count [timedelta] accepts. *)
Definition in_timedelta_range (n : Z) : Prop :=
  Z.abs (n / 86400) <= 999999999.

(** [H:MM:SS] for a number of seconds. *)
Definition clock (n : Z) : string :=
  Rate.str_int (n / 3600) +:+ ":" +:+ Transcribe.two_digits (n / 60 mod 60)
  +:+ ":" +:+ Transcribe.two_digits (n mod 60).

(** A state with one session holding one file, beside a foreign file. *)
Definition one_session_state : Studio.state :=
  {| Studio.fs := {["/tmp/tmpabcd1234.mp3"]} ∪ {["/tmp/other.txt"]};
     Studio.TEMP_FILES := {["s1" := ["/tmp/tmpabcd1234.mp3"]]} |}.

Definition jenny : voice :=
  {| display_name := "English Female - Jenny";
     short_name := "en-US-JennyNeural";
     info := {| Locale := Some "en-US"; ShortName := None;
                FriendlyName := None; Gender := Some "Female" |};
     language := "English"; locale := "en-US"; gender := "Female" |}.

Definition engine_two_segments : Transcribe.whisper :=
  fun _ => Returns [(0, " Hello "); (3725, "again")].

End Notions.

(** ** Theorems *)

Module RateFacts.
Import Rate.

Lemma round_half_even_nearest s m e :
  nearest_integer (round_half_even s m e) (S754_finite s m e).
Proof.
  unfold nearest_integer, round_half_even, sf_num, sf_den.
  destruct (Z.leb_spec 0 e) as [He | He].
  - rewrite (Z.max_r 0 e) by lia. rewrite (Z.max_l 0 (- e)) by lia.
    change (2 ^ 0) with 1. destruct s; lia.
  - rewrite (Z.max_l 0 e) by lia. rewrite (Z.max_r 0 (- e)) by lia.
    change (2 ^ 0) with 1.
    set (d := 2 ^ (- e)).
    assert (Hd : 0 < d) by (apply Z.pow_pos_nonneg; lia).
    pose proof (Z.div_mod (Z.pos m) d ltac:(lia)) as Hdm.
    pose proof (Z.mod_pos_bound (Z.pos m) d Hd) as Hr.
    set (q := Z.pos m / d) in *. set (r := Z.pos m mod d) in *.
    destruct (Z.compare_spec (2 * r) d) as [Hc | Hc | Hc];
      [destruct (Z.even q) | | ]; destruct s; nia.
Qed.

(** C4: the rate string is "+0%" at speed 1.0; at any other speed whose
    deviation [(speed - 1.0) * 100] is a finite binary64, it is that
    deviation rounded to a nearest integer, written with a "+" when
    positive and as Python prints the integer otherwise; the table of the
    specification holds (1.25, 0.9, 1.2, 0.8). The result is a function of
    the speed alone. *)
Theorem calculate_rate_parameter_table_and_rounding :
  calculate_rate_parameter 1%float = Returns "+0%" /\
  calculate_rate_parameter speed_1_25 = Returns "+25%" /\
  calculate_rate_parameter speed_0_9 = Returns "-10%" /\
  calculate_rate_parameter speed_1_2 = Returns "+20%" /\
  calculate_rate_parameter speed_0_8 = Returns "-20%" /\
  (forall speed percent,
      PrimFloat.eqb speed 1%float = false ->
      py_round (deviation speed) = Returns percent ->
      calculate_rate_parameter speed = Returns (signed_percent percent) /\
      nearest_integer percent (Prim2SF (deviation speed))).
Proof.
  repeat split; try (vm_compute; reflexivity).
  - unfold calculate_rate_parameter. rewrite H, H0. reflexivity.
  - unfold py_round in H0.
    destruct (Prim2SF (deviation speed)) as [z | i | | s m e];
      try discriminate; injection H0 as <-.
    + reflexivity.
    + apply round_half_even_nearest.
Qed.

Lemma calculate_rate_parameter_table_and_rounding_witness :
  calculate_rate_parameter 0x1.2p+0%float = Returns "+12%" /\
  nearest_integer 12 (Prim2SF (deviation 0x1.2p+0%float)).
Proof.
  apply (proj2 (proj2 (proj2 (proj2 (proj2
           calculate_rate_parameter_table_and_rounding))))
           0x1.2p+0%float 12); vm_compute; reflexivity.
Defined.

End RateFacts.

Module PyStrFacts.
Import PyStr Props.

Lemma lower_char_idem c : lower_char (lower_char c) = lower_char c.
Proof. destruct c as [[] [] [] [] [] [] [] []]; reflexivity. Qed.

Lemma lower_upper_char c : lower_char (upper_char c) = lower_char c.
Proof. destruct c as [[] [] [] [] [] [] [] []]; reflexivity. Qed.

Lemma same_letter_lower c c' :
  same_letter c c' = true -> lower_char c' = lower_char c.
Proof.
  unfold same_letter. rewrite !orb_true_iff, !Ascii.eqb_eq.
  intros [[-> | ->] | ->];
    auto using lower_char_idem, lower_upper_char.
Qed.

Lemma same_letter_cases c c' :
  same_letter c c' = true -> c' = c \/ c' = upper_char c \/ c' = lower_char c.
Proof.
  unfold same_letter. rewrite !orb_true_iff, !Ascii.eqb_eq. tauto.
Qed.

Lemma ascii_case_keeps_class c :
  is_continuation (upper_char c) = is_continuation c /\
  is_continuation (lower_char c) = is_continuation c /\
  is_ascii (upper_char c) = is_ascii c /\
  is_ascii (lower_char c) = is_ascii c /\
  (is_ascii c = false -> upper_char c = c /\ lower_char c = c).
Proof.
  destruct c as [[] [] [] [] [] [] [] []]; vm_compute; repeat split;
    discriminate.
Qed.

Lemma same_letter_continuation c c' :
  same_letter c c' = true -> is_continuation c' = is_continuation c.
Proof.
  intros H. destruct (ascii_case_keeps_class c) as (Hu & Hl & _).
  destruct (same_letter_cases c c' H) as [-> | [-> | ->]]; auto.
Qed.

Lemma same_letter_is_ascii c c' :
  same_letter c c' = true -> is_ascii c' = is_ascii c.
Proof.
  intros H. destruct (ascii_case_keeps_class c) as (_ & _ & Hu & Hl & _).
  destruct (same_letter_cases c c' H) as [-> | [-> | ->]]; auto.
Qed.

Lemma same_letter_fixed c c' :
  same_letter c c' = true -> is_ascii c = false -> c' = c.
Proof.
  intros H Hc. destruct (ascii_case_keeps_class c) as (_ & _ & _ & _ & Hfix).
  destruct (Hfix Hc) as [Hu Hl].
  destruct (same_letter_cases c c' H) as [-> | [-> | ->]]; auto.
Qed.

Lemma continuation_not_ascii c : is_continuation c = true -> is_ascii c = false.
Proof. destruct c as [[] [] [] [] [] [] [] []]; vm_compute; congruence. Qed.

(** Continuation bytes are the same in a case variant. *)
Lemma case_variant_continuation t : forall t',
  all_continuation t = true -> case_variant t t' = true -> t' = t.
Proof.
  induction t as [| c t IH]; intros [| c' t']; simpl; try discriminate; auto.
  rewrite !andb_true_iff. intros [Hc Ht] [Hs Hv].
  f_equal; [| now apply IH].
  apply (same_letter_fixed c c' Hs). now apply continuation_not_ascii.
Qed.

Lemma chars_are_chunks s : Forall (fun ch => is_chunk ch = true) (chars s).
Proof.
  induction s as [| b s IH]; simpl; [constructor |].
  destruct (chars s) as [| ch more]; [repeat constructor |].
  apply Forall_cons in IH as [Hch Hmore].
  destruct (starts_with_continuation ch) eqn:E.
  - constructor; [| exact Hmore].
    destruct ch as [| c t]; [discriminate |]. simpl in *. now rewrite E.
  - repeat constructor; assumption.
Qed.

(** The characters of a case variant are case variants, one by one. *)
Lemma chars_case_variant s : forall s',
  case_variant s s' = true ->
  Forall2 (fun ch ch' => case_variant ch ch' = true) (chars s) (chars s').
Proof.
  induction s as [| b s IH]; intros [| b' s']; simpl; try discriminate;
    [constructor |].
  rewrite andb_true_iff. intros [Hb Hs]. specialize (IH s' Hs).
  destruct IH as [| ch ch' more more' Hch Hmore].
  - repeat constructor. simpl. now rewrite Hb.
  - assert (Hstart : starts_with_continuation ch' = starts_with_continuation ch).
    { destruct ch as [| c t], ch' as [| c' t']; simpl in *; try discriminate;
        [reflexivity |].
      apply andb_true_iff in Hch as [Hc _]. now apply same_letter_continuation. }
    rewrite Hstart. destruct (starts_with_continuation ch).
    + constructor; [| exact Hmore]. simpl. now rewrite Hb, Hch.
    + repeat constructor; try assumption. simpl. now rewrite Hb.
Qed.

Lemma single_byte_profile b :
  case_profile (String (upper_char b) EmptyString)
  = case_profile (String b EmptyString) /\
  case_profile (String (lower_char b) EmptyString)
  = case_profile (String b EmptyString).
Proof.
  destruct b as [[] [] [] [] [] [] [] []]; split; vm_compute; reflexivity.
Qed.

Lemma code_point_ascii_head b c t :
  is_ascii b = true -> code_point (String b (String c t)) = None.
Proof.
  intros Hb. unfold is_ascii in Hb. apply N.ltb_lt in Hb.
  assert (H1 : ((192 <=? N_of_ascii b) && (N_of_ascii b <? 224))%N = false).
  { apply andb_false_iff. left. apply N.leb_gt. lia. }
  assert (H2 : ((224 <=? N_of_ascii b) && (N_of_ascii b <? 240))%N = false).
  { apply andb_false_iff. left. apply N.leb_gt. lia. }
  assert (H3 : ((240 <=? N_of_ascii b) && (N_of_ascii b <? 248))%N = false).
  { apply andb_false_iff. left. apply N.leb_gt. lia. }
  unfold code_point.
  destruct t as [| c2 [| c3 [| c4 t]]]; try reflexivity.
  - rewrite H1. now destruct (continuation_bits c).
  - rewrite H2. now destruct (continuation_bits c), (continuation_bits c2).
  - rewrite H3.
    now destruct (continuation_bits c), (continuation_bits c2),
      (continuation_bits c3).
Qed.

Lemma sigma_head_not_ascii b t :
  is_ascii b = true ->
  String.eqb (String b t) (encode UnicodeData.capital_sigma) = false.
Proof.
  intros Hb. apply String.eqb_neq. intros Heq.
  vm_compute in Heq. injection Heq as -> _. discriminate Hb.
Qed.

(** A case variant of a character reads the same in the case tables. *)
Lemma chunk_case_variant ch ch' :
  is_chunk ch = true -> case_variant ch ch' = true ->
  lower_chunk ch' = lower_chunk ch /\ cased ch' = cased ch /\
  case_ignorable ch' = case_ignorable ch /\
  String.eqb ch' (encode UnicodeData.capital_sigma)
  = String.eqb ch (encode UnicodeData.capital_sigma).
Proof.
  destruct ch as [| b t]; [discriminate |].
  destruct ch' as [| b' t']; [discriminate |].
  intros Ht Hv.
  change (all_continuation t = true) in Ht.
  change (same_letter b b' && case_variant t t' = true) in Hv.
  apply andb_true_iff in Hv as [Hb Hv].
  apply (case_variant_continuation t t' Ht) in Hv. subst t'.
  destruct (is_ascii b) eqn:Hascii;
    [| now rewrite (same_letter_fixed b b' Hb Hascii)].
  pose proof (same_letter_is_ascii b b' Hb) as Hascii'. rewrite Hascii in Hascii'.
  destruct t as [| c t].
  - destruct (single_byte_profile b) as [Hu Hl].
    assert (Hp : case_profile (String b' EmptyString)
                 = case_profile (String b EmptyString))
      by (destruct (same_letter_cases b b' Hb) as [-> | [-> | ->]]; auto).
    unfold case_profile in Hp. injection Hp as H1 _ H3 H4 _ H6. auto.
  - unfold lower_chunk, cased, case_ignorable, has_property.
    rewrite !code_point_ascii_head by assumption.
    rewrite !sigma_head_not_ascii by assumption.
    repeat split. simpl. f_equal. now apply same_letter_lower.
Qed.

Lemma followed_by_cased_variant l l' :
  Forall (fun ch => is_chunk ch = true) l ->
  Forall2 (fun ch ch' => case_variant ch ch' = true) l l' ->
  followed_by_cased l' = followed_by_cased l.
Proof.
  intros Hl Hv. induction Hv as [| ch ch' l l' Hch Hv IH]; [reflexivity |].
  apply Forall_cons in Hl as [Hc Hl]. simpl.
  destruct (chunk_case_variant ch ch' Hc Hch) as (_ & -> & -> & _).
  now rewrite IH.
Qed.

Lemma lower_chunks_variant l l' :
  Forall (fun ch => is_chunk ch = true) l ->
  Forall2 (fun ch ch' => case_variant ch ch' = true) l l' ->
  forall ctx, lower_chunks ctx l' = lower_chunks ctx l.
Proof.
  intros Hl Hv. induction Hv as [| ch ch' l l' Hch Hv IH]; [reflexivity |].
  apply Forall_cons in Hl as [Hc Hl]. intros ctx. simpl.
  destruct (chunk_case_variant ch ch' Hc Hch) as (-> & -> & -> & ->).
  now rewrite (followed_by_cased_variant l l' Hl Hv), (IH Hl).
Qed.

(** Two strings that differ only in the case of ASCII letters have the same
    lowercase form. *)
Lemma case_variant_lower s s' :
  case_variant s s' = true -> lower s' = lower s.
Proof.
  intros Hv. unfold lower. f_equal.
  apply lower_chunks_variant;
    [apply chars_are_chunks | now apply chars_case_variant].
Qed.

Lemma has_char_cons c d s :
  has_char c (String d s) = Ascii.eqb c d || has_char c s.
Proof. reflexivity. Qed.

Lemma basename_cons c p :
  basename (String c p) =
  if has_char "/" p then basename p
  else if Ascii.eqb c "/" then p else String c p.
Proof. reflexivity. Qed.

Lemma has_char_app c a b :
  has_char c (a +:+ b) = has_char c a || has_char c b.
Proof.
  induction a as [| d a IH]; [reflexivity |].
  change (String d a +:+ b) with (String d (a +:+ b)).
  rewrite !has_char_cons, IH. apply orb_assoc.
Qed.

Lemma basename_no_slash n : has_char "/" n = false -> basename n = n.
Proof.
  destruct n as [| c n]; [reflexivity |].
  rewrite has_char_cons, basename_cons, orb_false_iff.
  intros [Hc Hn]. rewrite Hn, Ascii.eqb_sym, Hc. reflexivity.
Qed.

Lemma basename_after_slash a n :
  has_char "/" n = false -> basename (a +:+ String "/" n) = n.
Proof.
  intros Hn. induction a as [| c a IH].
  - change (EmptyString +:+ String "/" n) with (String "/" n).
    rewrite basename_cons, Hn. reflexivity.
  - change (String c a +:+ String "/" n) with (String c (a +:+ String "/" n)).
    rewrite basename_cons, has_char_app, has_char_cons.
    rewrite Ascii.eqb_refl, orb_true_r. exact IH.
Qed.

Lemma ends_with_slash_split a :
  ends_with_slash a = true -> exists a0, a = a0 +:+ String "/" EmptyString.
Proof.
  induction a as [| c a IH]; simpl; [discriminate |].
  destruct a as [| d a'].
  - rewrite Ascii.eqb_eq. intros ->. exists EmptyString. reflexivity.
  - intros H. destruct (IH H) as [a0 Ha0]. exists (String c a0).
    rewrite Ha0. reflexivity.
Qed.

Lemma string_app_assoc (a b c : string) : (a +:+ b) +:+ c = a +:+ (b +:+ c).
Proof.
  induction a as [| x a IH]; [reflexivity |].
  change (String x ((a +:+ b) +:+ c) = String x (a +:+ (b +:+ c))).
  now rewrite IH.
Qed.

(** The basename of a name joined to a directory is the name. *)
Lemma basename_path_join dir n :
  has_char "/" n = false -> basename (path_join dir n) = n.
Proof.
  intros Hn. unfold path_join.
  assert (Hjoin : basename
            match dir with
            | EmptyString => n
            | _ => if ends_with_slash dir then dir +:+ n
                   else dir +:+ "/" +:+ n
            end = n).
  { destruct dir as [| c d]; [now apply basename_no_slash |].
    destruct (ends_with_slash (String c d)) eqn:E.
    - destruct (ends_with_slash_split _ E) as [a0 ->].
      rewrite string_app_assoc. simpl. now apply basename_after_slash.
    - now apply basename_after_slash. }
  destruct n as [| c n']; [exact Hjoin |].
  rewrite has_char_cons, orb_false_iff in Hn. destruct Hn as [Hc _].
  destruct c as [[] [] [] [] [] [] [] []]; try exact Hjoin; discriminate.
Qed.

End PyStrFacts.

Module DictFacts.
Import PyDict.
Section Dict.
Context {V : Type}.
Implicit Types (d : dict V) (k : string) (v : V).

Lemma dget_None d k : dget d k = None <-> ~ In k (dkeys d).
Proof.
  induction d as [| [k' v'] d IH]; simpl; [tauto |].
  destruct (String.eqb_spec k k') as [-> | Hne].
  - split; [discriminate | intros H; exfalso; apply H; now left].
  - rewrite IH. split; [intros H [Heq | Hin]; [congruence | tauto] | tauto].
Qed.

Lemma dset_fresh d k v : ~ In k (dkeys d) -> dset d k v = (d ++ [(k, v)])%list.
Proof.
  induction d as [| [k' v'] d IH]; simpl; [reflexivity |].
  intros Hk. destruct (String.eqb_spec k k') as [-> | Hne]; [tauto |].
  rewrite IH by tauto. reflexivity.
Qed.

Lemma dkeys_dset d k v :
  dkeys (dset d k v) =
  match dget d k with Some _ => dkeys d | None => (dkeys d ++ [k])%list end.
Proof.
  induction d as [| [k' v'] d IH]; simpl; [reflexivity |].
  destruct (String.eqb_spec k k') as [-> | Hne]; simpl; [reflexivity |].
  rewrite IH. now destruct (dget d k).
Qed.

Lemma dkeys_dset_nodup d k v : NoDup (dkeys d) -> NoDup (dkeys (dset d k v)).
Proof.
  intros Hd. rewrite dkeys_dset. destruct (dget d k) eqn:E; [exact Hd |].
  apply dget_None in E. apply NoDup_app; repeat split; auto.
  - intros x Hx Hx'. apply list_elem_of_In in Hx, Hx'.
    destruct Hx' as [<- | []]. tauto.
  - apply NoDup_singleton.
Qed.

Lemma of_pairs_acc_nodup (pairs : list (string * V)) : forall d,
  NoDup (dkeys d) ->
  NoDup (dkeys (fold_left (fun d kv => dset d (fst kv) (snd kv)) pairs d)).
Proof.
  induction pairs as [| kv pairs IH]; simpl; auto using dkeys_dset_nodup.
Qed.

(** The keys of a dict built by a comprehension are pairwise distinct. *)
Lemma of_pairs_nodup (pairs : list (string * V)) : NoDup (dkeys (of_pairs pairs)).
Proof. apply of_pairs_acc_nodup. constructor. Qed.

Lemma of_pairs_acc_distinct (pairs : list (string * V)) : forall d,
  List.NoDup (dkeys (d ++ pairs)%list) ->
  fold_left (fun d kv => dset d (fst kv) (snd kv)) pairs d = (d ++ pairs)%list.
Proof.
  induction pairs as [| [k v] pairs IH]; intros d Hd; simpl.
  - now rewrite app_nil_r.
  - assert (Hk : ~ In k (dkeys d)).
    { unfold dkeys in Hd. rewrite map_app in Hd. simpl in Hd.
      apply List.NoDup_remove_2 in Hd. intros Hin. apply Hd.
      apply in_or_app. now left. }
    rewrite (dset_fresh d k v Hk).
    rewrite IH; rewrite <- app_assoc; [reflexivity | exact Hd].
Qed.

(** With pairwise distinct keys the comprehension keeps every pair. *)
Lemma of_pairs_distinct (pairs : list (string * V)) :
  List.NoDup (map fst pairs) -> of_pairs pairs = pairs.
Proof. intros H. exact (of_pairs_acc_distinct pairs [] H). Qed.

End Dict.
End DictFacts.

Module CatalogFacts.
Import PyStr PyDict Catalog Props.

Lemma filter_keeps_all {A} (f : A -> bool) (l : list A) :
  (forall x, f x = true) -> List.filter f l = l.
Proof.
  intros Hf. induction l as [| x l IH]; simpl; [reflexivity |].
  now rewrite Hf, IH.
Qed.

(** With no restriction the filter returns the display-name table. *)
Lemma filter_voices_unrestricted c :
  filter_voices c (Some "All") (Some "All") (Some "") = dvalues (VOICE_DATA c) /\
  filter_voices c None None None = dvalues (VOICE_DATA c).
Proof. split; apply filter_keeps_all; reflexivity. Qed.

(** Where the loaded display names are pairwise distinct, the unrestricted
    filter returns every loaded descriptor, in loading order. *)
Lemma filter_voices_unrestricted_distinct (entries : list provider_voice) :
  List.NoDup (map display_name (all_voices entries)) ->
  filter_voices (load_voices true (Returns entries)) None None None
  = all_voices entries.
Proof.
  intros Hd. rewrite (proj2 (filter_voices_unrestricted _)). simpl.
  fold (all_voices entries). unfold by_display_name.
  rewrite DictFacts.of_pairs_distinct.
  - unfold dvalues. rewrite map_map. simpl. apply map_id.
  - rewrite map_map. exact Hd.
Qed.

(** C5 (as the code has it): /api/voices reports offline mode exactly when
    the catalog has at most three language groups; the built-in fallback
    catalog, loaded when there is no network or the provider call raises,
    is reported as offline. *)
Theorem offline_mode_three_languages :
  (forall c, offline_mode (get_voices c) = true <-> (language_count c <= 3)%nat) /\
  (forall listing, offline_mode (get_voices (load_voices false listing)) = true) /\
  (forall e, offline_mode (get_voices (load_voices true (Raises e))) = true).
Proof.
  split; [| split; reflexivity].
  intros c. unfold get_voices, language_count. simpl.
  apply Nat.leb_le.
Qed.

(** C5, refuted as stated: a catalog loaded from a provider listing of three
    voices in three languages is larger than the fallback set, by language
    groups and by voices, and is still reported as offline. *)
Lemma offline_mode_above_fallback_size :
  let c := load_voices true (Returns three_languages) in
  ~ (offline_mode (get_voices c) = true <->
     (language_count c <= language_count fallback_catalog)%nat) /\
  ~ (offline_mode (get_voices c) = true <->
     (voice_count c <= voice_count fallback_catalog)%nat).
Proof.
  split; intros [H _]; specialize (H eq_refl); vm_compute in H; lia.
Qed.

(** C6, at the failing input: two provider entries with the same friendly
    name and gender. Both descriptors are loaded and grouped under
    "English", and the filter by that language returns both; the
    unrestricted filter omits the first. *)
Theorem filter_all_omits_shared_display_name :
  let c := load_voices true (Returns same_display_name) in
  all_voices same_display_name =
    filter_voices c (Some "English") (Some "All") (Some "") /\
  In descriptor_ava_us (filter_voices c (Some "English") (Some "All") (Some "")) /\
  In descriptor_ava_us (grouped_voices c) /\
  ~ In descriptor_ava_us (filter_voices c (Some "All") (Some "All") (Some "")) /\
  length (filter_voices c (Some "All") (Some "All") (Some "")) = 1%nat /\
  length (all_voices same_display_name) = 2%nat.
Proof.
  cbv zeta. repeat split.
  - vm_compute. now left.
  - vm_compute. now left.
  - vm_compute. intros [H | []]. discriminate H.
Qed.

(** C9 (as the code has it): the search string is lowercased before
    matching against the lowercased display name, so a variant of the search
    string in the case of ASCII letters selects the same descriptors; a
    descriptor named "Ava - Female" is returned for the search "ava". *)
Theorem filter_search_ignores_case c language gender s s' :
  case_variant s s' = true ->
  filter_voices c language gender (Some s') = filter_voices c language gender (Some s) /\
  (forall v, display_name v = "Ava - Female" ->
             In v (dvalues (VOICE_DATA c)) ->
             In v (filter_voices c None None (Some "ava"))).
Proof.
  intros Hcv. split.
  - unfold filter_voices. simpl.
    now rewrite (PyStrFacts.case_variant_lower s s' Hcv).
  - intros v Hname Hin. unfold filter_voices. simpl.
    apply filter_In. split; [exact Hin |].
    unfold keeps. rewrite Hname. reflexivity.
Qed.

Lemma filter_search_ignores_case_witness :
  let c := load_voices true (Returns three_languages) in
  filter_voices c None None (Some "AvA") = filter_voices c None None (Some "ava") /\
  (forall v, display_name v = "Ava - Female" ->
             In v (dvalues (VOICE_DATA c)) ->
             In v (filter_voices c None None (Some "ava"))).
Proof.
  apply (filter_search_ignores_case
           (load_voices true (Returns three_languages)) None None "ava" "AvA").
  reflexivity.
Defined.

(** C9, refuted as stated: [str.lower] is not a case folding. The voice
    named "Işık - Female" is found by the search "Işık" but not by its
    uppercase form "IŞIK", whose lowercase form has a dotted i where the
    display name has a dotless one. *)
Lemma filter_search_misses_uppercase_variant :
  let c := load_voices true (Returns [isik]) in
  upper "Işık" = "IŞIK" /\
  lower "IŞIK" = "işik" /\
  lower "Işık - Female" = "işık - female" /\
  map display_name (filter_voices c None None (Some "Işık"))
  = ["Işık - Female"] /\
  filter_voices c None None (Some "IŞIK") = [].
Proof. vm_compute. repeat split. Qed.

End CatalogFacts.

Module StudioFacts.
Import PyStr PyDict Catalog Rate Studio Props.

Lemma serve_audio_sends_owned TF session_id filename p :
  serve_audio TF session_id filename = SendFile p ->
  exists files, TF !! session_id = Some files /\ In p files /\
                basename p = filename.
Proof.
  unfold serve_audio. destruct (TF !! session_id) as [files |]; [| discriminate].
  destruct (List.find _ files) as [f |] eqn:E; [| discriminate].
  intros [= ->]. apply find_some in E as [Hin Hb].
  exists files. repeat split; auto. now apply String.eqb_eq.
Qed.

Lemma owned_In st session_id p :
  In p (owned st session_id) ->
  exists files, TEMP_FILES st !! session_id = Some files /\ In p files.
Proof.
  unfold owned. destruct (TEMP_FILES st !! session_id) as [files |]; simpl.
  - eauto.
  - intros [].
Qed.

(** C1: POST /api/cleanup answers success and removes the session's entry
    from the registry whatever [os.unlink] did; afterwards
    /audio/<session_id>/<filename> answers 404 for every filename. *)
Theorem cleanup_then_serve_not_found st session uuid unlink_fails filename :
  let o := cleanup_session st session uuid unlink_fails in
  let session_id := fst (get_session_id session uuid) in
  resp o = Json 200 [("success", JBool true)] /\
  out_state o = cleanup_temp_files unlink_fails st session_id /\
  TEMP_FILES (out_state o) !! session_id = None /\
  serve_audio (TEMP_FILES (out_state o)) session_id filename
  = Plain 404 "File not found".
Proof.
  cbv zeta. unfold cleanup_session.
  destruct (get_session_id session uuid) as [session_id session'] eqn:E.
  simpl.
  assert (Hgone : TEMP_FILES (cleanup_temp_files unlink_fails st session_id)
                    !! session_id = None).
  { unfold cleanup_temp_files.
    destruct (TEMP_FILES st !! session_id) eqn:El; simpl.
    - apply lookup_delete_eq.
    - exact El. }
  split; [reflexivity |]. split; [reflexivity |]. split; [exact Hgone |].
  unfold serve_audio. now rewrite Hgone.
Qed.

Lemma random_char_not_slash c :
  has_char c random_chars = true -> Ascii.eqb "/" c = false.
Proof.
  intros H. destruct (Ascii.eqb_spec "/" c) as [<- | ]; [| reflexivity].
  vm_compute in H. discriminate.
Qed.

Lemma random_no_slash r : random_ok r = true -> has_char "/" r = false.
Proof.
  induction r as [| c r IH]; [reflexivity |].
  change (random_ok (String c r)) with (has_char c random_chars && random_ok r).
  rewrite andb_true_iff, PyStrFacts.has_char_cons. intros [Hc Hr].
  now rewrite (random_char_not_slash c Hc), IH.
Qed.

Lemma temp_name_no_slash r :
  random_ok r = true -> has_char "/" (temp_name r) = false.
Proof.
  intros Hr. unfold temp_name.
  rewrite !PyStrFacts.has_char_app, (random_no_slash r Hr). reflexivity.
Qed.

Lemma unlink_keeps_others unlink_fails files : forall (dir : gset string) x,
  x ∈ dir -> ~ In x files -> x ∈ fold_left (unlink_step unlink_fails) files dir.
Proof.
  induction files as [| f files IH]; intros dir x Hx Hn; simpl; [exact Hx |].
  apply IH; [| intros H; apply Hn; now right].
  assert (x <> f) by (intros ->; apply Hn; now left).
  unfold unlink_step. case_bool_decide; [| exact Hx].
  destruct (unlink_fails f); [exact Hx | set_solver].
Qed.

Section Runs.

Variable tempdir : string.
Variable Communicate_save : tts_call -> py unit.
Variable VOICE_DATA : dict voice.

Abbreviation temp_path := (Studio.temp_path tempdir).
Abbreviation handle := (Studio.handle tempdir Communicate_save VOICE_DATA).
Abbreviation run := (Studio.run tempdir Communicate_save VOICE_DATA).
Abbreviation valid_run := (Studio.valid_run tempdir Communicate_save VOICE_DATA).
Abbreviation event_ok := (Studio.event_ok tempdir).
Abbreviation inv := (registry_inv tempdir).

(** The [try] block either leaves the state alone and calls nobody, or
    registers the created file and makes exactly one provider call. *)
Lemma synthesize_cases reply st w text speed vo :
  let o := synthesize tempdir Communicate_save reply st w text speed vo in
  (out_state o = st /\ registered o = None /\ tts_calls o = [] /\
   is_error (resp o) = true /\
   (forall rate r, calculate_rate_parameter speed = Returns rate ->
                   w_tempfile w = Returns r -> False)) \/
  (exists r rate,
      w_tempfile w = Returns r /\
      calculate_rate_parameter speed = Returns rate /\
      let session_id := fst (get_session_id (w_session w) (w_uuid w)) in
      out_state o = with_artifact st session_id (temp_path r) /\
      registered o = Some (session_id, temp_path r) /\
      tts_calls o = [ {| c_text := text; c_voice := obj_short_name vo;
                         c_rate := rate; c_path := temp_path r |} ]).
Proof.
  cbv zeta. unfold synthesize.
  destruct (calculate_rate_parameter speed) as [rate | e].
  - destruct (w_tempfile w) as [r | e].
    + right. exists r, rate.
      destruct (get_session_id (w_session w) (w_uuid w)) as [sid s'].
      simpl. repeat split.
    + left. simpl. repeat split; auto. intros; discriminate.
  - left. simpl. repeat split; auto. intros; discriminate.
Qed.

Lemma handle_cases st ev :
  (out_state (handle st ev) = st /\ registered (handle st ev) = None) \/
  (exists w data r,
      (ev = Preview w data \/ ev = Generate w data) /\
      w_tempfile w = Returns r /\
      let session_id := fst (get_session_id (w_session w) (w_uuid w)) in
      out_state (handle st ev) = with_artifact st session_id (temp_path r) /\
      registered (handle st ev) = Some (session_id, temp_path r)) \/
  (exists session uuid unlink_fails,
      ev = Cleanup session uuid unlink_fails /\
      out_state (handle st ev)
      = cleanup_temp_files unlink_fails st (fst (get_session_id session uuid)) /\
      registered (handle st ev) = None).
Proof.
  destruct ev as [w data | w data | sid f | session uuid uf]; simpl.
  - unfold preview_voice.
    destruct (find_voice_by_input VOICE_DATA (b_voice data)) as [vo |];
      [| left; split; reflexivity].
    match goal with
    | |- context [synthesize _ _ ?reply st w ?text ?speed vo] =>
        destruct (synthesize_cases reply st w text speed vo)
          as [(H1 & H2 & _) | (r & rate & Hr & _ & H1 & H2 & _)]
    end.
    + left. split; assumption.
    + right. left. exists w, data, r. repeat split; auto.
  - unfold generate_speech.
    destruct (negb (truthy (strip (default "" (b_text data)))));
      [left; split; reflexivity |].
    destruct (find_voice_by_input VOICE_DATA (b_voice data)) as [vo |];
      [| left; split; reflexivity].
    match goal with
    | |- context [synthesize _ _ ?reply st w ?text ?speed vo] =>
        destruct (synthesize_cases reply st w text speed vo)
          as [(H1 & H2 & _) | (r & rate & Hr & _ & H1 & H2 & _)]
    end.
    + left. split; assumption.
    + right. left. exists w, data, r. repeat split; auto.
  - left. split; reflexivity.
  - right. right. exists session, uuid, uf. unfold cleanup_session.
    destruct (get_session_id session uuid). repeat split.
Qed.

Lemma inv_init fs0 : inv (init_state fs0).
Proof.
  split; simpl; intros *; rewrite lookup_empty; discriminate.
Qed.

Lemma with_artifact_lookup st a f b files :
  TEMP_FILES (with_artifact st a f) !! b = Some files ->
  (a = b /\ files = (owned st a ++ [f])%list) \/
  (a <> b /\ TEMP_FILES st !! b = Some files).
Proof.
  simpl. destruct (decide (a = b)) as [<- | Hne].
  - rewrite lookup_insert_eq. intros [= <-]. now left.
  - rewrite lookup_insert_ne by exact Hne. now right.
Qed.

Lemma inv_with_artifact st a f :
  inv st -> f ∉ fs st -> temp_named tempdir f -> inv (with_artifact st a f).
Proof.
  intros [Hex Huniq] Hfresh Hnamed. split.
  - intros b files x Hl Hx.
    apply with_artifact_lookup in Hl as [[<- ->] | [Hne Hl]].
    + apply in_app_or in Hx as [Hx | [<- | []]].
      * apply owned_In in Hx as (files0 & Hl0 & Hx0).
        pose proof (Hex _ _ _ Hl0 Hx0) as [? ?].
        split; [now apply elem_of_union_l | assumption].
      * split; [apply elem_of_union_r; now apply elem_of_singleton | assumption].
    + pose proof (Hex _ _ _ Hl Hx) as [? ?].
      split; [now apply elem_of_union_l | assumption].
  - intros b c files_b files_c x Hb Hc Hxb Hxc.
    apply with_artifact_lookup in Hb as [[<- ->] | [Hnb Hb]];
      apply with_artifact_lookup in Hc as [[<- ->] | [Hnc Hc]].
    + reflexivity.
    + apply in_app_or in Hxb as [Hxb | [<- | []]].
      * apply owned_In in Hxb as (files0 & Hl0 & Hx0). eauto.
      * pose proof (Hex _ _ _ Hc Hxc) as [? ?]. contradiction.
    + apply in_app_or in Hxc as [Hxc | [<- | []]].
      * apply owned_In in Hxc as (files0 & Hl0 & Hx0). eauto.
      * pose proof (Hex _ _ _ Hb Hxb) as [? ?]. contradiction.
    + eauto.
Qed.

Lemma inv_cleanup st a unlink_fails :
  inv st -> inv (cleanup_temp_files unlink_fails st a).
Proof.
  intros [Hex Huniq]. unfold cleanup_temp_files.
  destruct (TEMP_FILES st !! a) as [files |] eqn:Ha; [| now split].
  split; simpl.
  - intros b files_b x Hb Hx.
    destruct (decide (a = b)) as [<- | Hne];
      [rewrite lookup_delete_eq in Hb; discriminate |].
    rewrite lookup_delete_ne in Hb by exact Hne.
    destruct (Hex _ _ _ Hb Hx) as [Hfs Hn]. split; [| exact Hn].
    apply unlink_keeps_others; [exact Hfs |].
    intros Hin. apply Hne. eauto.
  - intros b c files_b files_c x Hb Hc.
    destruct (decide (a = b)) as [<- | Hnb];
      [rewrite lookup_delete_eq in Hb; discriminate |].
    destruct (decide (a = c)) as [<- | Hnc];
      [rewrite lookup_delete_eq in Hc; discriminate |].
    rewrite lookup_delete_ne in Hb by exact Hnb.
    rewrite lookup_delete_ne in Hc by exact Hnc. eauto.
Qed.

(** What the temp-file contract gives at an event that registers a path. *)
Lemma registered_fresh st ev session_id p :
  event_ok st ev = true ->
  registered (handle st ev) = Some (session_id, p) ->
  (p ∉ fs st) /\ temp_named tempdir p /\
  out_state (handle st ev) = with_artifact st session_id p.
Proof.
  intros Hok Hreg.
  destruct (handle_cases st ev)
    as [[_ Hnone] | [(w & data & r & Hev & Hr & Hst & Hreg') | (? & ? & ? & _ & _ & Hnone)]];
    try congruence.
  rewrite Hreg' in Hreg. injection Hreg as <- <-.
  assert (Hw : tempfile_ok tempdir st w = true)
    by (destruct Hev as [-> | ->]; exact Hok).
  unfold tempfile_ok in Hw. rewrite Hr in Hw.
  apply andb_true_iff in Hw as [Hrand Hfresh].
  apply bool_decide_eq_true in Hfresh.
  repeat split; [exact Hfresh | | exact Hst].
  exists (temp_name r). split; [now apply temp_name_no_slash | reflexivity].
Qed.

Lemma inv_handle st ev :
  inv st -> event_ok st ev = true -> inv (out_state (handle st ev)).
Proof.
  intros Hinv Hok.
  destruct (handle_cases st ev)
    as [[-> _] | [(w & data & r & _ & _ & _ & Hreg) | (? & ? & uf & _ & -> & _)]].
  - exact Hinv.
  - destruct (registered_fresh st ev _ _ Hok Hreg) as (Hf & Hn & ->).
    now apply inv_with_artifact.
  - now apply inv_cleanup.
Qed.

Lemma run_app evs1 : forall st evs2,
  run st (evs1 ++ evs2) = run (run st evs1) evs2.
Proof. induction evs1 as [| ev evs1 IH]; intros; simpl; auto. Qed.

Lemma valid_run_app evs1 : forall st evs2,
  valid_run st (evs1 ++ evs2)
  = valid_run st evs1 && valid_run (run st evs1) evs2.
Proof.
  induction evs1 as [| ev evs1 IH]; intros; simpl; [reflexivity |].
  now rewrite IH, andb_assoc.
Qed.

Lemma inv_run evs : forall st,
  inv st -> valid_run st evs = true -> inv (run st evs).
Proof.
  induction evs as [| ev evs IH]; intros st Hinv Hv; simpl in *; [exact Hinv |].
  apply andb_true_iff in Hv as [Hok Hv]. apply IH; [| exact Hv].
  now apply inv_handle.
Qed.

Lemma owned_with_artifact st a f b :
  owned (with_artifact st a f) b
  = if decide (a = b) then (owned st a ++ [f])%list else owned st b.
Proof.
  unfold owned at 1. simpl. destruct (decide (a = b)) as [<- | Hne].
  - now rewrite lookup_insert_eq.
  - now rewrite lookup_insert_ne.
Qed.

Lemma owned_cleanup_other st a b unlink_fails :
  a <> b -> owned (cleanup_temp_files unlink_fails st a) b = owned st b.
Proof.
  intros Hne. unfold cleanup_temp_files.
  destruct (TEMP_FILES st !! a); [| reflexivity].
  unfold owned. simpl. now rewrite lookup_delete_ne.
Qed.

(** A registered path stays registered across an event that does not
    clean up its session. *)
Lemma owned_kept_by_event st ev session_id p :
  In p (owned st session_id) -> purges session_id ev = false ->
  In p (owned (out_state (handle st ev)) session_id).
Proof.
  intros Hin Hpurge.
  destruct (handle_cases st ev)
    as [[-> _] | [(w & data & r & _ & _ & -> & _) | (se & u & uf & -> & -> & _)]].
  - exact Hin.
  - rewrite owned_with_artifact. case_decide as Heq; [| exact Hin].
    rewrite Heq. apply in_or_app. now left.
  - rewrite owned_cleanup_other; [exact Hin |].
    simpl in Hpurge. now apply String.eqb_neq in Hpurge.
Qed.

Lemma owned_kept_by_run evs : forall st session_id p,
  In p (owned st session_id) ->
  forallb (fun ev => negb (purges session_id ev)) evs = true ->
  In p (owned (run st evs) session_id).
Proof.
  induction evs as [| ev evs IH]; intros st sid p Hin Hnp; simpl in *;
    [exact Hin |].
  apply andb_true_iff in Hnp as [Hev Hnp]. apply negb_true_iff in Hev.
  apply IH; [| exact Hnp]. now apply owned_kept_by_event.
Qed.

(** Under the invariant a session is served each of its own paths under
    the path's basename. *)
Lemma serve_audio_own st session_id p :
  inv st -> In p (owned st session_id) ->
  serve_audio (TEMP_FILES st) session_id (basename p) = SendFile p.
Proof.
  intros [Hex _] Hin. apply owned_In in Hin as (files & Hl & Hin).
  unfold serve_audio. rewrite Hl.
  destruct (List.find _ files) as [f |] eqn:E.
  - apply find_some in E as [Hf Hb]. apply String.eqb_eq in Hb.
    destruct (Hex _ _ _ Hl Hf) as [_ (n & Hn & ->)].
    destruct (Hex _ _ _ Hl Hin) as [_ (n' & Hn' & ->)].
    rewrite !PyStrFacts.basename_path_join in Hb by assumption.
    now subst.
  - apply (find_none _ _ E) in Hin. simpl in Hin.
    now rewrite String.eqb_refl in Hin.
Qed.

(** C2: in every state the server reaches, a path registered under session
    A is never sent in answer to /audio/B/<filename> for another session B,
    whatever the filename; the answer is computed from B's own entry of
    the registry and from nothing else. *)
Theorem other_session_never_served fs0 evs A B p filename :
  valid_run (init_state fs0) evs = true ->
  A <> B ->
  In p (owned (run (init_state fs0) evs) A) ->
  let TF := TEMP_FILES (run (init_state fs0) evs) in
  serve_audio TF B filename <> SendFile p /\
  serve_audio TF B (basename p) <> SendFile p /\
  (forall TF' : gmap string (list string),
      TF' !! B = TF !! B -> serve_audio TF' B filename = serve_audio TF B filename).
Proof.
  intros Hv Hne Hin. cbv zeta.
  pose proof (inv_run evs _ (inv_init fs0) Hv) as [_ Huniq].
  apply owned_In in Hin as (files_a & Ha & Hin).
  assert (Hnot : forall name,
             serve_audio (TEMP_FILES (run (init_state fs0) evs)) B name
             <> SendFile p).
  { intros name Hs.
    apply serve_audio_sends_owned in Hs as (files_b & Hb & Hinb & _).
    apply Hne. eauto. }
  repeat split; auto.
  intros TF' Heq. unfold serve_audio. now rewrite Heq.
Qed.

(** A success response of a synthesis handler names a registered path. *)
Lemma success_names_registered st ev :
  (exists w data, ev = Preview w data \/ ev = Generate w data) ->
  is_error (resp (handle st ev)) = false ->
  exists session_id p,
    registered (handle st ev) = Some (session_id, p) /\
    In ("audio_url", JStr (audio_url session_id p))
       match resp (handle st ev) with Json _ obj => obj | _ => [] end.
Proof.
  intros (w & data & Hev) Hok.
  assert (Hsyn : forall reply text speed vo,
      (forall a b, In ("audio_url", JStr (audio_url a b))
                      match reply a b with Json _ obj => obj | _ => [] end) ->
      let o := synthesize tempdir Communicate_save reply st w text speed vo in
      is_error (resp o) = false ->
      exists session_id p,
        registered o = Some (session_id, p) /\
        In ("audio_url", JStr (audio_url session_id p))
           match resp o with Json _ obj => obj | _ => [] end).
  { intros reply text speed vo Hreply. cbv zeta. unfold synthesize.
    destruct (calculate_rate_parameter speed); [| discriminate].
    destruct (w_tempfile w); [| discriminate].
    destruct (get_session_id (w_session w) (w_uuid w)) as [sid s'].
    simpl. destruct (Communicate_save _); [| discriminate].
    intros _. eexists _, _. split; [reflexivity | apply Hreply]. }
  destruct Hev as [-> | ->]; simpl in *.
  - unfold preview_voice in *.
    destruct (find_voice_by_input VOICE_DATA (b_voice data)); [| discriminate].
    apply Hsyn; [| exact Hok]. intros; now left.
  - unfold generate_speech in *.
    destruct (negb (truthy (strip (default "" (b_text data)))));
      [discriminate |].
    destruct (find_voice_by_input VOICE_DATA (b_voice data)); [| discriminate].
    apply Hsyn; [| exact Hok]. intros; now left.
Qed.

Lemma existsb_find {A} (f : A -> bool) (l : list A) :
  existsb f l = match List.find f l with Some _ => true | None => false end.
Proof.
  induction l as [| x l IH]; simpl; [reflexivity |].
  destruct (f x); [reflexivity | exact IH].
Qed.

Lemma dget_In {V} (d : dict V) k v : dget d k = Some v -> In v (dvalues d).
Proof.
  induction d as [| [k' v'] d IH]; simpl; [discriminate |].
  destruct (String.eqb k k'); [intros [= ->]; now left | auto].
Qed.

(** The lookup on a non-empty identifier: the descriptor stored under that
    display name, else the first descriptor with that short name, else the
    identifier alone. *)
Lemma find_voice_by_input_cases name :
  name <> "" ->
  exists vo, find_voice_by_input VOICE_DATA (Some name) = Some vo /\
    if resolvable VOICE_DATA name
    then exists v, vo = Descriptor v /\ In v (dvalues VOICE_DATA) /\
                   (dget VOICE_DATA name = Some v \/ short_name v = name)
    else vo = ShortNameOnly name.
Proof.
  intros Hne. unfold find_voice_by_input, resolvable.
  destruct name as [| c name]; [congruence |]. simpl negb. cbv iota.
  destruct (dget VOICE_DATA (String c name)) as [v |] eqn:Hget.
  - eexists. split; [reflexivity |]. exists v.
    repeat split; eauto using dget_In.
  - rewrite existsb_find.
    destruct (List.find _ (dvalues VOICE_DATA)) as [v |] eqn:Hfind.
    + eexists. split; [reflexivity |]. exists v.
      apply find_some in Hfind as [Hin Hs]. apply String.eqb_eq in Hs.
      repeat split; auto.
    + eexists. split; reflexivity.
Qed.

Lemma synthesize_calls reply st w text speed vo call :
  In call (tts_calls (synthesize tempdir Communicate_save reply st w text speed vo)) ->
  c_voice call = obj_short_name vo /\ c_text call = text.
Proof.
  destruct (synthesize_cases reply st w text speed vo)
    as [(_ & _ & -> & _) | (r & rate & _ & _ & _ & _ & ->)].
  - intros [].
  - intros [<- | []]. split; reflexivity.
Qed.

Lemma handler_calls st w data call :
  In call (tts_calls (preview_voice tempdir Communicate_save VOICE_DATA st w data) ++
           tts_calls (generate_speech tempdir Communicate_save VOICE_DATA st w data)) ->
  exists vo, find_voice_by_input VOICE_DATA (b_voice data) = Some vo /\
             c_voice call = obj_short_name vo.
Proof.
  intros Hin. apply in_app_or in Hin.
  unfold preview_voice, generate_speech in Hin.
  destruct (find_voice_by_input VOICE_DATA (b_voice data)) as [vo |].
  - exists vo. split; [reflexivity |].
    destruct Hin as [Hin | Hin].
    + now apply synthesize_calls in Hin.
    + destruct (negb (truthy (strip (default "" (b_text data)))));
        [destruct Hin |].
      now apply synthesize_calls in Hin.
  - destruct (negb (truthy (strip (default "" (b_text data)))));
      destruct Hin as [[] | []].
Qed.

(** The short name a non-empty identifier is synthesized with: that of
    the descriptor stored under it as a display name, else the identifier
    itself, be it some descriptor's short name or not. *)
Lemma find_voice_by_input_short_name name :
  name <> "" ->
  exists vo, find_voice_by_input VOICE_DATA (Some name) = Some vo /\
    obj_short_name vo = match dget VOICE_DATA name with
                        | Some v => short_name v
                        | None => name
                        end.
Proof.
  intros Hne. unfold find_voice_by_input.
  destruct name as [| c name]; [congruence |]. simpl negb. cbv iota.
  destruct (dget VOICE_DATA (String c name)) as [v |];
    [eexists; split; reflexivity |].
  destruct (List.find _ (dvalues VOICE_DATA)) as [v |] eqn:Hfind.
  - apply find_some in Hfind as [_ Hs]. apply String.eqb_eq in Hs.
    eexists. split; [reflexivity | exact Hs].
  - eexists. split; reflexivity.
Qed.

(** C7 (as the code has it): a missing or empty voice identifier is answered
    400 with no provider call and no effect. Every other identifier decides
    the provider's voice by itself: the short name of the descriptor stored
    under it as display name, else the identifier unchanged. With such an
    identifier (and, for /api/generate, a text that is not blank) the
    request stops with a 500 and no call when the rate or the temp file
    fails, and otherwise calls the provider exactly once, with that voice,
    and answers with the audio URL, or with a 500 carrying the provider's
    message when the provider raises. *)
Theorem voice_decides_provider_call st w data :
  let p := preview_voice tempdir Communicate_save VOICE_DATA st w data in
  let g := generate_speech tempdir Communicate_save VOICE_DATA st w data in
  let speed := default 1%float (b_speed data) in
  let ptext := default "Hello! This is a preview." (b_text data) in
  let gtext := strip (default "" (b_text data)) in
  let session_id := fst (get_session_id (w_session w) (w_uuid w)) in
  ((b_voice data = None \/ b_voice data = Some "") ->
   resp p = Json 400 [("error", JStr "Invalid voice")] /\
   tts_calls p = [] /\ out_state p = st /\
   resp g = Json 400 [("error", JStr (if truthy gtext then "Invalid voice"
                                      else "No text provided"))] /\
   tts_calls g = [] /\ out_state g = st) /\
  (forall name, b_voice data = Some name -> name <> "" ->
     let voice := match dget VOICE_DATA name with
                  | Some v => short_name v
                  | None => name
                  end in
     (gtext = "" ->
      resp g = Json 400 [("error", JStr "No text provided")] /\
      tts_calls g = []) /\
     (forall e,
         calculate_rate_parameter speed = Raises e \/
         (w_tempfile w = Raises e /\
          exists rate, calculate_rate_parameter speed = Returns rate) ->
         resp p = Json 500 [("error", JStr e)] /\ tts_calls p = [] /\
         (gtext <> "" ->
          resp g = Json 500 [("error", JStr e)] /\ tts_calls g = [])) /\
     (forall rate r,
         calculate_rate_parameter speed = Returns rate ->
         w_tempfile w = Returns r ->
         let call text := {| c_text := text; c_voice := voice;
                             c_rate := rate; c_path := temp_path r |} in
         tts_calls p = [call ptext] /\
         resp p = match Communicate_save (call ptext) with
                  | Returns _ =>
                      Json 200 [("audio_url",
                                 JStr (audio_url session_id (temp_path r)))]
                  | Raises e => Json 500 [("error", JStr e)]
                  end /\
         (gtext <> "" ->
          tts_calls g = [call gtext] /\
          resp g = match Communicate_save (call gtext) with
                   | Returns _ =>
                       Json 200 [("audio_url",
                                  JStr (audio_url session_id (temp_path r)));
                                 ("filename", JStr (basename (temp_path r)))]
                   | Raises e => Json 500 [("error", JStr e)]
                   end))).
Proof.
  cbv zeta. split.
  - intros Hv. unfold preview_voice, generate_speech.
    assert (Hnone : find_voice_by_input VOICE_DATA (b_voice data) = None)
      by (destruct Hv as [-> | ->]; reflexivity).
    rewrite Hnone.
    destruct (truthy (strip (default "" (b_text data)))); repeat split.
  - intros name Hname Hne.
    destruct (find_voice_by_input_short_name name Hne) as (vo & Hfind & Hshort).
    unfold preview_voice, generate_speech. rewrite Hname, Hfind, <- Hshort.
    assert (Htruthy : strip (default "" (b_text data)) <> "" ->
                      truthy (strip (default "" (b_text data))) = true).
    { unfold truthy. now destruct (strip (default "" (b_text data))). }
    split; [| split].
    + intros ->. split; reflexivity.
    + intros e He. unfold synthesize.
      destruct He as [-> | [-> [rate ->]]];
        (split; [reflexivity |]); (split; [reflexivity |]);
        intros Hg; rewrite (Htruthy Hg); split; reflexivity.
    + intros rate r Hrate Hr. unfold synthesize. rewrite Hrate, Hr.
      destruct (get_session_id (w_session w) (w_uuid w)) as [sid s'].
      simpl. split; [reflexivity |]. split; [reflexivity |].
      intros Hg. rewrite (Htruthy Hg). split; reflexivity.
Qed.

(** C10: with no "text" key /api/preview behaves as if the text were
    "Hello! This is a preview.": with a non-empty voice it never answers
    400, and once the rate and the temp file are there the provider is
    called with that text. /api/generate answers 400 "No text provided",
    without calling the provider, when the text is missing, empty or
    blank. *)
Theorem preview_defaults_text_generate_rejects st w data :
  (b_text data = None ->
   let p := preview_voice tempdir Communicate_save VOICE_DATA st w data in
   p = preview_voice tempdir Communicate_save VOICE_DATA st w
         {| b_voice := b_voice data; b_speed := b_speed data;
            b_text := Some "Hello! This is a preview." |} /\
   (forall call, In call (tts_calls p) ->
                 c_text call = "Hello! This is a preview.") /\
   (forall name, b_voice data = Some name -> name <> "" ->
      status_of (resp p) <> 400%nat /\
      forall rate r,
        calculate_rate_parameter (default 1%float (b_speed data)) = Returns rate ->
        w_tempfile w = Returns r ->
        exists call, tts_calls p = [call] /\
                     c_text call = "Hello! This is a preview.")) /\
  (strip (default "" (b_text data)) = "" ->
   let g := generate_speech tempdir Communicate_save VOICE_DATA st w data in
   resp g = Json 400 [("error", JStr "No text provided")] /\
   is_error (resp g) = true /\ tts_calls g = [] /\ out_state g = st).
Proof.
  split.
  - intros Htext. cbv zeta. unfold preview_voice. rewrite Htext. simpl.
    split; [reflexivity |]. split.
    + intros call.
      destruct (find_voice_by_input VOICE_DATA (b_voice data)) as [vo |];
        [| intros []].
      intros Hin. now apply synthesize_calls in Hin.
    + intros name Hname Hne. rewrite Hname.
      destruct (find_voice_by_input_cases name Hne) as (vo & -> & _).
      split.
      * unfold synthesize.
        destruct (calculate_rate_parameter _); [| simpl; discriminate].
        destruct (w_tempfile w); [| simpl; discriminate].
        destruct (get_session_id _ _). simpl.
        destruct (Communicate_save _); simpl; discriminate.
      * intros rate r Hrate Hr.
        match goal with
        | |- context [synthesize _ _ ?reply st w ?text ?speed vo] =>
            destruct (synthesize_cases reply st w text speed vo)
              as [(_ & _ & _ & _ & Hno) | (r' & rate' & _ & _ & _ & _ & ->)]
        end.
        -- destruct (Hno rate r Hrate Hr).
        -- eexists. split; reflexivity.
  - intros Hblank. cbv zeta. unfold generate_speech. rewrite Hblank.
    repeat split.
Qed.

End Runs.

Lemma other_session_never_served_witness :
  let TF := TEMP_FILES (run "/tmp" provider_ok fallback_table (init_state ∅)
                          [first_preview; other_preview]) in
  serve_audio TF "s2" "tmpabcd1234.mp3" <> SendFile "/tmp/tmpabcd1234.mp3" /\
  serve_audio TF "s2" (basename "/tmp/tmpabcd1234.mp3")
  <> SendFile "/tmp/tmpabcd1234.mp3" /\
  (forall TF' : gmap string (list string),
      TF' !! "s2" = TF !! "s2" ->
      serve_audio TF' "s2" "tmpabcd1234.mp3" = serve_audio TF "s2" "tmpabcd1234.mp3").
Proof.
  apply (other_session_never_served "/tmp" provider_ok fallback_table ∅
           [first_preview; other_preview] "s1" "s2"
           "/tmp/tmpabcd1234.mp3" "tmpabcd1234.mp3").
  - vm_compute. reflexivity.
  - discriminate.
  - vm_compute. left. reflexivity.
Defined.

(** C7, refuted as stated: with the fallback catalog loaded, the identifier
    "en-US-AvaNeural" names no descriptor, yet both handlers call the
    provider with it and answer with an audio URL, not an error. *)
Lemma unresolvable_voice_is_synthesized :
  let w := client None "s1" "abcd1234" in
  let data := say_hi "en-US-AvaNeural" in
  let p := preview_voice "/tmp" provider_ok fallback_table (init_state ∅) w data in
  let g := generate_speech "/tmp" provider_ok fallback_table (init_state ∅) w data in
  resolvable fallback_table "en-US-AvaNeural" = false /\
  is_error (resp p) = false /\ is_error (resp g) = false /\
  resp p = Json 200 [("audio_url", JStr "/audio/s1/tmpabcd1234.mp3")] /\
  map c_voice (tts_calls p) = ["en-US-AvaNeural"] /\
  map c_voice (tts_calls g) = ["en-US-AvaNeural"].
Proof. vm_compute. repeat split. Qed.

Lemma voice_decides_provider_call_witness :
  let w := client None "s1" "abcd1234" in
  let p := preview_voice "/tmp" provider_ok fallback_table (init_state ∅) w
             (say_hi "en-US-AvaNeural") in
  tts_calls p = [ {| c_text := "Hi"; c_voice := "en-US-AvaNeural";
                     c_rate := "+0%"; c_path := "/tmp/tmpabcd1234.mp3" |} ] /\
  resp p = Json 200 [("audio_url", JStr "/audio/s1/tmpabcd1234.mp3")].
Proof.
  destruct (proj2 (voice_decides_provider_call "/tmp" provider_ok
                     fallback_table (init_state ∅) (client None "s1" "abcd1234")
                     (say_hi "en-US-AvaNeural"))
                  "en-US-AvaNeural" eq_refl ltac:(discriminate))
    as (_ & _ & Hcall).
  destruct (Hcall "+0%" "abcd1234" eq_refl eq_refl) as (Hc & Hr & _).
  split; [exact Hc | exact Hr].
Defined.

Lemma preview_defaults_text_generate_rejects_witness :
  let w := client None "s1" "abcd1234" in
  let data := no_text "en-US-JennyNeural" in
  resp (generate_speech "/tmp" provider_ok fallback_table (init_state ∅) w data)
  = Json 400 [("error", JStr "No text provided")] /\
  (forall call,
      In call (tts_calls (preview_voice "/tmp" provider_ok fallback_table
                            (init_state ∅) w data)) ->
      c_text call = "Hello! This is a preview.").
Proof.
  pose proof (preview_defaults_text_generate_rejects "/tmp" provider_ok
                fallback_table (init_state ∅) (client None "s1" "abcd1234")
                (no_text "en-US-JennyNeural")) as [Hp Hg].
  split.
  - exact (proj1 (Hg eq_refl)).
  - exact (proj1 (proj2 (Hp eq_refl))).
Defined.

End StudioFacts.

Module TranscribeFacts.
Import PyDict Transcribe Props.

(** C8 (as the code has it): with no engine configured, a request that
    carries an "audio" part with a non-empty filename is answered with the
    placeholder success response naming "Mock Engine". *)
Theorem mock_engine_when_audio_present io files audio_file :
  dget files "audio" = Some audio_file ->
  filename audio_file <> "" ->
  transcribe_upload None io files
  = Json 200
      [("success", JBool true);
       ("engine", JStr "Mock Engine");
       ("transcript",
        JStr "This is a mock transcription. Install whisper engines for real transcription.");
       ("full_text", JStr "Mock transcription text")] /\
  is_error (transcribe_upload None io files) = false.
Proof.
  intros Hget Hname. unfold transcribe_upload. rewrite Hget.
  apply String.eqb_neq in Hname. rewrite Hname. split; reflexivity.
Qed.

Lemma mock_engine_when_audio_present_witness :
  is_error (transcribe_upload None working_disk
              [("audio", sample_upload)]) = false.
Proof.
  apply (mock_engine_when_audio_present working_disk
           [("audio", sample_upload)] sample_upload).
  - reflexivity.
  - discriminate.
Defined.

(** C8, refuted as stated: with no engine configured, a request without an
    "audio" part, or with one whose filename is empty, is answered with a
    400 error. *)
Lemma no_engine_still_validates_upload :
  transcribe_upload None working_disk []
  = Json 400 [("error", JStr "No audio file provided")] /\
  is_error (transcribe_upload None working_disk []) = true /\
  transcribe_upload None working_disk [("audio", unnamed_upload)]
  = Json 400 [("error", JStr "No file selected")].
Proof. repeat split. Qed.

End TranscribeFacts.

(** ** Further properties of the dict model and of the loader *)

Module DictLookupFacts.
Import PyDict.
Section Dict.
Context {V : Type}.
Implicit Types (d : dict V) (k : string) (v : V).

Lemma dget_dset d k v k' :
  dget (dset d k v) k' = if String.eqb k' k then Some v else dget d k'.
Proof.
  induction d as [| [k0 v0] d IH]; simpl; [reflexivity |].
  destruct (String.eqb_spec k k0) as [-> | Hne]; simpl.
  - destruct (String.eqb k' k0); reflexivity.
  - rewrite IH. destruct (String.eqb_spec k' k0) as [-> | Hne'];
      [| reflexivity].
    apply String.eqb_neq in Hne. rewrite String.eqb_sym in Hne.
    now rewrite Hne.
Qed.

Lemma dset_dset d k a b : dset (dset d k a) k b = dset d k b.
Proof.
  induction d as [| [k0 v0] d IH]; simpl.
  - now rewrite String.eqb_refl.
  - destruct (String.eqb k k0) eqn:E; simpl; rewrite E; [reflexivity |].
    now rewrite IH.
Qed.

Lemma dget_pair_In d k v : dget d k = Some v -> In (k, v) d.
Proof.
  induction d as [| [k0 v0] d IH]; simpl; [discriminate |].
  destruct (String.eqb_spec k k0) as [-> | Hne].
  - intros [= ->]. now left.
  - intros H. right. auto.
Qed.

Lemma In_dget d k v : NoDup (dkeys d) -> In (k, v) d -> dget d k = Some v.
Proof.
  induction d as [| [k0 v0] d IH]; simpl; [intros _ [] |].
  intros Hnd [Heq | Hin].
  - injection Heq as -> ->. now rewrite String.eqb_refl.
  - apply NoDup_cons in Hnd as [Hk0 Hnd].
    destruct (String.eqb_spec k k0) as [-> | Hne]; [| auto].
    exfalso. apply Hk0. apply list_elem_of_In.
    change k0 with (fst (k0, v)). now apply in_map.
Qed.

Lemma length_dset d k v : (length (dset d k v) <= S (length d))%nat.
Proof.
  induction d as [| [k0 v0] d IH]; simpl; [lia |].
  destruct (String.eqb k k0); simpl; lia.
Qed.

Lemma length_of_pairs_acc (pairs : list (string * V)) : forall d,
  (length (fold_left (fun d kv => dset d (fst kv) (snd kv)) pairs d)
   <= length d + length pairs)%nat.
Proof.
  induction pairs as [| [k v] pairs IH]; intros d; simpl; [lia |].
  specialize (IH (dset d k v)). pose proof (length_dset d k v). lia.
Qed.

Lemma dget_app_last d k0 v0 k :
  dget (d ++ [(k0, v0)])%list k =
  match dget d k with
  | Some v => Some v
  | None => if String.eqb k k0 then Some v0 else None
  end.
Proof.
  induction d as [| [k1 v1] d IH]; simpl; [reflexivity |].
  destruct (String.eqb k k1); [reflexivity | exact IH].
Qed.

Lemma dget_fold_rev (pairs : list (string * V)) : forall d k,
  dget (fold_left (fun d kv => dset d (fst kv) (snd kv)) pairs d) k =
  match dget (rev pairs) k with
  | Some v => Some v
  | None => dget d k
  end.
Proof.
  induction pairs as [| [k0 v0] pairs IH]; intros d k; simpl; [reflexivity |].
  rewrite IH, dget_app_last, dget_dset.
  destruct (dget (rev pairs) k); [reflexivity |].
  destruct (String.eqb k k0); reflexivity.
Qed.

(** A dict comprehension maps a key to the value of the last pair that
    carries it. *)
Lemma dget_of_pairs (pairs : list (string * V)) k :
  dget (of_pairs pairs) k = dget (rev pairs) k.
Proof.
  unfold of_pairs. rewrite dget_fold_rev.
  now destruct (dget (rev pairs) k).
Qed.

Lemma In_of_pairs (pairs : list (string * V)) k v :
  In (k, v) (of_pairs pairs) -> In (k, v) pairs.
Proof.
  intros Hin. apply In_dget in Hin; [| apply DictFacts.of_pairs_nodup].
  rewrite dget_of_pairs in Hin. apply dget_pair_In in Hin.
  now apply in_rev.
Qed.

End Dict.
End DictLookupFacts.

Module LoaderFacts.
Import PyStr PyDict Catalog Props Notions DictLookupFacts.

Lemma append_nonempty (a b : string) : b <> "" -> a +:+ b <> "".
Proof. destruct a; [auto | discriminate]. Qed.

(** What the loop body builds from an entry it does not skip. *)
Lemma voice_of_provider_Some e v :
  voice_of_provider e = Some v ->
  short_name v = default "" (ShortName e) /\ short_name v <> "" /\
  display_name v <> "" /\ info v = e.
Proof.
  unfold voice_of_provider.
  destruct (default "" (ShortName e)) as [| c sn] eqn:Hs; simpl;
    [discriminate |].
  intros [= <-]. simpl. repeat split; try discriminate.
  apply append_nonempty. discriminate.
Qed.

Lemma voice_of_provider_None e :
  voice_of_provider e = None <-> default "" (ShortName e) = "".
Proof.
  unfold voice_of_provider.
  destruct (default "" (ShortName e)); simpl; split; congruence.
Qed.

Lemma load_step_Some acc e v :
  voice_of_provider e = Some v ->
  load_step acc e =
  (dset (fst acc) (language v)
     (default [] (dget (fst acc) (language v)) ++ [v])%list,
   (snd acc ++ [v])%list).
Proof.
  intros Hv. unfold load_step. rewrite Hv.
  destruct (dget (fst acc) (language v)) eqn:Hg.
  - now rewrite Hg.
  - rewrite dget_dset, String.eqb_refl, dset_dset. reflexivity.
Qed.

Lemma load_collects entries : forall acc,
  snd (fold_left load_step entries acc)
  = (snd acc ++ omap voice_of_provider entries)%list.
Proof.
  induction entries as [| e entries IH]; intros acc; simpl.
  - now rewrite app_nil_r.
  - rewrite IH. destruct (voice_of_provider e) as [v |] eqn:Hv.
    + rewrite (load_step_Some acc e v Hv). simpl. now rewrite <- app_assoc.
    + unfold load_step. now rewrite Hv.
Qed.

Lemma all_voices_omap entries :
  all_voices entries = omap voice_of_provider entries.
Proof. unfold all_voices. now rewrite load_collects. Qed.

Lemma concat_dset_append (d : dict (list voice)) k v :
  concat (dvalues (dset d k (default [] (dget d k) ++ [v])%list))
  ≡ₚ (concat (dvalues d) ++ [v])%list.
Proof.
  induction d as [| [k0 vs] d IH]; simpl; [reflexivity |].
  destruct (String.eqb k k0); simpl.
  - rewrite <- !app_assoc. apply Permutation_app_head, Permutation_app_comm.
  - unfold dvalues in IH. rewrite IH. now rewrite app_assoc.
Qed.

Lemma load_groups_perm entries : forall acc,
  concat (dvalues (fst acc)) ≡ₚ snd acc ->
  concat (dvalues (fst (fold_left load_step entries acc)))
  ≡ₚ snd (fold_left load_step entries acc).
Proof.
  induction entries as [| e entries IH]; intros acc Hacc; simpl; [exact Hacc |].
  apply IH. destruct (voice_of_provider e) as [v |] eqn:Hv.
  - rewrite (load_step_Some acc e v Hv). simpl.
    rewrite concat_dset_append. now rewrite Hacc.
  - unfold load_step. now rewrite Hv.
Qed.

Lemma load_groups_ok entries : forall acc,
  group_ok (fst acc) -> group_ok (fst (fold_left load_step entries acc)).
Proof.
  induction entries as [| e entries IH]; intros acc Hacc; simpl; [exact Hacc |].
  apply IH. destruct (voice_of_provider e) as [v |] eqn:Hv;
    [| unfold load_step; now rewrite Hv].
  rewrite (load_step_Some acc e v Hv). simpl.
  destruct Hacc as [Hnd Hok]. split; [now apply DictFacts.dkeys_dset_nodup |].
  intros L vs. rewrite dget_dset.
  destruct (String.eqb_spec L (language v)) as [-> | Hne]; [| apply Hok].
  intros [= <-]. split; [now destruct (default [] _) |].
  intros x Hx. apply in_app_or in Hx as [Hx | [<- | []]].
  - destruct (dget (fst acc) (language v)) as [old |] eqn:Hold; [| destruct Hx].
    exact (proj2 (Hok _ _ Hold) x Hx).
  - destruct (voice_of_provider_Some e v Hv) as (_ & ? & ? & _). auto.
Qed.

Lemma fallback_group_ok : group_ok (LANGUAGE_VOICES fallback_catalog).
Proof.
  split.
  - simpl. apply NoDup_singleton.
  - intros L vs. simpl. destruct (String.eqb_spec L "English") as [-> | ];
      [| discriminate].
    intros [= <-]. split; [discriminate |].
    intros v [<- | [<- | []]]; repeat split; discriminate.
Qed.

Lemma loaded_group_ok online listing :
  group_ok (LANGUAGE_VOICES (load_voices online listing)).
Proof.
  unfold load_voices. destruct online; simpl; [| apply fallback_group_ok].
  destruct listing as [entries | e]; [| apply fallback_group_ok]. simpl.
  apply load_groups_ok. split; [constructor | discriminate].
Qed.

(** X1: whatever the provider lists, every language group of the loaded
    catalog is non-empty and holds only descriptors of that language, each
    with a non-empty short name and display name; no language is listed
    twice. *)
Theorem loaded_groups_well_formed online listing :
  NoDup (languages (get_voices (load_voices online listing))) /\
  forall L vs,
    In (L, vs) (voices (get_voices (load_voices online listing))) ->
    vs <> [] /\
    forall v, In v vs ->
      language v = L /\ short_name v <> "" /\ display_name v <> "".
Proof.
  destruct (loaded_group_ok online listing) as [Hnd Hok].
  split; [exact Hnd |].
  intros L vs Hin. apply Hok. now apply In_dget.
Qed.

(** X2: the loader skips exactly the entries without a short name: the
    descriptors listed under the language groups are, up to order, the
    descriptors built from the entries that have one, and each such entry
    is listed with its short name and itself as [info]. *)
Theorem loader_keeps_named_entries entries :
  let c := load_voices true (Returns entries) in
  grouped_voices c ≡ₚ omap voice_of_provider entries /\
  all_voices entries = omap voice_of_provider entries /\
  (forall e, In e entries ->
     match ShortName e with
     | Some (String _ _ as sn) =>
         exists v, In v (grouped_voices c) /\ short_name v = sn /\ info v = e
     | _ => voice_of_provider e = None
     end).
Proof.
  cbv zeta.
  assert (Hperm : grouped_voices (load_voices true (Returns entries))
                  ≡ₚ omap voice_of_provider entries).
  { unfold grouped_voices. simpl. rewrite <- all_voices_omap.
    apply load_groups_perm. reflexivity. }
  split; [exact Hperm |]. split; [apply all_voices_omap |].
  intros e He.
  destruct (ShortName e) as [[| ch sn] |] eqn:Hs;
    try (apply voice_of_provider_None; now rewrite Hs).
  destruct (voice_of_provider e) as [v |] eqn:Hv.
  - exists v. destruct (voice_of_provider_Some e v Hv) as (Hsn & _ & _ & Hinfo).
    rewrite Hs in Hsn. repeat split; auto.
    apply list_elem_of_In. rewrite Hperm. apply list_elem_of_omap.
    exists e. split; [now apply list_elem_of_In | exact Hv].
  - apply voice_of_provider_None in Hv. rewrite Hs in Hv. discriminate.
Qed.

Lemma dget_by_display_name l name :
  dget (by_display_name l) name = last_named name l.
Proof.
  unfold by_display_name, last_named. rewrite dget_of_pairs, <- map_rev.
  induction (rev l) as [| v r IH]; simpl; [reflexivity |].
  rewrite String.eqb_sym. now destruct (String.eqb (display_name v) name).
Qed.

(** X3: the display-name table of a catalog loaded from the provider maps
    a name to the last loaded descriptor that bears it, and to nothing when
    no loaded descriptor does. *)
Theorem table_holds_last_named entries name :
  dget (VOICE_DATA (load_voices true (Returns entries))) name
  = last_named name (all_voices entries).
Proof. simpl. apply dget_by_display_name. Qed.

End LoaderFacts.

Module LookupFacts.
Import PyStr PyDict Catalog Props Notions DictLookupFacts LoaderFacts Studio.

Lemma by_display_name_ok (l : list voice) :
  (forall v, In v l -> display_name v <> "" /\ short_name v <> "") ->
  table_ok (by_display_name l).
Proof.
  intros Hl. split; [apply DictFacts.of_pairs_nodup |].
  intros k v Hin. apply In_of_pairs in Hin.
  apply in_map_iff in Hin as (v' & [= <- <-] & Hv'). split; auto.
Qed.

Lemma loaded_table_ok online listing :
  table_ok (VOICE_DATA (load_voices online listing)).
Proof.
  assert (Hfb : table_ok (VOICE_DATA fallback_catalog)).
  { apply by_display_name_ok.
    intros v [<- | [<- | []]]; split; discriminate. }
  unfold load_voices. destruct online; simpl; [| exact Hfb].
  destruct listing as [entries | e]; [| exact Hfb]. simpl.
  apply by_display_name_ok. intros v Hv.
  fold (all_voices entries) in Hv. rewrite all_voices_omap in Hv.
  apply list_elem_of_In, list_elem_of_omap in Hv as (e & _ & He).
  destruct (voice_of_provider_Some e v He) as (_ & ? & ? & _). auto.
Qed.

(** X4: the count reported as total_voices never exceeds the number of
    descriptors listed under the language groups, and equals it when the
    loaded display names are pairwise distinct. *)
Theorem total_voices_at_most_listed entries :
  let c := load_voices true (Returns entries) in
  (total_voices (get_voices c) <= length (grouped_voices c))%nat /\
  (List.NoDup (map display_name (all_voices entries)) ->
   total_voices (get_voices c) = length (grouped_voices c)).
Proof.
  cbv zeta.
  destruct (loader_keeps_named_entries entries) as (Hperm & Hall & _).
  apply Permutation_length in Hperm. rewrite <- Hall in Hperm.
  simpl in *. fold (all_voices entries). rewrite Hperm. split.
  - unfold by_display_name, of_pairs.
    pose proof (length_of_pairs_acc
                  (map (fun v => (display_name v, v)) (all_voices entries)) [])
      as Hlen.
    rewrite length_map in Hlen. exact Hlen.
  - intros Hd. unfold by_display_name.
    rewrite DictFacts.of_pairs_distinct; [apply length_map |].
    now rewrite map_map.
Qed.

(** X5: every descriptor of the display-name table of a loaded catalog is
    found again by its display name. *)
Theorem lookup_by_display_name_finds online listing v :
  In v (dvalues (VOICE_DATA (load_voices online listing))) ->
  find_voice_by_input (VOICE_DATA (load_voices online listing))
    (Some (display_name v)) = Some (Descriptor v).
Proof.
  intros Hin. destruct (loaded_table_ok online listing) as [Hnd Hok].
  apply in_map_iff in Hin as ([k v'] & Heq & Hin). simpl in Heq. subst v'.
  destruct (Hok _ _ Hin) as (-> & Hname & _).
  apply (In_dget _ _ _ Hnd) in Hin.
  unfold find_voice_by_input.
  destruct (display_name v) as [| ch name]; [congruence |].
  simpl negb. cbv iota. now rewrite Hin.
Qed.

(** X6: unless the identifier is a display name of the table, the short
    name the lookup yields is the identifier itself, whether or not a
    descriptor carries it. *)
Theorem lookup_keeps_identifier (table : dict voice) name :
  name <> "" -> dget table name = None ->
  exists vo, find_voice_by_input table (Some name) = Some vo /\
             obj_short_name vo = name.
Proof.
  intros Hne Hget. unfold find_voice_by_input.
  destruct name as [| ch name]; [congruence |]. simpl negb. cbv iota.
  rewrite Hget.
  destruct (List.find _ (dvalues table)) as [v |] eqn:Hfind.
  - eexists. split; [reflexivity |].
    apply find_some in Hfind as [_ Hs]. now apply String.eqb_eq in Hs.
  - eexists. split; reflexivity.
Qed.

(** X7: with a loaded catalog, neither synthesis handler ever calls the
    provider with an empty voice name. *)
Theorem provider_voice_never_empty tempdir Communicate_save online listing
    st w data call :
  let table := VOICE_DATA (load_voices online listing) in
  In call (tts_calls (preview_voice tempdir Communicate_save table st w data) ++
           tts_calls (generate_speech tempdir Communicate_save table st w data)) ->
  c_voice call <> "".
Proof.
  cbv zeta. intros Hin.
  destruct (StudioFacts.handler_calls _ _ _ _ _ _ _ Hin) as (vo & Hfind & ->).
  destruct (loaded_table_ok online listing) as [_ Hok].
  destruct (b_voice data) as [name |]; [| discriminate].
  assert (Hne : name <> "") by (intros ->; discriminate).
  destruct (StudioFacts.find_voice_by_input_cases
              (VOICE_DATA (load_voices online listing)) name Hne)
    as (vo' & Hfind' & Hres).
  rewrite Hfind in Hfind'. injection Hfind' as <-.
  destruct (resolvable _ name).
  - destruct Hres as (v & -> & Hv & _). simpl.
    apply in_map_iff in Hv as ([k v'] & Heq & Hv). simpl in Heq. subst v'.
    now destruct (Hok _ _ Hv) as (_ & _ & ?).
  - now subst vo.
Qed.

End LookupFacts.

Module Utf8Facts.
Import UnicodeData PyStr Props.

Ltac divlia := zify; Z.to_euclidean_division_equations; lia.

Lemma chars_nil s : chars s = [] -> s = EmptyString.
Proof.
  destruct s as [| b s]; [reflexivity |]. simpl.
  destruct (chars s) as [| ch more]; [discriminate |].
  destruct (starts_with_continuation ch); discriminate.
Qed.

Lemma chars_head s ch more :
  chars s = ch :: more ->
  starts_with_continuation ch = starts_with_continuation s.
Proof.
  destruct s as [| b s]; [discriminate |]. simpl.
  destruct (chars s) as [| c m]; [now intros [= <- <-] |].
  destruct (starts_with_continuation c); now intros [= <- <-].
Qed.

Lemma join_app (a b : list string) : join (a ++ b) = join a +:+ join b.
Proof.
  induction a as [| x a IH]; simpl; [reflexivity |].
  now rewrite IH, PyStrFacts.string_app_assoc.
Qed.

(** Cutting a string into characters loses nothing. *)
Lemma join_chars s : join (chars s) = s.
Proof.
  induction s as [| b s IH]; [reflexivity |]. simpl.
  destruct (chars s) as [| ch more] eqn:E.
  - simpl in IH. now subst s.
  - destruct (starts_with_continuation ch); now rewrite <- IH.
Qed.

Lemma chars_app a b :
  clean b = true -> chars (a +:+ b) = (chars a ++ chars b)%list.
Proof.
  unfold clean. rewrite negb_true_iff. intros Hb.
  induction a as [| x a IH]; [reflexivity |].
  change (String x a +:+ b) with (String x (a +:+ b)).
  simpl. rewrite IH.
  destruct (chars a) as [| ch more] eqn:Ea; simpl.
  - destruct (chars b) as [| ch more] eqn:Eb; [reflexivity |].
    now rewrite (chars_head b ch more Eb), Hb.
  - now destruct (starts_with_continuation ch).
Qed.

Lemma chars_continuation t : forall b,
  all_continuation t = true -> chars (String b t) = [String b t].
Proof.
  induction t as [| c t IH]; intros b Ht; [reflexivity |].
  change (is_continuation c && all_continuation t = true) in Ht.
  apply andb_true_iff in Ht as [Hc Ht].
  change (chars (String b (String c t)))
    with (match chars (String c t) with
          | ch :: more =>
              if starts_with_continuation ch then String b ch :: more
              else String b EmptyString :: ch :: more
          | [] => [String b EmptyString]
          end).
  rewrite (IH c Ht).
  change (starts_with_continuation (String c t)) with (is_continuation c).
  now rewrite Hc.
Qed.

Lemma chars_chunk ch : is_chunk ch = true -> chars ch = [ch].
Proof.
  destruct ch as [| b t]; [discriminate |]. apply chars_continuation.
Qed.

(** Every character but the first begins with a leading byte. *)
Lemma chars_clean_tail s : Forall (fun ch => clean ch = true) (tail (chars s)).
Proof.
  induction s as [| b s IH]; simpl; [constructor |].
  destruct (chars s) as [| ch more]; [constructor |].
  destruct (starts_with_continuation ch) eqn:E; simpl in *; [exact IH |].
  constructor; [| exact IH]. unfold clean. now rewrite E.
Qed.

Lemma join_clean l :
  Forall (fun o => clean o = true) l -> clean (join l) = true.
Proof.
  induction 1 as [| o l Ho _ IH]; [reflexivity |]. simpl.
  destruct o as [| c o]; [exact IH | exact Ho].
Qed.

Lemma chars_join l :
  Forall (fun o => clean o = true) (tail l) ->
  chars (join l) = concat (map chars l).
Proof.
  induction l as [| o l IH]; intros Hl; [reflexivity |]. simpl in *.
  rewrite chars_app by now apply join_clean.
  f_equal. apply IH. destruct l; [constructor |].
  apply Forall_cons in Hl as [_ Hl]. exact Hl.
Qed.

Lemma join_concat_chars l : join (concat (map chars l)) = join l.
Proof.
  induction l as [| o l IH]; [reflexivity |]. simpl.
  now rewrite join_app, join_chars, IH.
Qed.

Lemma chars_join_chunks l :
  Forall (fun ch => is_chunk ch = true) l ->
  Forall (fun ch => clean ch = true) (tail l) ->
  chars (join l) = l.
Proof.
  intros Hc Hl. rewrite chars_join by exact Hl.
  clear Hl. induction Hc as [| ch l Hch _ IH]; [reflexivity |].
  simpl. now rewrite (chars_chunk ch Hch), IH.
Qed.

(** *** One code point and its bytes *)

Lemma N_of_byte k : (k < 256)%N -> N_of_ascii (byte k) = k.
Proof. apply N_ascii_embedding. Qed.

Lemma continuation_byte k :
  (k < 64)%N ->
  is_continuation (byte (128 + k)) = true /\
  continuation_bits (byte (128 + k)) = Some k.
Proof.
  intros Hk. unfold continuation_bits, is_continuation.
  rewrite N_of_byte by lia.
  assert (H : ((128 <=? 128 + k) && (128 + k <? 192))%N = true).
  { apply andb_true_iff. split; [apply N.leb_le | apply N.ltb_lt]; lia. }
  rewrite H. split; [reflexivity |]. f_equal. lia.
Qed.

Lemma lead_byte_not_continuation k :
  (192 <= k < 256)%N -> is_continuation (byte k) = false.
Proof.
  intros Hk. unfold is_continuation. rewrite N_of_byte by lia.
  apply andb_false_iff. right. apply N.ltb_ge. lia.
Qed.

(** The bytes of a code point are one character, and decode to it. *)
Lemma encode_spec n :
  (n < 0x110000)%N ->
  code_point (encode n) = Some n /\ is_chunk (encode n) = true /\
  clean (encode n) = true.
Proof.
  intros Hn. unfold encode, clean.
  destruct (N.ltb_spec n 128) as [H1 | H1].
  - simpl. unfold is_ascii, is_continuation. rewrite N_of_byte by lia.
    rewrite (proj2 (N.ltb_lt n 128) H1).
    repeat split. rewrite negb_true_iff.
    apply andb_false_iff. left. apply N.leb_gt. lia.
  - destruct (N.ltb_spec n 2048) as [H2 | H2].
    + destruct (continuation_byte (n mod 64)) as [Hc1 Hb1]; [divlia |].
      simpl. rewrite Hb1, Hc1, N_of_byte by divlia.
      rewrite lead_byte_not_continuation by divlia.
      assert (H : ((192 <=? 192 + n / 64) && (192 + n / 64 <? 224))%N = true).
      { apply andb_true_iff. split; [apply N.leb_le | apply N.ltb_lt]; divlia. }
      rewrite H. repeat split. f_equal. divlia.
    + destruct (N.ltb_spec n 65536) as [H3 | H3].
      * destruct (continuation_byte (n mod 64)) as [Hc1 Hb1]; [divlia |].
        destruct (continuation_byte ((n / 64) mod 64)) as [Hc2 Hb2]; [divlia |].
        simpl. rewrite Hb1, Hc1, Hb2, Hc2, N_of_byte by divlia.
        rewrite lead_byte_not_continuation by divlia.
        assert (H : ((224 <=? 224 + n / 4096) && (224 + n / 4096 <? 240))%N
                    = true).
        { apply andb_true_iff.
          split; [apply N.leb_le | apply N.ltb_lt]; divlia. }
        rewrite H. repeat split. f_equal. divlia.
      * destruct (continuation_byte (n mod 64)) as [Hc1 Hb1]; [divlia |].
        destruct (continuation_byte ((n / 64) mod 64)) as [Hc2 Hb2]; [divlia |].
        destruct (continuation_byte ((n / 4096) mod 64)) as [Hc3 Hb3];
          [divlia |].
        simpl. rewrite Hb1, Hc1, Hb2, Hc2, Hb3, Hc3, N_of_byte by divlia.
        rewrite lead_byte_not_continuation by divlia.
        assert (H : ((240 <=? 240 + n / 262144) && (240 + n / 262144 <? 248))%N
                    = true).
        { apply andb_true_iff.
          split; [apply N.leb_le | apply N.ltb_lt]; divlia. }
        rewrite H. repeat split. f_equal. divlia.
Qed.



(** *** The tables *)

Lemma in_range_points n range :
  (fst range <= n <= snd range)%N -> In n (range_points range).
Proof.
  intros H. unfold range_points. apply in_map_iff.
  exists (N.to_nat (n - fst range)). split; [lia |].
  apply in_seq. lia.
Qed.

Lemma in_ranges_points n ranges :
  in_ranges n ranges = true -> In n (flat_map range_points ranges).
Proof.
  unfold in_ranges. intros H. apply existsb_exists in H as (range & Hin & H).
  apply andb_true_iff in H as [H1 H2].
  apply N.leb_le in H1. apply N.leb_le in H2.
  apply in_flat_map. exists range. split; [exact Hin |].
  now apply in_range_points.
Qed.

Lemma spaces_ok : forallb space_ok (flat_map range_points space_ranges) = true.
Proof. vm_compute. reflexivity. Qed.

Lemma lower_runs_ok : forallb run_ok lower_runs = true.
Proof. vm_compute. reflexivity. Qed.

Lemma lower_special_ok : forallb special_ok lower_special = true.
Proof. vm_compute. reflexivity. Qed.

Lemma run_ok_point n run :
  run_ok run = true -> in_run n run = true ->
  let '(first, _, _, target) := run in
  point_ok (target + (n - first)) = true.
Proof.
  destruct run as [[[first last] stride] target]. unfold run_ok, in_run.
  intros Hok Hin.
  apply andb_true_iff in Hok as [Hb Hsp].
  apply andb_true_iff in Hb as [Hfl Hb].
  apply N.leb_le in Hfl. apply N.ltb_lt in Hb.
  apply andb_true_iff in Hin as [Hin _].
  apply andb_true_iff in Hin as [H1 H2].
  apply N.leb_le in H1. apply N.leb_le in H2.
  unfold point_ok. apply andb_true_iff. split; [apply N.ltb_lt; lia |].
  apply negb_true_iff. unfold in_ranges.
  destruct (existsb _ space_ranges) eqn:E; [| reflexivity].
  apply existsb_exists in E as (range & Hr & E).
  apply andb_true_iff in E as [E1 E2].
  apply N.leb_le in E1. apply N.leb_le in E2.
  rewrite forallb_forall in Hsp. specialize (Hsp range Hr).
  apply orb_true_iff in Hsp as [Hsp | Hsp]; apply N.ltb_lt in Hsp; lia.
Qed.

(** A lowercase mapping is a non-empty list of code points, none of them
    white space. *)
Lemma lower_points_ok n points :
  map_point lower_runs lower_special n = Some points ->
  points <> [] /\ forallb point_ok points = true.
Proof.
  unfold map_point.
  destruct (find _ lower_special) as [entry |] eqn:Es.
  - intros [= <-]. apply find_some in Es as [Hin _].
    pose proof lower_special_ok as Hok. rewrite forallb_forall in Hok.
    specialize (Hok entry Hin). unfold special_ok in Hok.
    destruct (snd entry) as [| p ps]; [discriminate |].
    split; [discriminate | exact Hok].
  - destruct (find _ lower_runs) as [run |] eqn:Er; [| discriminate].
    apply find_some in Er as [Hin Hrun].
    pose proof lower_runs_ok as Hok. rewrite forallb_forall in Hok.
    pose proof (run_ok_point n run (Hok run Hin) Hrun) as Hp.
    destruct run as [[[first last] stride] target].
    intros [= <-]. split; [discriminate |]. simpl. now rewrite Hp.
Qed.

(** *** Characters and their code points *)

Lemma code_point_clean ch n : code_point ch = Some n -> clean ch = true.
Proof.
  unfold clean. destruct ch as [| b0 t]; [discriminate |].
  change (starts_with_continuation (String b0 t)) with (is_continuation b0).
  intros H. apply negb_true_iff.
  destruct (is_continuation b0) eqn:Hc; [| reflexivity].
  pose proof (PyStrFacts.continuation_not_ascii b0 Hc) as Ha.
  unfold is_continuation in Hc. apply andb_true_iff in Hc as [_ Hc].
  apply N.ltb_lt in Hc.
  assert (H192 : (192 <=? N_of_ascii b0)%N = false) by (apply N.leb_gt; lia).
  assert (H224 : (224 <=? N_of_ascii b0)%N = false) by (apply N.leb_gt; lia).
  assert (H240 : (240 <=? N_of_ascii b0)%N = false) by (apply N.leb_gt; lia).
  unfold code_point in H.
  destruct t as [| b1 [| b2 [| b3 [| b4 t]]]].
  - now rewrite Ha in H.
  - destruct (continuation_bits b1); [| discriminate].
    now rewrite H192 in H.
  - destruct (continuation_bits b1); [| discriminate].
    destruct (continuation_bits b2); [| discriminate].
    now rewrite H224 in H.
  - destruct (continuation_bits b1); [| discriminate].
    destruct (continuation_bits b2); [| discriminate].
    destruct (continuation_bits b3); [| discriminate].
    now rewrite H240 in H.
  - discriminate.
Qed.

Lemma isspace_point ch :
  isspace ch = true ->
  exists n, code_point ch = Some n /\ in_ranges n space_ranges = true.
Proof.
  unfold isspace, has_property.
  destruct (code_point ch) as [n |]; [| discriminate]. now exists n.
Qed.

(** A white-space character has no case and lowercases to itself. *)
Lemma space_chunk ch :
  isspace ch = true ->
  lower_chunk ch = ch /\ cased ch = false /\ case_ignorable ch = false /\
  String.eqb ch (encode capital_sigma) = false.
Proof.
  intros H. destruct (isspace_point ch H) as (n & Hcp & Hn).
  pose proof spaces_ok as Hok. rewrite forallb_forall in Hok.
  specialize (Hok n (in_ranges_points n _ Hn)). unfold space_ok in Hok.
  apply andb_true_iff in Hok as [Hok Hsigma].
  apply andb_true_iff in Hok as [Hok Hign].
  apply andb_true_iff in Hok as [Hmap Hcased].
  apply negb_true_iff in Hsigma, Hign, Hcased.
  unfold lower_chunk, cased, case_ignorable, has_property. rewrite Hcp.
  destruct (map_point lower_runs lower_special n); [discriminate |].
  repeat split; try assumption.
  destruct (String.eqb_spec ch (encode capital_sigma)) as [-> |];
    [| reflexivity].
  vm_compute in Hcp. injection Hcp as <-. vm_compute in Hsigma. discriminate.
Qed.

Lemma fold_ascii_continuation t :
  all_continuation t = true ->
  fold_ascii lower_char t = t.
Proof.
  induction t as [| c t IH]; [reflexivity |]. intros H.
  change (is_continuation c && all_continuation t = true) in H.
  apply andb_true_iff in H as [Hc Ht].
  change (fold_ascii lower_char (String c t))
    with (String (lower_char c) (fold_ascii lower_char t)).
  rewrite (IH Ht).
  destruct (PyStrFacts.ascii_case_keeps_class c) as (_ & _ & _ & _ & Hfix).
  destruct (Hfix (PyStrFacts.continuation_not_ascii c Hc)) as [_ ->].
  reflexivity.
Qed.

(** Bytes that are no character stay so when ASCII letters are folded. *)
Lemma fold_ascii_chunk ch :
  is_chunk ch = true -> code_point ch = None ->
  let o := fold_ascii lower_char ch in
  is_chunk o = true /\ code_point o = None /\
  starts_with_continuation o = starts_with_continuation ch.
Proof.
  destruct ch as [| b t]; [discriminate |]. intros Ht Hcp.
  change (all_continuation t = true) in Ht.
  change (fold_ascii lower_char (String b t))
    with (String (lower_char b) (fold_ascii lower_char t)).
  cbv zeta. rewrite (fold_ascii_continuation t Ht).
  destruct (PyStrFacts.ascii_case_keeps_class b) as (_ & Hcont & _ & Hasc & Hfix).
  split; [exact Ht |]. split; [| exact Hcont].
  destruct (is_ascii b) eqn:Hb.
  - destruct t as [| c t].
    + unfold code_point in Hcp. now rewrite Hb in Hcp.
    + apply PyStrFacts.code_point_ascii_head. now rewrite Hasc.
  - destruct (Hfix eq_refl) as [_ ->]. exact Hcp.
Qed.

End Utf8Facts.


(** ** [str.strip] and [str.lower] *)

Module StripFacts.
Import UnicodeData PyStr Props Utf8Facts.

Abbreviation spaces := (Forall (fun ch => isspace ch = true)).
Abbreviation chunks := (Forall (fun ch => is_chunk ch = true)).
Abbreviation clean_tail l := (Forall (fun ch => clean ch = true) (tail l)).

(** *** Trimming a list of characters *)

Lemma ltrim_spaces ws l : spaces ws -> ltrim (ws ++ l) = ltrim l.
Proof.
  induction 1 as [| ch ws Hch _ IH]; [reflexivity |]. simpl. now rewrite Hch.
Qed.

Lemma ltrim_unspaced l : starts_unspaced l = true -> ltrim l = l.
Proof.
  destruct l as [| ch l]; [reflexivity |]. simpl.
  intros H. apply negb_true_iff in H. now rewrite H.
Qed.

Lemma spaces_rev ws : spaces ws -> spaces (rev ws).
Proof. intros H. now apply Forall_rev. Qed.

Lemma rtrim_spaces l ws : spaces ws -> rtrim (l ++ ws) = rtrim l.
Proof.
  intros H. unfold rtrim. rewrite rev_app_distr.
  now rewrite ltrim_spaces by now apply spaces_rev.
Qed.

Lemma rtrim_unspaced l : starts_unspaced (rev l) = true -> rtrim l = l.
Proof.
  intros H. unfold rtrim. rewrite ltrim_unspaced by exact H.
  apply rev_involutive.
Qed.

Lemma starts_unspaced_app l ws :
  l <> [] -> starts_unspaced (l ++ ws) = starts_unspaced l.
Proof. now destruct l. Qed.

Lemma ltrim_all_spaces ws : spaces ws -> ltrim ws = [].
Proof.
  intros H. rewrite <- (app_nil_r ws). now rewrite ltrim_spaces.
Qed.

(** White space around a trimmed list is all that trimming removes. *)
Lemma trim_core ws1 l ws2 :
  spaces ws1 -> spaces ws2 -> trimmed l = true ->
  rtrim (ltrim (ws1 ++ l ++ ws2)) = l.
Proof.
  intros H1 H2 Hl. apply andb_true_iff in Hl as [Hhead Hlast].
  rewrite ltrim_spaces by exact H1.
  destruct l as [| ch l].
  - simpl. rewrite ltrim_all_spaces by exact H2. reflexivity.
  - rewrite ltrim_unspaced
      by (rewrite starts_unspaced_app by discriminate; exact Hhead).
    rewrite rtrim_spaces by exact H2. now apply rtrim_unspaced.
Qed.

Lemma ltrim_decompose l :
  exists ws rest, l = (ws ++ rest)%list /\ spaces ws /\
                  starts_unspaced rest = true /\ ltrim l = rest.
Proof.
  induction l as [| ch l (ws & rest & -> & Hws & Hrest & Htrim)].
  - exists [], []. repeat split. constructor.
  - destruct (isspace ch) eqn:E.
    + exists (ch :: ws), rest. repeat split; try assumption.
      * now constructor.
      * simpl. now rewrite E.
    + exists [], (ch :: ws ++ rest)%list. repeat split.
      * constructor.
      * simpl. now rewrite E.
      * simpl. now rewrite E.
Qed.

(** Every list of characters is a trimmed one between white space. *)
Lemma trim_decompose l :
  exists ws1 core ws2,
    l = (ws1 ++ core ++ ws2)%list /\ spaces ws1 /\ spaces ws2 /\
    trimmed core = true.
Proof.
  destruct (ltrim_decompose l) as (ws1 & rest & -> & H1 & Hrest & _).
  destruct (ltrim_decompose (rev rest)) as (ws & core & E & Hws & Hcore & _).
  assert (Erest : rest = (rev core ++ rev ws)%list).
  { rewrite <- (rev_involutive rest), E. apply rev_app_distr. }
  destruct core as [| ch core].
  - simpl in Erest. exists ws1, [], rest. repeat split; try assumption.
    subst rest. now apply spaces_rev.
  - exists ws1, (rev (ch :: core)), (rev ws). subst rest.
    repeat split; try assumption; [now apply spaces_rev |].
    unfold trimmed. rewrite rev_involutive, Hcore, andb_true_r.
    rewrite starts_unspaced_app in Hrest; [exact Hrest |].
    simpl. now destruct (rev core).
Qed.

(** *** Characters of a part of a string *)

Lemma clean_tail_app a b : clean_tail (a ++ b) -> clean_tail a /\ clean_tail b.
Proof.
  destruct a as [| x a]; simpl.
  - intros H. split; [constructor |]. exact H.
  - intros H. apply Forall_app in H as [Ha Hb]. split; [exact Ha |].
    destruct b; [constructor |]. apply Forall_cons in Hb as [_ Hb]. exact Hb.
Qed.

Lemma concat_chars_chunks l : chunks l -> concat (map chars l) = l.
Proof.
  induction 1 as [| ch l Hch _ IH]; [reflexivity |].
  simpl. now rewrite (chars_chunk ch Hch), IH.
Qed.

(** *** What lowercasing does to one character *)

Lemma single_trimmed o :
  is_chunk o = true -> isspace o = false ->
  chars o <> [] /\ trimmed (chars o) = true.
Proof.
  intros Hc Hs. rewrite (chars_chunk o Hc). split; [discriminate |].
  unfold trimmed. simpl. now rewrite Hs.
Qed.

Lemma isspace_encode p :
  (p <? 0x110000)%N = true ->
  isspace (encode p) = in_ranges p space_ranges.
Proof.
  intros H. apply N.ltb_lt in H. destruct (encode_spec p H) as (Hcp & _).
  unfold isspace, has_property. now rewrite Hcp.
Qed.

Lemma encode_all_chars points :
  forallb point_ok points = true ->
  chars (encode_all points) = map encode points /\
  clean (encode_all points) = true.
Proof.
  intros H. rewrite forallb_forall in H.
  assert (Hall : Forall (fun o => is_chunk o = true /\ clean o = true)
                   (map encode points)).
  { apply Forall_forall. intros o Ho. rewrite list_elem_of_In in Ho.
    apply in_map_iff in Ho as (p & <- & Hp).
    specialize (H p Hp). apply andb_true_iff in H as [H _].
    apply N.ltb_lt in H. now destruct (encode_spec p H) as (_ & ? & ?). }
  unfold encode_all. split.
  - apply chars_join_chunks.
    + eapply Forall_impl; [exact Hall |]. now intros o [? _].
    + destruct (map encode points) as [| o l]; [constructor |].
      apply Forall_cons in Hall as [_ Hall].
      eapply Forall_impl; [exact Hall |]. now intros ? [_ ?].
  - apply join_clean.
    eapply Forall_impl; [exact Hall |]. now intros o [_ ?].
Qed.

Lemma encode_all_trimmed points :
  points <> [] -> forallb point_ok points = true ->
  chars (encode_all points) <> [] /\ trimmed (chars (encode_all points)) = true.
Proof.
  intros Hne Hok. destruct (encode_all_chars points Hok) as [-> _].
  rewrite forallb_forall in Hok.
  assert (Hsp : forall p, In p points -> isspace (encode p) = false).
  { intros p Hp. specialize (Hok p Hp).
    apply andb_true_iff in Hok as [Hlt Hsp].
    rewrite (isspace_encode p Hlt). now apply negb_true_iff. }
  split; [now destruct points |].
  unfold trimmed. apply andb_true_iff. split.
  - destruct points as [| p ps]; [reflexivity |]. simpl.
    now rewrite Hsp by now left.
  - rewrite <- map_rev.
    destruct (rev points) as [| p ps] eqn:E; [reflexivity |]. simpl.
    rewrite Hsp; [reflexivity |]. apply in_rev. rewrite E. now left.
Qed.

Lemma lower_chunk_output ch :
  is_chunk ch = true -> lower_output ch (lower_chunk ch).
Proof.
  intros Hch. unfold lower_output, lower_chunk.
  destruct (code_point ch) as [n |] eqn:Hcp.
  - destruct (map_point lower_runs lower_special n) as [points |] eqn:Hmap.
    + destruct (lower_points_ok n points Hmap) as [Hne Hok].
      destruct (encode_all_chars points Hok) as [_ Hclean].
      pose proof (code_point_clean ch n Hcp) as Hclean'.
      unfold clean in Hclean, Hclean'. apply negb_true_iff in Hclean, Hclean'.
      split; [congruence |]. split.
      * intros Hs. destruct (space_chunk ch Hs) as (Hl & _).
        unfold lower_chunk in Hl. now rewrite Hcp, Hmap in Hl.
      * intros _. now apply encode_all_trimmed.
    + split; [reflexivity |]. split; [reflexivity |].
      intros Hs. now apply single_trimmed.
  - destruct (fold_ascii_chunk ch Hch Hcp) as (Ho & Hcpo & Hstart).
    split; [exact Hstart |]. split.
    + intros Hs. unfold isspace, has_property in Hs. now rewrite Hcp in Hs.
    + intros _. apply single_trimmed; [exact Ho |].
      unfold isspace, has_property. now rewrite Hcpo.
Qed.

Lemma sigma_output o :
  o = encode final_sigma \/ o = encode small_sigma ->
  lower_output (encode capital_sigma) o.
Proof.
  intros [-> | ->]; (split; [reflexivity |]); (split; [discriminate |]);
    intros _; (split; [discriminate | reflexivity]).
Qed.

(** *** Lowercasing a list of characters *)

Lemma lower_chunks_output l :
  chunks l -> forall ctx, Forall2 lower_output l (lower_chunks ctx l).
Proof.
  induction 1 as [| ch l Hch _ IH]; intros ctx; simpl; constructor.
  - destruct (String.eqb_spec ch (encode capital_sigma)) as [-> |].
    + apply sigma_output.
      destruct (ctx && negb (followed_by_cased l)); auto.
    + now apply lower_chunk_output.
  - apply IH.
Qed.

Lemma lower_chunks_spaces ws :
  spaces ws -> forall ctx, lower_chunks ctx ws = ws.
Proof.
  induction 1 as [| ch ws Hch _ IH]; intros ctx; [reflexivity |]. simpl.
  destruct (space_chunk ch Hch) as (-> & -> & -> & ->). now rewrite IH.
Qed.

Lemma lower_chunks_after_spaces ws l :
  spaces ws -> lower_chunks false (ws ++ l) = (ws ++ lower_chunks false l)%list.
Proof.
  induction 1 as [| ch ws Hch _ IH]; [reflexivity |]. simpl.
  destruct (space_chunk ch Hch) as (-> & -> & -> & ->). now rewrite IH.
Qed.

Lemma followed_by_cased_spaces l ws :
  spaces ws -> followed_by_cased (l ++ ws) = followed_by_cased l.
Proof.
  intros Hws. induction l as [| ch l IH]; simpl.
  - destruct Hws as [| w ws Hw _]; [reflexivity |]. simpl.
    now destruct (space_chunk w Hw) as (_ & -> & -> & _).
  - now rewrite IH.
Qed.

Lemma lower_chunks_before_spaces l ws :
  spaces ws ->
  forall ctx, lower_chunks ctx (l ++ ws) = (lower_chunks ctx l ++ ws)%list.
Proof.
  intros Hws. induction l as [| ch l IH]; intros ctx; simpl.
  - now apply lower_chunks_spaces.
  - now rewrite IH, followed_by_cased_spaces.
Qed.

Lemma lower_output_clean_tail l o :
  Forall2 lower_output l o -> clean_tail l -> clean_tail o.
Proof.
  intros H. destruct H as [| ch x l o _ H]; [intros _; constructor |]. simpl.
  induction H as [| c y l o (Hy & _) _ IH]; intros Hl; [constructor |].
  apply Forall_cons in Hl as [Hc Hl]. constructor; [| now apply IH].
  unfold clean in *. now rewrite Hy.
Qed.

Lemma lower_output_starts l o :
  Forall2 lower_output l o -> starts_unspaced l = true -> l <> [] ->
  starts_unspaced (concat (map chars o)) = true /\ concat (map chars o) <> [].
Proof.
  intros H. destruct H as [| ch x l o (_ & _ & Hx) _]; [easy |].
  simpl. intros Hs _. apply negb_true_iff in Hs.
  destruct (Hx Hs) as [Hne Ht]. apply andb_true_iff in Ht as [Ht _].
  destruct (chars x) as [| c r]; [easy |]. now split.
Qed.

Lemma lower_output_rev l o :
  Forall2 lower_output l o -> Forall2 lower_output (rev l) (rev o).
Proof.
  induction 1; simpl; [constructor |].
  apply Forall2_app; [assumption |]. constructor; [assumption | constructor].
Qed.

Lemma lower_output_ends l o :
  Forall2 lower_output l o -> starts_unspaced (rev l) = true -> l <> [] ->
  starts_unspaced (rev (concat (map chars o))) = true.
Proof.
  intros H Hs Hne. apply lower_output_rev in H.
  assert (Eo : o = rev (rev o)) by now rewrite rev_involutive.
  assert (El : l = rev (rev l)) by now rewrite rev_involutive.
  revert H Hs Eo El. generalize (rev l) as rl, (rev o) as ro.
  intros rl ro H Hs Eo El.
  destruct H as [| ch x l' o' (_ & _ & Hx) _].
  - now subst l.
  - simpl in Hs. apply negb_true_iff in Hs.
    destruct (Hx Hs) as [Hcx Ht]. apply andb_true_iff in Ht as [_ Ht].
    rewrite Eo. simpl. rewrite map_app, concat_app, rev_app_distr. simpl.
    rewrite app_nil_r.
    destruct (rev (chars x)) as [| c r] eqn:Er; [| exact Ht].
    exfalso. apply Hcx. rewrite <- (rev_involutive (chars x)). now rewrite Er.
Qed.

(** The characters of a lowercased trimmed list are trimmed. *)
Lemma lower_output_trimmed l o :
  Forall2 lower_output l o -> trimmed l = true ->
  trimmed (concat (map chars o)) = true.
Proof.
  intros H Hl. destruct l as [| ch l].
  - inversion H. reflexivity.
  - apply andb_true_iff in Hl as [Hhead Hlast].
    unfold trimmed. apply andb_true_iff. split.
    + now apply (lower_output_starts _ _ H).
    + now apply (lower_output_ends _ _ H).
Qed.

(** *** The two operations commute *)

Lemma strip_core s ws1 core ws2 :
  chars s = (ws1 ++ core ++ ws2)%list -> spaces ws1 -> spaces ws2 ->
  trimmed core = true ->
  strip s = join core /\ chars (join core) = core /\ chunks core /\
  chunks ws1 /\ chunks ws2.
Proof.
  intros E H1 H2 Hcore.
  pose proof (PyStrFacts.chars_are_chunks s) as Hch.
  pose proof (chars_clean_tail s) as Hcl. rewrite E in Hch, Hcl.
  apply Forall_app in Hch as [Hch1 Hch]. apply Forall_app in Hch as [Hchc Hch2].
  apply clean_tail_app in Hcl as [_ Hcl]. apply clean_tail_app in Hcl as [Hcl _].
  unfold strip. rewrite E, (trim_core ws1 core ws2 H1 H2 Hcore).
  repeat split; try assumption. now apply chars_join_chunks.
Qed.

Lemma strip_idem s : strip (strip s) = strip s.
Proof.
  destruct (trim_decompose (chars s)) as (ws1 & core & ws2 & E & H1 & H2 & Hc).
  destruct (strip_core s ws1 core ws2 E H1 H2 Hc) as (-> & Hchars & _).
  unfold strip. rewrite Hchars.
  pose proof (trim_core [] core [] (List.Forall_nil _) (List.Forall_nil _) Hc) as H.
  simpl in H. rewrite app_nil_r in H. now rewrite H.
Qed.

(** Lowercasing keeps the white space at the ends of a string, so it can be
    stripped before or after. *)
Lemma lower_strip s : lower (strip s) = strip (lower s).
Proof.
  destruct (trim_decompose (chars s)) as (ws1 & core & ws2 & E & H1 & H2 & Hc).
  destruct (strip_core s ws1 core ws2 E H1 H2 Hc)
    as (-> & Hchars & Hchc & Hch1 & Hch2).
  unfold lower at 1. rewrite Hchars.
  pose proof (lower_chunks_output (chars s) (PyStrFacts.chars_are_chunks s)
                false) as Hout.
  pose proof (lower_output_clean_tail _ _ Hout (chars_clean_tail s)) as Hcl.
  unfold strip, lower.
  rewrite E, lower_chunks_after_spaces, lower_chunks_before_spaces in Hcl |- *
    by assumption.
  rewrite chars_join by exact Hcl.
  rewrite !map_app, !concat_app.
  rewrite (concat_chars_chunks ws1), (concat_chars_chunks ws2) by assumption.
  rewrite trim_core; try assumption.
  - symmetry. apply join_concat_chars.
  - apply (lower_output_trimmed core); [| exact Hc].
    now apply lower_chunks_output.
Qed.

End StripFacts.
Module FilterFacts.
Import PyStr PyDict Catalog Props Notions DictLookupFacts LoaderFacts StripFacts.

Lemma sublist_filter_bool {A} (f : A -> bool) (l : list A) :
  sublist (List.filter f l) l.
Proof.
  induction l as [| x l IH]; simpl; [constructor |].
  destruct (f x); now constructor.
Qed.

Lemma filter_filter_sublist {A} (f g : A -> bool) (l : list A) :
  (forall x, f x = true -> g x = true) ->
  sublist (List.filter f l) (List.filter g l).
Proof.
  intros Hfg. induction l as [| x l IH]; simpl; [constructor |].
  destruct (f x) eqn:Ef.
  - rewrite (Hfg x Ef). now constructor.
  - destruct (g x); [now constructor | exact IH].
Qed.

(** X8: every descriptor the filter returns meets the request: it has the
    requested gender unless that is "All", its lowercased display name
    contains the lowercased, trimmed search string, and with a loaded
    catalog and a language other than "All" it has that language. *)
Theorem filter_voices_sound online listing language gender search v :
  let c := load_voices online listing in
  In v (filter_voices c language gender search) ->
  (forall g, gender = Some g -> g <> "All" -> Catalog.gender v = g) /\
  contains (strip (lower (default "" search))) (lower (display_name v)) = true /\
  (forall L, language = Some L -> L <> "All" -> Catalog.language v = L).
Proof.
  cbv zeta. unfold filter_voices. intros Hin.
  apply filter_In in Hin as [Hsrc Hkeep]. unfold keeps in Hkeep.
  repeat split.
  - intros g -> Hg. simpl in Hkeep.
    apply String.eqb_neq in Hg. rewrite Hg in Hkeep. simpl in Hkeep.
    destruct (String.eqb_spec (Catalog.gender v) g); [assumption | discriminate].
  - destruct (negb _ && negb _); [discriminate |].
    destruct (strip (lower (default "" search))) as [| ch s] eqn:Es.
    + now destruct (lower (display_name v)).
    + simpl truthy in Hkeep. simpl andb in Hkeep.
      now destruct (contains (String ch s) (lower (display_name v))).
  - intros L -> HL. simpl in Hsrc.
    apply String.eqb_neq in HL. rewrite HL in Hsrc.
    destruct (dget (LANGUAGE_VOICES (load_voices online listing)) L)
      as [vs |] eqn:Hvs; [| destruct Hsrc].
    destruct (loaded_group_ok online listing) as [_ Hok].
    exact (proj1 (proj2 (Hok _ _ Hvs) v Hsrc)).
Qed.

(** X9: a gender or search restriction only removes descriptors: the
    filtered list is a subsequence, in the same order, of the list returned
    for the same language with no gender and no search. *)
Theorem filter_voices_restricts c language gender search :
  sublist (filter_voices c language gender search)
          (filter_voices c language None None).
Proof.
  unfold filter_voices. apply filter_filter_sublist. reflexivity.
Qed.

(** X10: white space around the search string is ignored, and a blank
    search string is no restriction. *)
Theorem filter_voices_trims_search c language gender s :
  filter_voices c language gender (Some s)
  = filter_voices c language gender (Some (strip s)) /\
  (strip s = "" ->
   filter_voices c language gender (Some s)
   = filter_voices c language gender None).
Proof.
  unfold filter_voices. simpl. split.
  - now rewrite <- (lower_strip (strip s)), strip_idem, lower_strip.
  - intros Hblank. now rewrite <- lower_strip, Hblank.
Qed.

End FilterFacts.

Module LifecycleFacts.
Import PyStr PyDict Catalog Rate Studio Props Notions Shutdown.

Lemma unlink_step_elem unlink_fails (dir : gset string) f x :
  x ∈ unlink_step unlink_fails dir f <->
  x ∈ dir /\ (x <> f \/ unlink_fails x = true).
Proof.
  unfold unlink_step. case_bool_decide as Hf.
  - destruct (unlink_fails f) eqn:Ef.
    + split; [intros Hx; split; [exact Hx |] | tauto].
      destruct (decide (x = f)) as [-> | ]; auto.
    + rewrite elem_of_difference, elem_of_singleton.
      split; [tauto |]. intros [Hx [Hne | Hu]]; [tauto |].
      split; [exact Hx |]. intros ->. congruence.
  - split; [| tauto]. intros Hx. split; [exact Hx |].
    left. intros ->. contradiction.
Qed.

Lemma unlink_fold_elem unlink_fails files : forall (dir : gset string) x,
  x ∈ fold_left (unlink_step unlink_fails) files dir <->
  x ∈ dir /\ (~ In x files \/ unlink_fails x = true).
Proof.
  induction files as [| f files IH]; intros dir x; simpl; [tauto |].
  rewrite IH, unlink_step_elem.
  destruct (unlink_fails x); [tauto |].
  split.
  - intros [[Hx [Hne | Hu]] [Hni | Hu']]; try discriminate.
    split; [exact Hx |]. left. intros [-> | Hin]; tauto.
  - intros [Hx [Hni | Hu]]; [| discriminate].
    split; [split; [exact Hx | left; intros ->; apply Hni; now left] |].
    left. intros Hin. apply Hni. now right.
Qed.

(** X11: cleaning up a session removes from the directory exactly those of
    its registered files whose unlink succeeds, drops its registry entry,
    and leaves every other session's entry as it was. *)
Theorem cleanup_temp_files_exact unlink_fails st a :
  let st' := cleanup_temp_files unlink_fails st a in
  (forall x, x ∈ fs st' <->
             x ∈ fs st /\ (~ In x (owned st a) \/ unlink_fails x = true)) /\
  TEMP_FILES st' !! a = None /\
  (forall b, b <> a -> TEMP_FILES st' !! b = TEMP_FILES st !! b).
Proof.
  cbv zeta. unfold cleanup_temp_files, owned.
  destruct (TEMP_FILES st !! a) as [files |] eqn:Ha; simpl.
  - split; [intros x; apply unlink_fold_elem |].
    split; [apply lookup_delete_eq |].
    intros b Hne. now apply lookup_delete_ne.
  - split; [intros x; tauto |]. split; [exact Ha | reflexivity].
Qed.

Lemma owned_cleanup unlink_fails st a b :
  owned (cleanup_temp_files unlink_fails st a) b
  = if decide (b = a) then [] else owned st b.
Proof.
  destruct (cleanup_temp_files_exact unlink_fails st a) as (_ & Ha & Hb).
  unfold owned at 1. case_decide as Heq.
  - subst b. now rewrite Ha.
  - now rewrite (Hb b Heq).
Qed.

Lemma cleanup_all_lookup unlink_fails keys : forall st k,
  (In k keys -> TEMP_FILES (cleanup_all unlink_fails keys st) !! k = None) /\
  (~ In k keys ->
   TEMP_FILES (cleanup_all unlink_fails keys st) !! k = TEMP_FILES st !! k).
Proof.
  induction keys as [| a keys IH]; intros st k; [simpl; tauto |].
  change (cleanup_all unlink_fails (a :: keys) st)
    with (cleanup_all unlink_fails keys (cleanup_temp_files unlink_fails st a)).
  destruct (IH (cleanup_temp_files unlink_fails st a) k) as [Hin Hout].
  destruct (cleanup_temp_files_exact unlink_fails st a) as (_ & Ha & Hb).
  split.
  - intros Hk. destruct (decide (k ∈ keys)) as [Hd | Hd].
    + apply Hin. now apply list_elem_of_In.
    + rewrite list_elem_of_In in Hd. rewrite (Hout Hd).
      destruct Hk as [<- | Hk]; [exact Ha | contradiction].
  - intros Hk. rewrite Hout by (intros H; apply Hk; now right).
    apply Hb. intros ->. apply Hk. now left.
Qed.

Lemma cleanup_all_files unlink_fails keys : forall st x,
  x ∈ fs (cleanup_all unlink_fails keys st) <->
  x ∈ fs st /\
  ((forall a, In a keys -> ~ In x (owned st a)) \/ unlink_fails x = true).
Proof.
  induction keys as [| a keys IH]; intros st x.
  - simpl. split; [intros Hx; split; [exact Hx | left; tauto] | tauto].
  - change (cleanup_all unlink_fails (a :: keys) st)
      with (cleanup_all unlink_fails keys (cleanup_temp_files unlink_fails st a)).
    rewrite IH.
    rewrite (proj1 (cleanup_temp_files_exact unlink_fails st a) x).
    destruct (unlink_fails x); [tauto |].
    split.
    + intros [[Hx [Hna | Hu]] [Hall | Hu']]; try discriminate.
      split; [exact Hx |]. left. intros b [<- | Hb]; [exact Hna |].
      specialize (Hall b Hb). rewrite owned_cleanup in Hall.
      case_decide as Heq; [now subst b | exact Hall].
    + intros [Hx [Hall | Hu]]; [| discriminate].
      split; [split; [exact Hx | left; apply Hall; now left] |].
      left. intros b Hb. rewrite owned_cleanup.
      case_decide; [intros [] | apply Hall; now right].
Qed.

(** X12: the shutdown hook, run over a list of keys that covers the
    registry, empties the registry; in the directory it removes exactly the
    registered files whose unlink succeeds and nothing else. *)
Theorem cleanup_all_empties_registry unlink_fails keys st :
  (forall k, is_Some (TEMP_FILES st !! k) -> In k keys) ->
  let st' := cleanup_all unlink_fails keys st in
  TEMP_FILES st' = ∅ /\
  (forall x, x ∈ fs st' <->
             x ∈ fs st /\
             ((forall a, ~ In x (owned st a)) \/ unlink_fails x = true)).
Proof.
  intros Hcover. cbv zeta. split.
  - apply map_eq. intros k. rewrite lookup_empty.
    destruct (cleanup_all_lookup unlink_fails keys st k) as [Hin Hout].
    destruct (decide (k ∈ keys)) as [Hd | Hd].
    + apply Hin. now apply list_elem_of_In.
    + rewrite list_elem_of_In in Hd. rewrite (Hout Hd).
      destruct (TEMP_FILES st !! k) eqn:Hk; [| reflexivity].
      exfalso. apply Hd, Hcover. now rewrite Hk.
  - intros x. rewrite cleanup_all_files.
    split; intros [Hx [Hall | Hu]];
      (split; [exact Hx |]); [left | right; exact Hu | left | right; exact Hu].
    + intros a Hin. apply (Hall a); [| exact Hin].
      unfold owned in Hin. destruct (TEMP_FILES st !! a) eqn:Hk;
        [| destruct Hin].
      apply Hcover. now rewrite Hk.
    + intros a _. apply Hall.
Qed.

End LifecycleFacts.

Module RequestFacts.
Import PyStr PyDict Catalog Rate Studio Props Notions.

Lemma get_session_id_cookie session uuid :
  snd (get_session_id session uuid) = Some (fst (get_session_id session uuid)).
Proof. now destruct session. Qed.

Lemma basename_has_no_slash p : has_char "/" (basename p) = false.
Proof.
  induction p as [| c p IH]; [reflexivity |].
  rewrite PyStrFacts.basename_cons.
  destruct (has_char "/" p) eqn:Hp; [exact IH |].
  destruct (Ascii.eqb_spec c "/") as [-> | Hne]; [exact Hp |].
  rewrite PyStrFacts.has_char_cons, Hp, orb_false_r.
  apply Ascii.eqb_neq. congruence.
Qed.

(** X13: the audio route sends only a path registered under the session in
    the URL, and only under that path's basename; an unknown session and a
    filename containing a separator are answered 404. *)
Theorem serve_audio_only_registered (TF : gmap string (list string))
    session_id filename :
  (forall p, serve_audio TF session_id filename = SendFile p ->
             exists files, TF !! session_id = Some files /\ In p files /\
                           basename p = filename) /\
  (serve_audio TF session_id filename = Plain 404 "File not found" \/
   exists p, serve_audio TF session_id filename = SendFile p) /\
  (TF !! session_id = None ->
   serve_audio TF session_id filename = Plain 404 "File not found") /\
  (has_char "/" filename = true ->
   serve_audio TF session_id filename = Plain 404 "File not found").
Proof.
  split; [intros p; apply StudioFacts.serve_audio_sends_owned |].
  unfold serve_audio. split; [| split].
  - destruct (TF !! session_id) as [files |]; [| now left].
    destruct (List.find _ files); [right; eauto | now left].
  - now intros ->.
  - intros Hslash. destruct (TF !! session_id) as [files |]; [| reflexivity].
    destruct (List.find _ files) as [f |] eqn:E; [| reflexivity].
    apply find_some in E as [_ Hb]. apply String.eqb_eq in Hb.
    rewrite <- Hb, basename_has_no_slash in Hslash. discriminate.
Qed.

Section Requests.

Variable tempdir : string.
Variable Communicate_save : tts_call -> py unit.
Variable VOICE_DATA : dict voice.

Abbreviation temp_path := (Studio.temp_path tempdir).
Abbreviation handle := (Studio.handle tempdir Communicate_save VOICE_DATA).
Abbreviation run := (Studio.run tempdir Communicate_save VOICE_DATA).
Abbreviation valid_run := (Studio.valid_run tempdir Communicate_save VOICE_DATA).
Abbreviation event_ok := (Studio.event_ok tempdir).
Abbreviation preview := (Studio.preview_voice tempdir Communicate_save VOICE_DATA).
Abbreviation generate := (Studio.generate_speech tempdir Communicate_save VOICE_DATA).

(** The [try] block in full: it stops with a 500 before touching anything,
    or creates and registers the file, sets the cookie and calls the
    provider once. *)
Lemma synthesize_spec reply st w text speed vo :
  let o := synthesize tempdir Communicate_save reply st w text speed vo in
  (tts_calls o = [] /\ out_state o = st /\ registered o = None /\
   out_session o = w_session w /\ status_of (resp o) = 500%nat /\
   is_error (resp o) = true) \/
  (exists r rate,
      w_tempfile w = Returns r /\
      calculate_rate_parameter speed = Returns rate /\
      let session_id := fst (get_session_id (w_session w) (w_uuid w)) in
      let call := {| c_text := text; c_voice := obj_short_name vo;
                     c_rate := rate; c_path := temp_path r |} in
      out_state o = with_artifact st session_id (temp_path r) /\
      registered o = Some (session_id, temp_path r) /\
      out_session o = Some session_id /\
      tts_calls o = [call] /\
      resp o = match Communicate_save call with
               | Returns _ => reply session_id (temp_path r)
               | Raises e => Json 500 [("error", JStr e)]
               end).
Proof.
  cbv zeta. unfold synthesize.
  destruct (calculate_rate_parameter speed) as [rate | e];
    [| left; repeat split].
  destruct (w_tempfile w) as [r | e]; [| left; repeat split].
  right. exists r, rate.
  pose proof (get_session_id_cookie (w_session w) (w_uuid w)) as Hc.
  destruct (get_session_id (w_session w) (w_uuid w)) as [sid s'].
  simpl in *. subst s'. repeat split.
Qed.

(** A POST to a synthesis endpoint either answers an error without any
    effect, or registers the new file under the caller's session and calls
    the provider once; the answer is then the provider's error or the
    audio URL. *)
Lemma synthesis_cases st ev w :
  synthesis_event ev w ->
  let o := handle st ev in
  (tts_calls o = [] /\ out_state o = st /\ registered o = None /\
   out_session o = w_session w /\ is_error (resp o) = true) \/
  (exists r call,
      w_tempfile w = Returns r /\
      let session_id := fst (get_session_id (w_session w) (w_uuid w)) in
      out_state o = with_artifact st session_id (temp_path r) /\
      registered o = Some (session_id, temp_path r) /\
      out_session o = Some session_id /\
      tts_calls o = [call] /\ c_path call = temp_path r /\
      match Communicate_save call with
      | Raises e => resp o = Json 500 [("error", JStr e)]
      | Returns _ =>
          is_error (resp o) = false /\
          field "audio_url" (resp o)
          = Some (JStr (audio_url session_id (temp_path r)))
      end).
Proof.
  intros (data & Hev). cbv zeta.
  assert (Hsyn : forall reply text speed vo,
      (forall a b, is_error (reply a b) = false /\
                   field "audio_url" (reply a b) = Some (JStr (audio_url a b))) ->
      let o := synthesize tempdir Communicate_save reply st w text speed vo in
      (tts_calls o = [] /\ out_state o = st /\ registered o = None /\
       out_session o = w_session w /\ is_error (resp o) = true) \/
      (exists r call,
          w_tempfile w = Returns r /\
          let session_id := fst (get_session_id (w_session w) (w_uuid w)) in
          out_state o = with_artifact st session_id (temp_path r) /\
          registered o = Some (session_id, temp_path r) /\
          out_session o = Some session_id /\
          tts_calls o = [call] /\ c_path call = temp_path r /\
          match Communicate_save call with
          | Raises e => resp o = Json 500 [("error", JStr e)]
          | Returns _ =>
              is_error (resp o) = false /\
              field "audio_url" (resp o)
              = Some (JStr (audio_url session_id (temp_path r)))
          end)).
  { intros reply text speed vo Hreply. cbv zeta.
    destruct (synthesize_spec reply st w text speed vo)
      as [(H1 & H2 & H3 & H4 & _ & H5)
         | (r & rate & Hr & _ & H1 & H2 & H3 & H4 & H5)].
    - left. auto.
    - right. exists r. eexists. split; [exact Hr |]. cbv zeta.
      repeat split; try eassumption; [reflexivity |].
      rewrite H5. destruct (Communicate_save _); [apply Hreply | reflexivity]. }
  destruct Hev as [-> | ->]; simpl.
  - unfold preview_voice.
    destruct (find_voice_by_input VOICE_DATA (b_voice data));
      [| left; repeat split].
    apply Hsyn. intros a b. split; reflexivity.
  - unfold generate_speech.
    destruct (negb (truthy (strip (default "" (b_text data)))));
      [left; repeat split |].
    destruct (find_voice_by_input VOICE_DATA (b_voice data));
      [| left; repeat split].
    apply Hsyn. intros a b. split; reflexivity.
Qed.

Lemma lists_ok_with_artifact st a f :
  registry_inv tempdir st -> lists_ok st -> f ∉ fs st ->
  lists_ok (with_artifact st a f).
Proof.
  intros [Hex _] Hl Hfresh b files Hb.
  apply StudioFacts.with_artifact_lookup in Hb as [[<- ->] | [_ Hb]];
    [| exact (Hl _ _ Hb)].
  split; [now destruct (owned st a) |].
  apply NoDup_app. repeat split.
  - unfold owned. destruct (TEMP_FILES st !! a) as [old |] eqn:Ha; simpl.
    + exact (proj2 (Hl _ _ Ha)).
    + constructor.
  - intros x Hx Hx'. apply list_elem_of_In in Hx, Hx'.
    destruct Hx' as [<- | []].
    apply StudioFacts.owned_In in Hx as (old & Ha & Hin).
    now destruct (Hex _ _ _ Ha Hin).
  - apply NoDup_singleton.
Qed.

Lemma lists_ok_cleanup st a unlink_fails :
  lists_ok st -> lists_ok (cleanup_temp_files unlink_fails st a).
Proof.
  intros Hl b files Hb.
  destruct (LifecycleFacts.cleanup_temp_files_exact unlink_fails st a)
    as (_ & Ha & Hothers).
  destruct (decide (b = a)) as [-> | Hne]; [congruence |].
  rewrite (Hothers b Hne) in Hb. exact (Hl _ _ Hb).
Qed.

Lemma lists_ok_handle st ev :
  registry_inv tempdir st -> lists_ok st -> event_ok st ev = true ->
  lists_ok (out_state (handle st ev)).
Proof.
  intros Hinv Hl Hok.
  destruct (StudioFacts.handle_cases tempdir Communicate_save VOICE_DATA st ev)
    as [[-> _] | [(w & data & r & _ & _ & _ & Hreg) | (? & ? & uf & _ & -> & _)]].
  - exact Hl.
  - destruct (StudioFacts.registered_fresh _ _ _ st ev _ _ Hok Hreg)
      as (Hf & _ & ->).
    now apply lists_ok_with_artifact.
  - now apply lists_ok_cleanup.
Qed.

Lemma lists_ok_run evs : forall st,
  registry_inv tempdir st -> lists_ok st -> valid_run st evs = true ->
  lists_ok (run st evs).
Proof.
  induction evs as [| ev evs IH]; intros st Hinv Hl Hv; simpl in *; [exact Hl |].
  apply andb_true_iff in Hv as [Hok Hv].
  apply IH; [| | exact Hv].
  - now apply StudioFacts.inv_handle.
  - now apply lists_ok_handle.
Qed.

(** X14: in every state the server reaches, a registry entry is a
    non-empty list without repetition of files that exist, and no file is
    registered under two sessions. *)
Theorem registry_consistent_in_every_run fs0 evs :
  valid_run (init_state fs0) evs = true ->
  let st := run (init_state fs0) evs in
  (forall session_id files,
      TEMP_FILES st !! session_id = Some files ->
      files <> [] /\ NoDup files /\ forall f, In f files -> f ∈ fs st) /\
  (forall a b f, In f (owned st a) -> In f (owned st b) -> a = b).
Proof.
  intros Hv. cbv zeta.
  pose proof (StudioFacts.inv_run _ _ _ evs _ (StudioFacts.inv_init _ fs0) Hv)
    as Hinv.
  assert (Hl : lists_ok (run (init_state fs0) evs)).
  { apply lists_ok_run; [apply StudioFacts.inv_init | | exact Hv].
    intros b files Hb. simpl in Hb. rewrite lookup_empty in Hb. discriminate. }
  destruct Hinv as [Hex Huniq]. split.
  - intros sid files Hs. destruct (Hl _ _ Hs) as [Hne Hnd].
    repeat split; auto. intros f Hf. now destruct (Hex _ _ _ Hs Hf).
  - intros a b f Ha Hb.
    apply StudioFacts.owned_In in Ha as (fa & Ha & Hfa).
    apply StudioFacts.owned_In in Hb as (fb & Hb & Hfb). eauto.
Qed.


(** X16: when the provider is called and raises, the answer is a 500
    carrying the provider's message, and the temp file made for the call
    stays on disk and registered under the caller's session. *)
Theorem provider_failure_keeps_file st ev w call e :
  synthesis_event ev w ->
  In call (tts_calls (handle st ev)) ->
  Communicate_save call = Raises e ->
  let o := handle st ev in
  let session_id := fst (get_session_id (w_session w) (w_uuid w)) in
  resp o = Json 500 [("error", JStr e)] /\
  registered o = Some (session_id, c_path call) /\
  In (c_path call) (owned (out_state o) session_id) /\
  c_path call ∈ fs (out_state o).
Proof.
  intros Hev Hin Hraise. cbv zeta.
  destruct (synthesis_cases st ev w Hev)
    as [(Hnone & _) | (r & call' & _ & Hst & Hreg & _ & Hcalls & Hpath & Hresp)].
  - rewrite Hnone in Hin. destruct Hin.
  - rewrite Hcalls in Hin. destruct Hin as [<- | []].
    rewrite Hraise in Hresp. rewrite Hpath.
    split; [exact Hresp |]. split; [exact Hreg |]. rewrite Hst.
    split.
    + rewrite StudioFacts.owned_with_artifact.
      rewrite decide_True by reflexivity. apply in_or_app. right. now left.
    + simpl. apply elem_of_union_r. now apply elem_of_singleton.
Qed.

(** X17: a request changes the registry entry of no session but its own:
    the caller's session for a POST, the session in the URL for a GET. *)
Theorem event_touches_only_its_session st ev b :
  b <> event_session ev ->
  TEMP_FILES (out_state (handle st ev)) !! b = TEMP_FILES st !! b.
Proof.
  intros Hne.
  assert (Hsyn : forall w, synthesis_event ev w ->
            b <> fst (get_session_id (w_session w) (w_uuid w)) ->
            TEMP_FILES (out_state (handle st ev)) !! b = TEMP_FILES st !! b).
  { intros w Hev Hb.
    destruct (synthesis_cases st ev w Hev)
      as [(_ & -> & _) | (r & call & _ & -> & _)]; [reflexivity |].
    simpl. apply lookup_insert_ne. congruence. }
  destruct ev as [w data | w data | sid f | session uuid uf].
  - apply (Hsyn w); [eexists; now left | exact Hne].
  - apply (Hsyn w); [eexists; now right | exact Hne].
  - reflexivity.
  - simpl in *. unfold cleanup_session.
    destruct (get_session_id session uuid) as [sid s'] eqn:E. simpl in *.
    now apply (LifecycleFacts.cleanup_temp_files_exact uf st sid).
Qed.

(** X18: a client that sends back the cookie set by its first synthesis
    request gets its second file registered under the same session, after
    the first. *)
Theorem cookie_keeps_session st ev1 w1 ev2 w2 s1 p1 s2 p2 :
  synthesis_event ev1 w1 -> synthesis_event ev2 w2 ->
  registered (handle st ev1) = Some (s1, p1) ->
  w_session w2 = out_session (handle st ev1) ->
  registered (handle (out_state (handle st ev1)) ev2) = Some (s2, p2) ->
  s2 = s1 /\
  owned (out_state (handle (out_state (handle st ev1)) ev2)) s1
  = (owned st s1 ++ [p1; p2])%list.
Proof.
  intros Hev1 Hev2 Hreg1 Hcookie Hreg2.
  destruct (synthesis_cases st ev1 w1 Hev1)
    as [(_ & _ & Hnone & _) | (r1 & c1 & _ & Hst1 & Hr1 & Hc1 & _)];
    [congruence |].
  rewrite Hr1 in Hreg1. injection Hreg1 as <- <-.
  destruct (synthesis_cases (out_state (handle st ev1)) ev2 w2 Hev2)
    as [(_ & _ & Hnone & _) | (r2 & c2 & _ & Hst2 & Hr2 & _)];
    [congruence |].
  rewrite Hr2 in Hreg2. injection Hreg2 as <- <-.
  rewrite Hcookie, Hc1 in Hst2 |- *. simpl in Hst2 |- *.
  split; [reflexivity |].
  rewrite Hst2, StudioFacts.owned_with_artifact.
  rewrite decide_True by reflexivity.
  rewrite Hst1, StudioFacts.owned_with_artifact.
  rewrite decide_True by reflexivity.
  now rewrite <- app_assoc.
Qed.

(** X19: /api/generate hands the provider the text with surrounding white
    space removed, and never an empty text; /api/preview hands over the
    text as it came, or its default when the key is absent. *)
Theorem synthesized_text st w data call :
  (In call (tts_calls (generate st w data)) ->
   c_text call = strip (default "" (b_text data)) /\ c_text call <> "") /\
  (In call (tts_calls (preview st w data)) ->
   c_text call = default "Hello! This is a preview." (b_text data)).
Proof.
  split; intros Hin.
  - unfold generate_speech in Hin.
    destruct (strip (default "" (b_text data))) as [| ch t] eqn:Et;
      [destruct Hin |].
    simpl in Hin.
    destruct (find_voice_by_input VOICE_DATA (b_voice data)); [| destruct Hin].
    apply StudioFacts.synthesize_calls in Hin as [_ ->]. split; [reflexivity |].
    discriminate.
  - unfold preview_voice in Hin.
    destruct (find_voice_by_input VOICE_DATA (b_voice data)); [| destruct Hin].
    now apply StudioFacts.synthesize_calls in Hin as [_ ->].
Qed.

(** A synthesis request that shows any sign of an allocation has created
    the file the temp-file facility named, registered it under the
    caller's session and passed it to the provider. *)
Lemma allocation_registers st ev w :
  synthesis_event ev w -> allocates st (handle st ev) ->
  exists r,
    w_tempfile w = Returns r /\
    event_session ev = fst (get_session_id (w_session w) (w_uuid w)) /\
    out_state (handle st ev)
    = with_artifact st (event_session ev) (temp_path r) /\
    map c_path (tts_calls (handle st ev)) = [temp_path r] /\
    (is_error (resp (handle st ev)) = false ->
     field "audio_url" (resp (handle st ev))
     = Some (JStr (audio_url (event_session ev) (temp_path r)))).
Proof.
  intros Hev Halloc.
  assert (Hsid : event_session ev
                 = fst (get_session_id (w_session w) (w_uuid w)))
    by (destruct Hev as (data & [-> | ->]); reflexivity).
  destruct (synthesis_cases st ev w Hev)
    as [(Hcalls & Hst & _ & _ & Herr)
       | (r & call & Hr & Hst & _ & _ & Hcalls & Hpath & Hresp)].
  - exfalso. destruct Halloc as [Hok | [Hc | Hfs]]; [congruence | auto |].
    now rewrite Hst in Hfs.
  - exists r. rewrite Hsid. repeat split; auto.
    + rewrite Hcalls. simpl. now rewrite Hpath.
    + intros Hok. destruct (Communicate_save call); [apply Hresp |].
      rewrite Hresp in Hok. discriminate.
Qed.

Lemma tempfile_fresh st ev w r :
  synthesis_event ev w -> event_ok st ev = true -> w_tempfile w = Returns r ->
  temp_path r ∉ fs st.
Proof.
  intros (data & Hev) Hok Hr.
  assert (Hw : tempfile_ok tempdir st w = true)
    by (destruct Hev as [-> | ->]; exact Hok).
  unfold tempfile_ok in Hw. rewrite Hr in Hw.
  apply andb_true_iff in Hw as [_ Hfresh].
  now apply bool_decide_eq_true in Hfresh.
Qed.

Lemma synthesis_never_purges ev w session_id :
  synthesis_event ev w -> purges session_id ev = false.
Proof. now intros (data & [-> | ->]). Qed.

Lemma owned_new_artifact st a f : In f (owned (with_artifact st a f) a).
Proof.
  rewrite StudioFacts.owned_with_artifact, decide_True by reflexivity.
  apply in_or_app. right. now left.
Qed.

(** C3: when a POST to /api/preview or /api/generate allocates an artifact
    (it answers with success, calls the provider or leaves a new file), the
    file is the one the temp-file facility created, it is registered under
    the caller's session, passed to the provider and named by the audio URL
    of a success answer; in every later state reached without a cleanup of
    that session it is still in the session's list and sent for its
    basename; and a later allocation, under this or another session, gets
    a different path, is registered in its turn, and leaves both files
    served. *)
Theorem allocated_artifact_served_until_cleanup fs0 before ev w after :
  synthesis_event ev w ->
  valid_run (init_state fs0) (before ++ ev :: after) = true ->
  let st0 := run (init_state fs0) before in
  let session_id := event_session ev in
  allocates st0 (handle st0 ev) ->
  forallb (fun e => negb (purges session_id e)) after = true ->
  exists r,
    w_tempfile w = Returns r /\
    let p := temp_path r in
    (p ∉ fs st0) /\
    In p (owned (out_state (handle st0 ev)) session_id) /\
    map c_path (tts_calls (handle st0 ev)) = [p] /\
    (is_error (resp (handle st0 ev)) = false ->
     field "audio_url" (resp (handle st0 ev))
     = Some (JStr (audio_url session_id p))) /\
    let st := run (init_state fs0) (before ++ ev :: after) in
    In p (owned st session_id) /\
    serve_audio (TEMP_FILES st) session_id (basename p) = SendFile p /\
    (forall ev' w',
        synthesis_event ev' w' -> event_ok st ev' = true ->
        allocates st (handle st ev') ->
        exists r',
          w_tempfile w' = Returns r' /\
          let p' := temp_path r' in
          let st' := out_state (handle st ev') in
          p' <> p /\
          In p' (owned st' (event_session ev')) /\
          In p (owned st' session_id) /\
          serve_audio (TEMP_FILES st') (event_session ev') (basename p')
          = SendFile p' /\
          serve_audio (TEMP_FILES st') session_id (basename p) = SendFile p).
Proof.
  intros Hev Hv. cbv zeta. intros Halloc Hnp.
  pose proof (StudioFacts.inv_run _ _ _ _ _ (StudioFacts.inv_init _ fs0) Hv)
    as Hinv.
  rewrite StudioFacts.valid_run_app in Hv.
  apply andb_true_iff in Hv as [_ Hv].
  simpl in Hv. apply andb_true_iff in Hv as [Hok _].
  rewrite StudioFacts.run_app in *. simpl in *.
  set (st0 := run (init_state fs0) before) in *.
  destruct (allocation_registers st0 ev w Hev Halloc)
    as (r & Hr & _ & Hst & Hcalls & Hurl).
  exists r. split; [exact Hr |].
  split; [exact (tempfile_fresh st0 ev w r Hev Hok Hr) |].
  assert (Hin0 : In (temp_path r)
                   (owned (out_state (handle st0 ev)) (event_session ev)))
    by (rewrite Hst; apply owned_new_artifact).
  split; [exact Hin0 |]. split; [exact Hcalls |]. split; [exact Hurl |].
  set (st := run (out_state (handle st0 ev)) after) in *.
  assert (Hin : In (temp_path r) (owned st (event_session ev)))
    by now apply StudioFacts.owned_kept_by_run.
  split; [exact Hin |].
  split; [now apply (StudioFacts.serve_audio_own tempdir) |].
  intros ev' w' Hev' Hok' Halloc'.
  destruct (allocation_registers st ev' w' Hev' Halloc')
    as (r' & Hr' & _ & Hst' & _).
  exists r'. split; [exact Hr' |].
  pose proof (tempfile_fresh st ev' w' r' Hev' Hok' Hr') as Hfresh.
  pose proof (StudioFacts.inv_handle tempdir Communicate_save VOICE_DATA
                st ev' Hinv Hok') as Hinv'.
  assert (Hin' : In (temp_path r')
                   (owned (out_state (handle st ev')) (event_session ev')))
    by (rewrite Hst'; apply owned_new_artifact).
  assert (Hkept : In (temp_path r)
                    (owned (out_state (handle st ev')) (event_session ev))).
  { apply StudioFacts.owned_kept_by_event; [exact Hin |].
    exact (synthesis_never_purges ev' w' _ Hev'). }
  split; [| split; [exact Hin' |]; split; [exact Hkept |]; split;
            now apply (StudioFacts.serve_audio_own tempdir)].
  intros Heq. apply Hfresh. rewrite Heq.
  apply StudioFacts.owned_In in Hin as (files & Hl & Hin).
  destruct Hinv as [Hex _]. now destruct (Hex _ _ _ Hl Hin).
Qed.

End Requests.
End RequestFacts.

Module RateStringFacts.
Import Rate.

Lemma to_int_not_nil z :
  Z.to_int z <> Decimal.Pos Decimal.Nil /\ Z.to_int z <> Decimal.Neg Decimal.Nil.
Proof.
  destruct z as [| q | q]; simpl; split; try discriminate;
    intros [= H]; now apply DecimalPos.Unsigned.to_uint_nonnil in H.
Qed.

(** Printing an integer loses nothing. *)
Lemma str_int_inj n m : str_int n = str_int m -> n = m.
Proof.
  unfold str_int. intros H. apply (f_equal NilZero.int_of_string) in H.
  destruct (to_int_not_nil n), (to_int_not_nil m).
  rewrite !NilZero.isi in H by assumption.
  injection H as H. now apply DecimalZ.to_int_inj.
Qed.

Lemma length_append (a b : string) :
  String.length (a +:+ b) = (String.length a + String.length b)%nat.
Proof. induction a as [| c a IH]; simpl; [reflexivity | now rewrite IH]. Qed.

Lemma append_inv_tail (u : string) : forall a b : string,
  a +:+ u = b +:+ u -> a = b.
Proof.
  induction a as [| c a IH]; intros [| d b] H.
  - reflexivity.
  - apply (f_equal String.length) in H.
    change (String d b +:+ u) with (String d (b +:+ u)) in H.
    rewrite !length_append in H. simpl in H. rewrite ?length_append in H. lia.
  - apply (f_equal String.length) in H.
    change (String c a +:+ u) with (String c (a +:+ u)) in H.
    rewrite !length_append in H. simpl in H. rewrite ?length_append in H. lia.
  - change (String c (a +:+ u) = String d (b +:+ u)) in H.
    injection H as -> H. f_equal. now apply IH.
Qed.

Lemma signed_percent_head p :
  (0 < p -> exists t, signed_percent p = String "+" t) /\
  (p = 0 -> signed_percent p = "0%") /\
  (p < 0 -> exists t, signed_percent p = String "-" t).
Proof.
  unfold signed_percent. repeat split.
  - intros Hp. apply Z.ltb_lt in Hp. rewrite Hp. eexists. reflexivity.
  - now intros ->.
  - intros Hp. destruct p as [| q | q]; try lia.
    eexists. reflexivity.
Qed.

(** X20: the rate string tells the rounded percentage: it starts with "+"
    exactly for a positive one and with "-" for a negative one, it is
    "0%" for zero, and two percentages with the same string are equal. In
    particular "+0%" is returned at speed 1.0 only. *)
Theorem rate_string_tells_percent :
  (forall p q, signed_percent p = signed_percent q -> p = q) /\
  (forall p, (0 < p <-> exists t, signed_percent p = String "+" t) /\
             (p < 0 <-> exists t, signed_percent p = String "-" t) /\
             (p = 0 <-> signed_percent p = "0%")) /\
  (forall speed, PrimFloat.eqb speed 1%float = false ->
                 calculate_rate_parameter speed <> Returns "+0%").
Proof.
  assert (Hhead : forall p,
             (0 < p <-> exists t, signed_percent p = String "+" t) /\
             (p < 0 <-> exists t, signed_percent p = String "-" t) /\
             (p = 0 <-> signed_percent p = "0%")).
  { intros p. destruct (signed_percent_head p) as (Hpos & Hzero & Hneg).
    destruct (Z.lt_total 0 p) as [Hp | [Hp | Hp]].
    - destruct (Hpos Hp) as [t Ht]. rewrite Ht.
      repeat split; try lia; eauto; try discriminate.
      intros [t' [=]].
    - symmetry in Hp. rewrite (Hzero Hp).
      repeat split; try lia; try (intros [t' [=]]); auto.
    - destruct (Hneg Hp) as [t Ht]. rewrite Ht.
      repeat split; try lia; eauto; try discriminate.
      intros [t' [=]]. }
  assert (Hinj : forall p q, signed_percent p = signed_percent q -> p = q).
  { intros p q Heq.
    destruct (Hhead p) as (Hp1 & Hp2 & Hp3), (Hhead q) as (Hq1 & Hq2 & Hq3).
    destruct (Z.lt_total 0 p) as [Hp | [Hp | Hp]].
    - assert (Hq : 0 < q).
      { apply Hq1. rewrite <- Heq. now apply Hp1. }
      unfold signed_percent in Heq.
      rewrite (proj2 (Z.ltb_lt 0 p) Hp), (proj2 (Z.ltb_lt 0 q) Hq) in Heq.
      injection Heq as Heq.
      change (str_int p +:+ "%" = str_int q +:+ "%") in Heq.
      now apply append_inv_tail, str_int_inj in Heq.
    - symmetry in Hp. subst p. symmetry. apply Hq3. rewrite <- Heq. now apply Hp3.
    - assert (Hq : q < 0).
      { apply Hq2. rewrite <- Heq. now apply Hp2. }
      unfold signed_percent in Heq.
      rewrite (proj2 (Z.ltb_ge 0 p)), (proj2 (Z.ltb_ge 0 q)) in Heq by lia.
      now apply append_inv_tail, str_int_inj in Heq. }
  split; [exact Hinj |]. split; [exact Hhead |].
  intros speed Hne. unfold calculate_rate_parameter. rewrite Hne.
  destruct (py_round (deviation speed)) as [p |]; simpl; [| discriminate].
  intros [= Heq]. destruct (Hhead p) as (Hp1 & _ & _).
  assert (Hp : 0 < p) by (apply Hp1; rewrite Heq; eauto).
  unfold signed_percent in Heq. rewrite (proj2 (Z.ltb_lt 0 p) Hp) in Heq.
  injection Heq as Heq.
  change (str_int p +:+ "%" = str_int 0 +:+ "%") in Heq.
  apply append_inv_tail, str_int_inj in Heq. lia.
Qed.

End RateStringFacts.

Module TranscriptFacts.
Import PyStr PyDict Transcribe TranscribeGenerated Notions.

(** X21: the two transcription endpoints answer alike whenever an engine
    is configured, and with the same status and error flag in every case:
    they differ only in the placeholder texts. *)
Theorem transcribe_generated_like_upload WHISPER_MODEL io files :
  (forall model, WHISPER_MODEL = Some model ->
     transcribe_generated WHISPER_MODEL io files
     = transcribe_upload WHISPER_MODEL io files) /\
  status_of (transcribe_generated WHISPER_MODEL io files)
  = status_of (transcribe_upload WHISPER_MODEL io files) /\
  is_error (transcribe_generated WHISPER_MODEL io files)
  = is_error (transcribe_upload WHISPER_MODEL io files) /\
  field "engine" (transcribe_generated WHISPER_MODEL io files)
  = field "engine" (transcribe_upload WHISPER_MODEL io files).
Proof.
  unfold transcribe_generated, transcribe_upload.
  split; [now intros model -> |].
  destruct (dget files "audio") as [audio_file |]; [| repeat split].
  destruct (String.eqb (filename audio_file) ""); [repeat split |].
  destruct WHISPER_MODEL; repeat split.
Qed.

Lemma str_timedelta_in_range n :
  in_timedelta_range n -> exists ts, str_timedelta n = Returns ts.
Proof.
  unfold in_timedelta_range, str_timedelta. intros Hn.
  rewrite (proj2 (Z.ltb_ge _ _) Hn).
  rewrite (proj2 (Z.ltb_ge (n / 86400) (-2147483648))) by lia.
  rewrite (proj2 (Z.ltb_ge 2147483647 (n / 86400))) by lia.
  eexists. reflexivity.
Qed.

Lemma transcript_parts_total segments :
  Forall (fun seg => in_timedelta_range (fst seg)) segments ->
  exists parts, transcript_parts segments = Returns parts /\
                length parts = length segments.
Proof.
  induction 1 as [| [start text] segs Hstart _ IH]; simpl.
  - exists []. split; reflexivity.
  - destruct (str_timedelta_in_range start Hstart) as [ts ->].
    destruct IH as (parts & -> & Hlen). simpl.
    eexists. split; [reflexivity |]. simpl. now rewrite Hlen.
Qed.

(** X22: with an engine and a named upload, a failure to create the temp
    file, to save the upload into it, or an exception of the engine is
    answered 500 with its message; when the upload is saved and the engine
    returns segments whose offsets [timedelta] accepts, the answer is, if
    the temp file can be removed, a success naming "Faster Whisper" whose
    transcript has one part per segment and equals full_text, and else 500
    with the message of the failed removal. *)
Theorem transcription_outcomes model io files audio_file :
  dget files "audio" = Some audio_file ->
  filename audio_file <> "" ->
  let r := transcribe_upload (Some model) io files in
  (forall e, named_temporary_file io = Raises e ->
             r = Json 500 [("error", JStr e)]) /\
  (forall tmp e, named_temporary_file io = Returns tmp ->
                 save io = Raises e ->
                 r = Json 500 [("error", JStr e)]) /\
  (forall tmp e, named_temporary_file io = Returns tmp ->
                 save io = Returns tt ->
                 model audio_file = Raises e ->
                 r = Json 500 [("error", JStr e)]) /\
  (forall tmp segments,
      named_temporary_file io = Returns tmp ->
      save io = Returns tt ->
      model audio_file = Returns segments ->
      Forall (fun seg => in_timedelta_range (fst seg)) segments ->
      exists parts,
        length parts = length segments /\
        r = match unlink io with
            | Returns _ =>
                Json 200 [("success", JBool true);
                          ("engine", JStr "Faster Whisper");
                          ("transcript", JStr (join_lines parts));
                          ("full_text", JStr (join_lines parts))]
            | Raises e => Json 500 [("error", JStr e)]
            end).
Proof.
  intros Hget Hname. cbv zeta. unfold transcribe_upload. rewrite Hget.
  apply String.eqb_neq in Hname. rewrite Hname. repeat split.
  - now intros e ->.
  - intros tmp e -> ->. reflexivity.
  - intros tmp e -> -> He. simpl. now rewrite He.
  - intros tmp segments -> -> Hs Hrange. simpl. rewrite Hs. simpl.
    destruct (transcript_parts_total segments Hrange) as (parts & -> & Hlen).
    exists parts. split; [exact Hlen |]. simpl.
    now destruct (unlink io).
Qed.

Lemma two_digits_length m :
  0 <= m < 60 -> String.length (two_digits m) = 2%nat.
Proof.
  intros Hm.
  assert (Hall : forallb (fun k => Nat.eqb (String.length (two_digits (Z.of_nat k))) 2)
                   (seq 0 60) = true) by (vm_compute; reflexivity).
  rewrite forallb_forall in Hall.
  specialize (Hall (Z.to_nat m)).
  rewrite Z2Nat.id in Hall by lia.
  apply Nat.eqb_eq, Hall, in_seq. lia.
Qed.

(** X23: the timestamp of an offset below one day is hours, two-digit
    minutes and two-digit seconds; from one day on it is preceded by the
    day count, "1 day, " for the second day. *)
Theorem str_timedelta_clock n :
  (0 <= n < 86400 ->
   str_timedelta n = Returns (clock n) /\
   String.length (two_digits (n / 60 mod 60)) = 2%nat /\
   String.length (two_digits (n mod 60)) = 2%nat) /\
  (86400 <= n < 172800 ->
   str_timedelta n = Returns ("1 day, " +:+ clock (n - 86400))).
Proof.
  split; intros Hn.
  - assert (Hd : n / 86400 = 0) by (apply Z.div_small; lia).
    assert (Hm : n mod 86400 = n) by (apply Z.mod_small; lia).
    unfold str_timedelta, clock. rewrite Hd, Hm.
    split; [reflexivity |].
    split; apply two_digits_length; apply Z.mod_pos_bound; lia.
  - assert (Hd : n / 86400 = 1).
    { symmetry. apply (Z.div_unique n 86400 1 (n - 86400)); lia. }
    assert (Hm : n mod 86400 = n - 86400).
    { symmetry. apply (Z.mod_unique n 86400 1 (n - 86400)); lia. }
    unfold str_timedelta, clock. rewrite Hd, Hm. reflexivity.
Qed.

End TranscriptFacts.

(** ** Instances of the conditional properties *)

Module Instances.
Import PyStr PyDict Catalog Rate Studio Transcribe TranscribeGenerated
  Shutdown Props Notions.

Lemma loaded_groups_well_formed_witness :
  let vs := default [] (dget get_fallback_voices "English") in
  vs <> [] /\
  forall v, In v vs ->
    language v = "English" /\ short_name v <> "" /\ display_name v <> "".
Proof.
  apply (proj2 (LoaderFacts.loaded_groups_well_formed false (Raises "offline"))
           "English" (default [] (dget get_fallback_voices "English"))).
  vm_compute. left. reflexivity.
Defined.

Lemma loader_keeps_named_entries_witness :
  exists v, In v (grouped_voices (load_voices true (Returns ragged_listing))) /\
            short_name v = "en-US-AvaNeural" /\ info v = ava_us.
Proof.
  apply (proj2 (proj2 (LoaderFacts.loader_keeps_named_entries ragged_listing))
           ava_us).
  vm_compute. right. right. left. reflexivity.
Defined.

Lemma total_voices_at_most_listed_witness :
  let c := load_voices true (Returns three_languages) in
  total_voices (get_voices c) = length (grouped_voices c).
Proof.
  apply (proj2 (LookupFacts.total_voices_at_most_listed three_languages)).
  vm_compute. repeat constructor; simpl; intuition discriminate.
Defined.

Lemma lookup_by_display_name_finds_witness :
  find_voice_by_input (VOICE_DATA (load_voices false (Raises "offline")))
    (Some (display_name jenny)) = Some (Descriptor jenny).
Proof.
  apply (LookupFacts.lookup_by_display_name_finds false (Raises "offline") jenny).
  vm_compute. left. reflexivity.
Defined.

Lemma lookup_keeps_identifier_witness :
  exists vo,
    find_voice_by_input fallback_table (Some "en-US-GuyNeural") = Some vo /\
    obj_short_name vo = "en-US-GuyNeural".
Proof.
  apply (LookupFacts.lookup_keeps_identifier fallback_table "en-US-GuyNeural").
  - discriminate.
  - reflexivity.
Defined.

Lemma provider_voice_never_empty_witness :
  c_voice {| c_text := "Hi"; c_voice := "en-US-AvaNeural";
             c_rate := "+0%"; c_path := "/tmp/tmpabcd1234.mp3" |} <> "".
Proof.
  apply (LookupFacts.provider_voice_never_empty "/tmp" provider_ok false
           (Raises "offline") (init_state ∅) (client None "s1" "abcd1234")
           (say_hi "en-US-AvaNeural")
           {| c_text := "Hi"; c_voice := "en-US-AvaNeural";
              c_rate := "+0%"; c_path := "/tmp/tmpabcd1234.mp3" |}).
  vm_compute. left. reflexivity.
Defined.

Lemma filter_voices_sound_witness :
  (forall g, Some "Female" = Some g -> g <> "All" -> gender jenny = g) /\
  contains (strip (lower (default "" (Some " JEN ")))) (lower (display_name jenny))
  = true /\
  (forall L, Some "English" = Some L -> L <> "All" -> language jenny = L).
Proof.
  apply (FilterFacts.filter_voices_sound false (Raises "offline")
           (Some "English") (Some "Female") (Some " JEN ") jenny).
  vm_compute. left. reflexivity.
Defined.

Lemma filter_voices_trims_search_witness :
  filter_voices fallback_catalog None None (Some "   ")
  = filter_voices fallback_catalog None None None.
Proof.
  apply (proj2 (FilterFacts.filter_voices_trims_search fallback_catalog
                  None None "   ")).
  reflexivity.
Defined.

Lemma cleanup_temp_files_exact_witness :
  TEMP_FILES (cleanup_temp_files (fun _ => false) one_session_state "s1") !! "s2"
  = TEMP_FILES one_session_state !! "s2".
Proof.
  apply (proj2 (proj2 (LifecycleFacts.cleanup_temp_files_exact
                         (fun _ => false) one_session_state "s1")) "s2").
  discriminate.
Defined.

Lemma cleanup_all_empties_registry_witness :
  let st' := cleanup_all (fun _ => false) ["s1"] one_session_state in
  TEMP_FILES st' = ∅ /\
  (forall x, x ∈ fs st' <->
             x ∈ fs one_session_state /\
             ((forall a, ~ In x (owned one_session_state a)) \/ false = true)).
Proof.
  apply (LifecycleFacts.cleanup_all_empties_registry (fun _ => false) ["s1"]
           one_session_state).
  intros k [files Hk]. simpl in Hk.
  apply lookup_singleton_Some in Hk as [<- _]. now left.
Defined.

Lemma serve_audio_only_registered_witness :
  serve_audio (TEMP_FILES one_session_state) "s1" "/tmp/tmpabcd1234.mp3"
  = Plain 404 "File not found".
Proof.
  apply (proj2 (proj2 (proj2 (RequestFacts.serve_audio_only_registered
                                (TEMP_FILES one_session_state) "s1"
                                "/tmp/tmpabcd1234.mp3")))).
  reflexivity.
Defined.

Lemma registry_consistent_in_every_run_witness :
  let st := run "/tmp" provider_ok fallback_table (init_state ∅)
              [first_preview; second_generate; other_preview; other_cleanup] in
  (forall session_id files,
      TEMP_FILES st !! session_id = Some files ->
      files <> [] /\ NoDup files /\ forall f, In f files -> f ∈ fs st) /\
  (forall a b f, In f (owned st a) -> In f (owned st b) -> a = b).
Proof.
  apply (RequestFacts.registry_consistent_in_every_run "/tmp" provider_ok
           fallback_table ∅
           [first_preview; second_generate; other_preview; other_cleanup]).
  vm_compute. reflexivity.
Defined.


Lemma provider_failure_keeps_file_witness :
  let o := handle "/tmp" provider_down fallback_table (init_state ∅)
             first_preview in
  let call := {| c_text := "Hi"; c_voice := "en-US-JennyNeural";
                 c_rate := "+0%"; c_path := "/tmp/tmpabcd1234.mp3" |} in
  resp o = Json 500 [("error", JStr "No audio was received")] /\
  registered o = Some ("s1", c_path call) /\
  In (c_path call) (owned (out_state o) "s1") /\
  c_path call ∈ fs (out_state o).
Proof.
  apply (RequestFacts.provider_failure_keeps_file "/tmp" provider_down
           fallback_table (init_state ∅) first_preview
           (client None "s1" "abcd1234")
           {| c_text := "Hi"; c_voice := "en-US-JennyNeural";
              c_rate := "+0%"; c_path := "/tmp/tmpabcd1234.mp3" |}
           "No audio was received").
  - eexists. left. reflexivity.
  - vm_compute. left. reflexivity.
  - reflexivity.
Defined.

Lemma event_touches_only_its_session_witness :
  TEMP_FILES (out_state (handle "/tmp" provider_ok fallback_table
                           one_session_state other_cleanup)) !! "s1"
  = TEMP_FILES one_session_state !! "s1".
Proof.
  apply (RequestFacts.event_touches_only_its_session "/tmp" provider_ok
           fallback_table one_session_state other_cleanup "s1").
  discriminate.
Defined.

Lemma cookie_keeps_session_witness :
  "s1" = "s1" /\
  owned (out_state (handle "/tmp" provider_ok fallback_table
                      (out_state (handle "/tmp" provider_ok fallback_table
                                    (init_state ∅) first_preview))
                      second_generate)) "s1"
  = (owned (init_state ∅) "s1"
     ++ ["/tmp/tmpabcd1234.mp3"; "/tmp/tmpefgh5678.mp3"])%list.
Proof.
  apply (RequestFacts.cookie_keeps_session "/tmp" provider_ok fallback_table
           (init_state ∅) first_preview (client None "s1" "abcd1234")
           second_generate (client (Some "s1") "u2" "efgh5678")
           "s1" "/tmp/tmpabcd1234.mp3" "s1" "/tmp/tmpefgh5678.mp3").
  - eexists. left. reflexivity.
  - eexists. right. reflexivity.
  - vm_compute. reflexivity.
  - vm_compute. reflexivity.
  - vm_compute. reflexivity.
Defined.

Lemma allocated_artifact_served_until_cleanup_witness :
  let st := run "/tmp" provider_ok fallback_table (init_state ∅)
              ([] ++ first_preview
                  :: [second_generate; other_preview; other_cleanup]) in
  In "/tmp/tmpabcd1234.mp3" (owned st "s1") /\
  serve_audio (TEMP_FILES st) "s1" "tmpabcd1234.mp3"
  = SendFile "/tmp/tmpabcd1234.mp3".
Proof.
  destruct (RequestFacts.allocated_artifact_served_until_cleanup
              "/tmp" provider_ok fallback_table ∅ [] first_preview
              (client None "s1" "abcd1234")
              [second_generate; other_preview; other_cleanup])
    as (r & Hr & _ & _ & _ & _ & Hin & Hserve & _).
  - exists (say_hi "en-US-JennyNeural"). now left.
  - vm_compute. reflexivity.
  - left. vm_compute. reflexivity.
  - vm_compute. reflexivity.
  - injection Hr as <-. split; [exact Hin | exact Hserve].
Defined.

Lemma synthesized_text_witness :
  let call := {| c_text := "Hi"; c_voice := "en-US-GuyNeural";
                 c_rate := "+0%"; c_path := "/tmp/tmpabcd1234.mp3" |} in
  c_text call = strip (default "" (Some "  Hi ")) /\ c_text call <> "".
Proof.
  apply (proj1 (RequestFacts.synthesized_text "/tmp" provider_ok fallback_table
                  (init_state ∅) (client None "s1" "abcd1234")
                  {| b_voice := Some "en-US-GuyNeural"; b_speed := None;
                     b_text := Some "  Hi " |}
                  {| c_text := "Hi"; c_voice := "en-US-GuyNeural";
                     c_rate := "+0%"; c_path := "/tmp/tmpabcd1234.mp3" |})).
  vm_compute. left. reflexivity.
Defined.

Lemma rate_string_tells_percent_witness :
  calculate_rate_parameter 0x1.004189374bc6ap+0%float <> Returns "+0%".
Proof.
  apply (proj2 (proj2 RateStringFacts.rate_string_tells_percent)
           0x1.004189374bc6ap+0%float).
  reflexivity.
Defined.

Lemma transcribe_generated_like_upload_witness :
  transcribe_generated (Some engine_two_segments) working_disk
    [("audio", sample_upload)]
  = transcribe_upload (Some engine_two_segments) working_disk
      [("audio", sample_upload)].
Proof.
  apply (proj1 (TranscriptFacts.transcribe_generated_like_upload
                  (Some engine_two_segments) working_disk
                  [("audio", sample_upload)]) engine_two_segments).
  reflexivity.
Defined.

Lemma transcription_outcomes_witness :
  exists parts,
    length parts = length [(0, " Hello "); (3725, "again")] /\
    transcribe_upload (Some engine_two_segments) working_disk
      [("audio", sample_upload)]
    = Json 200 [("success", JBool true);
                ("engine", JStr "Faster Whisper");
                ("transcript", JStr (join_lines parts));
                ("full_text", JStr (join_lines parts))].
Proof.
  apply (proj2 (proj2 (proj2 (TranscriptFacts.transcription_outcomes
                                engine_two_segments working_disk
                                [("audio", sample_upload)] sample_upload
                                eq_refl ltac:(discriminate))))
           "/tmp/tmpwxyz0123.mp3" [(0, " Hello "); (3725, "again")]).
  - reflexivity.
  - reflexivity.
  - reflexivity.
  - apply List.Forall_cons; [vm_compute; discriminate |].
    apply List.Forall_cons; [vm_compute; discriminate |].
    apply List.Forall_nil.
Defined.

Lemma str_timedelta_clock_witness :
  str_timedelta 3725 = Returns (clock 3725) /\
  String.length (two_digits (3725 / 60 mod 60)) = 2%nat /\
  String.length (two_digits (3725 mod 60)) = 2%nat.
Proof.
  apply (proj1 (TranscriptFacts.str_timedelta_clock 3725)). lia.
Defined.

End Instances.
